(** * rt-app trace analysis ([lisa/analysis/rta.py]): phases and windows

    A shallow embedding of the table transformations of the class
    [RTAEventsAnalysis] and the properties of its phase tables.

    Conventions of the embedding:
    - a [pandas.DataFrame] is the list of its rows, in frame order; the
      index (the [Time] of the trace event) is a field of the row;
    - the integer columns are integers ([Z]); the [int64] subtraction of
      [_get_stats] wraps around and its quotient is a binary64 float;
    - in the methods of the class the timestamps are exact integers
      ([Z]): the methods select, compare and count them. The arithmetic
      the code does on the float64 index, the differences of [df_phases]
      and the sums of [task_phase_windows], is modelled a second time on
      binary64 floats, in [F64], and what rounding changes is stated
      there;
    - a Python call that may raise returns a [PyResult]; an exception is
      identified by the name of its class;
    - [@memoized] does not change what a method returns and is left
      out. [requires_events] and [used_events] check that the trace holds
      the events a method reads before the method runs; they are left
      out too: the model is of the method bodies, once these checks have
      passed. *)

From Stdlib Require Import Floats ZArith String Bool Lia List Sorted Permutation.
Import ListNotations.
Local Open Scope Z_scope.

(** ** Python results *)

Module Py.

Inductive PyResult (A : Type) : Type :=
| Ok (a : A)
| Raise (exn : string).

Arguments Ok {A} a.
Arguments Raise {A} exn.

Definition bind {A B} (m : PyResult A) (k : A -> PyResult B) : PyResult B :=
  match m with
  | Ok a => k a
  | Raise e => Raise e
  end.

Definition fmap {A B} (f : A -> B) (m : PyResult A) : PyResult B :=
  bind m (fun a => Ok (f a)).

End Py.
Import Py.

Notation "x <- m ;; k" := (Py.bind m (fun x => k))
  (at level 61, m at next level, right associativity).

(** ** The pandas operations the module uses, on lists of rows *)

Module Pandas.

(** [df.drop_duplicates(keep='last')]: a row stays when no later row has
    the same column values; the index is not compared. *)
Fixpoint drop_duplicates_last {A} (same : A -> A -> bool) (df : list A)
  : list A :=
  match df with
  | [] => []
  | r :: rest =>
      if existsb (same r) rest
      then drop_duplicates_last same rest
      else r :: drop_duplicates_last same rest
  end.

(** [df.groupby(keys).head(1)]: the first row of every group, in frame
    order. [seen] holds the rows already taken. *)
Fixpoint groupby_head1_from {A} (same : A -> A -> bool) (seen df : list A)
  : list A :=
  match df with
  | [] => []
  | r :: rest =>
      if existsb (same r) seen
      then groupby_head1_from same seen rest
      else r :: groupby_head1_from same (r :: seen) rest
  end.

Definition groupby_head1 {A} (same : A -> A -> bool) (df : list A) : list A :=
  groupby_head1_from same [] df.

(** Stable sorts. [before a b] says that [a] must come strictly before
    [b]; a row is inserted in front of the rows already placed unless one
    of them must come strictly before it, so rows that compare equal keep
    their frame order. *)
Fixpoint insert_stable {A} (before : A -> A -> bool) (x : A) (l : list A)
  : list A :=
  match l with
  | [] => [x]
  | y :: l' =>
      if before y x then y :: insert_stable before x l' else x :: y :: l'
  end.

Fixpoint sort_stable {A} (before : A -> A -> bool) (df : list A) : list A :=
  match df with
  | [] => []
  | x :: rest => insert_stable before x (sort_stable before rest)
  end.

(** [x[::2]] *)
Fixpoint step2 {A} (l : list A) : list A :=
  match l with
  | [] => []
  | [x] => [x]
  | x :: _ :: rest => x :: step2 rest
  end.

(** [index[1:] - index[:-1]] *)
Fixpoint sub_elementwise (a b : list Z) : list Z :=
  match a, b with
  | x :: a', y :: b' => (x - y) :: sub_elementwise a' b'
  | _, _ => []
  end.

Definition index_deltas (index : list Z) : list Z :=
  sub_elementwise (tl index) (removelast index).

(** [df[name] = values] for an [Index] of values: the lengths must
    agree. *)
Definition set_column {A B} (df : list A) (values : list B)
  : PyResult (list (A * B)) :=
  if Nat.eqb (length values) (length df)
  then Ok (combine df values)
  else Raise "ValueError".

(** [df.head(n)]: [iloc[:n]], also for a negative [n]. *)
Definition head {A} (n : Z) (df : list A) : list A :=
  if 0 <=? n
  then firstn (Z.to_nat n) df
  else firstn (length df - Z.to_nat (- n)) df.

(** [df.tail(n)]: nothing for [n = 0], else [iloc[-n:]]. *)
Definition tail {A} (n : Z) (df : list A) : list A :=
  if n =? 0 then []
  else if 0 <? n then skipn (length df - Z.to_nat n) df
  else skipn (Z.to_nat (- n)) df.

(** [values[0]] and [index[0]] *)
Definition first_value {A} (l : list A) : PyResult A :=
  match l with
  | [] => Raise "IndexError"
  | x :: _ => Ok x
  end.

(** [index[-1]] and [iloc[-1]] *)
Definition last_value {A} (l : list A) : PyResult A :=
  match rev l with
  | [] => Raise "IndexError"
  | x :: _ => Ok x
  end.

(** [df[timestamp:]] on a monotonic increasing index of floats, where a
    slice is by label: the rows from the first one whose label is not
    below [timestamp]. *)
Fixpoint slice_from {A} (label : A -> Z) (timestamp : Z) (df : list A)
  : list A :=
  match df with
  | [] => []
  | r :: rest =>
      if label r <? timestamp then slice_from label timestamp rest else df
  end.

(** An [int64] column: the subtraction wraps around. *)
Definition int64_wrap (z : Z) : Z := (z + 2 ^ 63) mod 2 ^ 64 - 2 ^ 63.

Definition int64_sub (a b : Z) : Z := int64_wrap (a - b).

(** The float64 of an [int64]: the nearest binary64 number, ties to
    even. *)
Definition float_of_int64 (z : Z) : float :=
  SF2Prim (binary_normalize prec emax z 0 false).

(** [a / b] on two [int64] columns: the operands become float64 and the
    quotient is the float64 quotient; a zero divisor gives an infinity
    or a NaN instead of raising. *)
Definition truediv (a b : Z) : float :=
  (float_of_int64 a / float_of_int64 b)%float.

End Pandas.
Import Pandas.

(** ** Trace tables *)

(** [lisa.trace.TaskID] *)
Record TaskID : Type := mkTaskID { pid : Z; comm : string }.

Definition TaskID_eqb (a b : TaskID) : bool :=
  (pid a =? pid b) && (comm a =? comm b)%string.

(** What callers pass as [task]: nothing, a PID, a name or a [TaskID]. *)
Inductive TaskArg : Type :=
| TaskNone
| TaskPid (p : Z)
| TaskComm (c : string)
| TaskTID (t : TaskID).

(** Python's truth value of a [task] argument ([not task]). *)
Definition truthy (task : TaskArg) : bool :=
  match task with
  | TaskNone => false
  | TaskPid p => negb (p =? 0)
  | TaskComm c => negb (c =? "")%string
  | TaskTID _ => true
  end.

(** A row of the [rtapp_loop] events; [Time] is the index. *)
Record LoopRow : Type := mkLoop {
  Time : Z;
  __comm : string;
  __pid : Z;
  event : string;
  phase : Z;
  phase_loop : Z;
  thread_loop : Z
}.

(** A row of the [rtapp_main] and [rtapp_task] events (the [data] column
    of [rtapp_main] is read by [rtapp_reftime] only and is left out). *)
Record MarkRow : Type := mkMark {
  m_Time : Z;
  m_comm : string;
  m_pid : Z;
  m_event : string
}.

(** A row of the [rtapp_stats] events, with the columns [_get_stats]
    reads. *)
Record StatsRow : Type := mkStats {
  s_Time : Z;
  s_comm : string;
  s_pid : Z;
  slack : Z;
  c_period : Z;
  c_run : Z
}.

(** A row of [_get_stats]: the event's columns and [perf_index]. *)
Record PerfRow : Type := mkPerf {
  stats : StatsRow;
  perf_index : float
}.

(** The trace object ([lisa.trace.Trace], not in this module): its event
    tables, as [trace.df_events(name)] returns them, and its task
    resolution [trace.get_task_id]. [rtapp_event_ids] are the
    ([__pid], [__comm]) pairs of the [rtapp_event] table, whose other
    columns are not read here. *)
Record Trace : Type := mkTrace {
  rtapp_main : list MarkRow;
  rtapp_task : list MarkRow;
  rtapp_loop : list LoopRow;
  rtapp_event_ids : list TaskID;
  rtapp_stats : list StatsRow;
  get_task_id : TaskArg -> PyResult TaskID
}.

(** Modelled from the spec: [lisa.datautils.df_filter_task_ids] is not in
    this module; it keeps the rows of the given tasks ("events for one
    task"), matching the PID and the name columns. *)
Definition df_filter_task_ids {R} (df : list R) (task_ids : list TaskID)
  (pid_col : R -> Z) (comm_col : R -> string) : list R :=
  filter (fun r => existsb (TaskID_eqb (mkTaskID (pid_col r) (comm_col r)))
                     task_ids) df.

(** Stand-in for [trace.get_task_id] in the concrete traces below: a
    [TaskID] resolves to itself, a PID or a name to the first task that
    carries it. *)
Definition resolve_among (ids : list TaskID) (task : TaskArg)
  : PyResult TaskID :=
  match task with
  | TaskTID t => Ok t
  | TaskPid p =>
      match find (fun t => pid t =? p) ids with
      | Some t => Ok t
      | None => Raise "ValueError"
      end
  | TaskComm c =>
      match find (fun t => (comm t =? c)%string) ids with
      | Some t => Ok t
      | None => Raise "ValueError"
      end
  | TaskNone => Raise "ValueError"
  end.

(** ** class RTAEventsAnalysis *)

(** [PhaseWindow = namedtuple("PhaseWindow", ['id', 'start', 'end'])] *)
Record PhaseWindow : Type := mkPhaseWindow {
  pw_id : Z;
  pw_start : Z;
  pw_end : Z
}.

(** A row of [_get_rtapp_phases]: index ([__comm], [__pid], [phase]) and
    the column [Time]. *)
Record PhaseRow : Type := mkPhaseRow {
  p_comm : string;
  p_pid : Z;
  p_phase : Z;
  p_Time : Z
}.

(** [_get_rtapp_tasks]: the tasks of every [rtapp_] table. Only membership
    is read from the result, so the sorting and the removal of repeats
    are not modelled. *)
Definition _get_rtapp_tasks (self : Trace) : list TaskID :=
  map (fun r => mkTaskID (m_pid r) (m_comm r)) (rtapp_main self)
  ++ map (fun r => mkTaskID (m_pid r) (m_comm r)) (rtapp_task self)
  ++ map (fun r => mkTaskID (__pid r) (__comm r)) (rtapp_loop self)
  ++ rtapp_event_ids self
  ++ map (fun r => mkTaskID (s_pid r) (s_comm r)) (rtapp_stats self).

Definition rtapp_tasks (self : Trace) : list TaskID := _get_rtapp_tasks self.

Definition _task_filtered {R} (pid_col : R -> Z) (comm_col : R -> string)
  (self : Trace) (df : list R) (task : TaskArg) : PyResult (list R) :=
  if negb (truthy task) then Ok df
  else
    task <- (match task with
             | TaskTID t => Ok t
             | _ => get_task_id self task
             end) ;;
    if negb (existsb (TaskID_eqb task) (rtapp_tasks self))
    then Raise "ValueError"
    else Ok (df_filter_task_ids df [task] pid_col comm_col).

Definition df_rtapp_main (self : Trace) : list MarkRow := rtapp_main self.

Definition rtapp_window (self : Trace) : PyResult (Z * Z) :=
  let df := df_rtapp_main self in
  s <- first_value (map m_Time (filter (fun r => (m_event r =? "start")%string) df)) ;;
  e <- first_value (map m_Time (filter (fun r => (m_event r =? "end")%string) df)) ;;
  Ok (s, e).

Definition df_rtapp_task (self : Trace) (task : TaskArg)
  : PyResult (list MarkRow) :=
  _task_filtered m_pid m_comm self (rtapp_task self) task.

Definition df_rtapp_loop (self : Trace) (task : TaskArg)
  : PyResult (list LoopRow) :=
  _task_filtered __pid __comm self (rtapp_loop self) task.

(** [sort_values(by=['phase_loop', 'thread_loop'], ascending=False)]: a
    row comes before another when its pair of counters is greater. *)
Definition counters_desc (a b : LoopRow) : bool :=
  (phase_loop b <? phase_loop a)
  || ((phase_loop b =? phase_loop a) && (thread_loop b <? thread_loop a)).

(** The groups of [groupby(['__comm', '__pid', 'phase', 'event'])]. *)
Definition same_group (a b : LoopRow) : bool :=
  (__comm a =? __comm b)%string && (__pid a =? __pid b)
  && (phase a =? phase b) && (event a =? event b)%string.

(** [sort_index()]: by [Time], increasing. Rows of equal [Time] are left
    in their order; only their [Time] is read afterwards. *)
Definition time_asc (a b : LoopRow) : bool := Time a <? Time b.

Definition _get_rtapp_phases (self : Trace) (event_ : string) (task : TaskArg)
  : PyResult (list PhaseRow) :=
  df <- df_rtapp_loop self task ;;
  let df := filter (fun r => (event r =? event_)%string) df in
  let df :=
    if (event_ =? "start")%string then filter (fun r => phase_loop r =? 0) df
    else if (event_ =? "end")%string then sort_stable counters_desc df
    else df in
  let df := groupby_head1 same_group df in
  let df := sort_stable time_asc df in
  Ok (map (fun r => mkPhaseRow (__comm r) (__pid r) (phase r) (Time r)) df).

Definition df_rtapp_phases_start (self : Trace) (task : TaskArg) :=
  _get_rtapp_phases self "start" task.

Definition df_rtapp_phases_end (self : Trace) (task : TaskArg) :=
  _get_rtapp_phases self "end" task.

(** [df.loc[comm]] on the ([__comm], [__pid], [phase]) index. *)
Definition loc_comm (c : string) (df : list PhaseRow)
  : PyResult (list PhaseRow) :=
  match filter (fun r => (p_comm r =? c)%string) df with
  | [] => Raise "KeyError"
  | rows => Ok rows
  end.

Definition _get_task_phase (self : Trace) (event_ : string) (task : TaskArg)
  (phase_ : Z) : PyResult Z :=
  task <- get_task_id self task ;;
  df <- (if (event_ =? "start")%string
         then df_rtapp_phases_start self (TaskTID task)
         else if (event_ =? "end")%string
         then df_rtapp_phases_end self (TaskTID task)
         else Raise "UnboundLocalError") ;;
  let phase_ :=
    if negb (phase_ =? 0) && (phase_ <? 0)
    then phase_ + Z.of_nat (length df) else phase_ in
  let phase_ := phase_ + 1 in
  rows <- loc_comm (comm task) df ;;
  first_value (map p_Time (tail 1 (head phase_ rows))).

Definition df_rtapp_phase_start (self : Trace) (task : TaskArg) (phase_ : Z) :=
  _get_task_phase self "start" task phase_.

Definition df_rtapp_phase_end (self : Trace) (task : TaskArg) (phase_ : Z) :=
  _get_task_phase self "end" task phase_.

Definition tasks_window (self : Trace) (task : TaskArg) : PyResult (Z * Z) :=
  task_df <- df_rtapp_task self task ;;
  start_time <- first_value (map m_Time
                  (filter (fun r => (m_event r =? "start")%string) task_df)) ;;
  end_time <- first_value (map m_Time
                (filter (fun r => (m_event r =? "end")%string) task_df)) ;;
  Ok (start_time, end_time).

Definition task_phase_window (self : Trace) (task : TaskArg) (phase_ : Z)
  : PyResult PhaseWindow :=
  phase_start <- df_rtapp_phase_start self task phase_ ;;
  phase_end <- df_rtapp_phase_end self task phase_ ;;
  Ok (mkPhaseWindow phase_ phase_start phase_end).

(** [keep_first_start], local to [df_phases] *)
Definition keep_first_start (raw : LoopRow) : Z :=
  if negb (phase_loop raw =? 0) then -1
  else if (event raw =? "end")%string then -1
  else 0.

(** A row of [phases_df] after the [event] column is dropped: the index,
    [phase] and the rewritten [phase_loop]. *)
Abbreviation PhaseMark := (Z * (Z * Z))%type (only parsing).

Definition same_mark (a b : PhaseMark) : bool :=
  (fst (snd a) =? fst (snd b)) && (snd (snd a) =? snd (snd b)).

(** [phases_df] before the duplicates are dropped. *)
Definition mark_of (raw : LoopRow) : PhaseMark :=
  (Time raw, (phase raw, keep_first_start raw)).

(** The rows [df_phases] keeps before it pairs them. *)
Definition kept_marks (loops_df : list LoopRow) : list PhaseMark :=
  drop_duplicates_last same_mark (map mark_of loops_df).

(** The body of [df_phases] once the task's events are selected: the
    frame of (index, [duration]). [apply(keep_first_start, axis=1)] is
    read as a map over the rows; what it returns for a frame without
    rows, and what the assignment of that result does, depends on the
    version of pandas, so the statements below are about frames that
    have rows. *)
Definition df_phases_of_loops (loops_df : list LoopRow)
  : PyResult (list (Z * Z)) :=
  let phases_df := kept_marks loops_df in
  let durations := index_deltas (map fst phases_df) in
  let durations := step2 durations in
  let phases_df := map (fun r => (fst r, fst (snd r))) (step2 phases_df) in
  phases_df <- set_column phases_df durations ;;
  Ok (map (fun r => (fst (fst r), snd r)) phases_df).

Definition df_phases (self : Trace) (task : TaskArg)
  : PyResult (list (Z * Z)) :=
  loops_df <- df_rtapp_loop self task ;;
  df_phases_of_loops loops_df.

Definition task_phase_at (self : Trace) (task : TaskArg) (timestamp : Z)
  : PyResult (option PhaseWindow) :=
  ref <- df_phases self (TaskComm "test_task-0") ;;
  last_index <- last_value (map fst ref) ;;
  last_duration <- last_value (map snd ref) ;;
  let last_phase_end := last_index + last_duration in
  if last_phase_end <? timestamp then Ok None
  else
    table <- df_phases self task ;;
    let phase_id :=
      Z.of_nat (length table)
      - Z.of_nat (length (slice_from fst timestamp table)) - 1 in
    if phase_id <? 0 then Ok None
    else
      w <- task_phase_window self task phase_id ;;
      Ok (Some w).

(** The windows [task_phase_windows] yields, in order. *)
Fixpoint enumerate_from {A} (idx : Z) (l : list A) : list (Z * A) :=
  match l with
  | [] => []
  | x :: rest => (idx, x) :: enumerate_from (idx + 1) rest
  end.

(** [PhaseWindow(idx, phase.Index, phase.Index+phase.duration)] *)
Definition window_of (ip : Z * (Z * Z)) : PhaseWindow :=
  mkPhaseWindow (fst ip) (fst (snd ip)) (fst (snd ip) + snd (snd ip)).

Definition task_phase_windows (self : Trace) (task : TaskArg)
  : PyResult (list PhaseWindow) :=
  table <- df_phases self task ;;
  Ok (map window_of (enumerate_from 0 table)).

Definition _get_stats (self : Trace) : list PerfRow :=
  map (fun r => mkPerf r (truediv (slack r) (int64_sub (c_period r) (c_run r))))
    (rtapp_stats self).

Definition df_rtapp_stats (self : Trace) (task : TaskArg)
  : PyResult (list PerfRow) :=
  _task_filtered (fun r => s_pid (stats r)) (fun r => s_comm (stats r))
    self (_get_stats self) task.

(** [series[t]] for a label [t] of a float index: the value when one row
    carries the label, the array of the values when several do. *)
Inductive Cell : Type :=
| Scalar (v : Z)
| Values (vs : list Z).

Definition series_getitem (series : list (Z * Z)) (t : Z) : PyResult Cell :=
  match filter (fun r => fst r =? t) series with
  | [] => Raise "KeyError"
  | [r] => Ok (Scalar (snd r))
  | rows => Ok (Values (map snd rows))
  end.

(** [t + cell] *)
Definition cell_add (t : Z) (c : Cell) : Cell :=
  match c with
  | Scalar v => Scalar (t + v)
  | Values vs => Values (map (Z.add t) vs)
  end.

(** [[f(t) for t in index]] for an [f] that may raise. *)
Fixpoint for_each {A B} (f : A -> PyResult B) (l : list A)
  : PyResult (list B) :=
  match l with
  | [] => Ok []
  | x :: rest =>
      y <- f x ;;
      ys <- for_each f rest ;;
      Ok (y :: ys)
  end.

(** The list [bands] of [plot_phases]; the drawing of the bands on the
    axis is not modelled. *)
Definition plot_phases_bands (self : Trace) (task : TaskArg)
  : PyResult (list (Z * Cell)) :=
  phases_df <- df_phases self task ;;
  for_each (fun t => d <- series_getitem phases_df t ;; Ok (t, cell_add t d))
    (map fst phases_df).

(** ** The phase table on the float64 index *)

(** The index of the trace's tables is a float64. [F64] has the part of
    [df_phases] and of [task_phase_windows] that computes with it, on
    binary64 floats, from the frame [df_rtapp_loop(task)] returns: the
    selection of the rows is the one above, the differences
    [index[1:] - index[:-1]] and the sums [phase.Index + phase.duration]
    are float64 operations, rounded to nearest. *)
Module F64.

(** A row of [loops_df[['event', 'phase', 'phase_loop']]] under its
    index. *)
Record LoopRow : Type := mkLoop {
  Time : float;
  event : string;
  phase : Z;
  phase_loop : Z
}.

Definition keep_first_start (raw : LoopRow) : Z :=
  if negb (phase_loop raw =? 0) then -1
  else if (event raw =? "end")%string then -1
  else 0.

(** A row of [phases_df]: the index, [phase] and the rewritten
    [phase_loop]. *)
Abbreviation PhaseMark := (float * (Z * Z))%type (only parsing).

Definition same_mark (a b : PhaseMark) : bool :=
  (fst (snd a) =? fst (snd b)) && (snd (snd a) =? snd (snd b)).

Definition mark_of (raw : LoopRow) : PhaseMark :=
  (Time raw, (phase raw, keep_first_start raw)).

Definition kept_marks (loops_df : list LoopRow) : list PhaseMark :=
  drop_duplicates_last same_mark (map mark_of loops_df).

(** [index[1:] - index[:-1]] *)
Fixpoint sub_elementwise (a b : list float) : list float :=
  match a, b with
  | x :: a', y :: b' => (x - y)%float :: sub_elementwise a' b'
  | _, _ => []
  end.

Definition index_deltas (index : list float) : list float :=
  sub_elementwise (tl index) (removelast index).

(** [df_phases(task)], for the task whose events are [loops_df]. *)
Definition df_phases (loops_df : list LoopRow)
  : PyResult (list (float * float)) :=
  let phases_df := kept_marks loops_df in
  let durations := index_deltas (map fst phases_df) in
  let durations := step2 durations in
  let phases_df := map (fun r => (fst r, fst (snd r))) (step2 phases_df) in
  phases_df <- set_column phases_df durations ;;
  Ok (map (fun r => (fst (fst r), snd r)) phases_df).

Record PhaseWindow : Type := mkPhaseWindow {
  pw_id : Z;
  pw_start : float;
  pw_end : float
}.

(** [PhaseWindow(idx, phase.Index, phase.Index+phase.duration)] *)
Definition window_of (ip : Z * (float * float)) : PhaseWindow :=
  mkPhaseWindow (fst ip) (fst (snd ip)) (fst (snd ip) + snd (snd ip))%float.

(** [task_phase_windows(task)], for the task whose events are
    [loops_df]. *)
Definition task_phase_windows (loops_df : list LoopRow)
  : PyResult (list PhaseWindow) :=
  table <- df_phases loops_df ;;
  Ok (map window_of (enumerate_from 0 table)).

(** Python's [a <= b] on floats. *)
Definition le (a b : float) : Prop := (a <=? b)%float = true.

(** A timestamp: a number, neither a NaN nor an infinity. *)
Definition is_timestamp (t : float) : bool :=
  (neg_infinity <? t)%float && (t <? infinity)%float.

(** The events behind [kept_marks], with all their columns. *)
Definition same_kept (a b : LoopRow) : bool :=
  same_mark (mark_of a) (mark_of b).

Definition kept_rows (loops_df : list LoopRow) : list LoopRow :=
  drop_duplicates_last same_kept loops_df.

(** Consecutive labels taken two by two: (first, second - first). *)
Fixpoint pair_up (index : list float) : list (float * float) :=
  match index with
  | x :: y :: rest => (x, (y - x)%float) :: pair_up rest
  | _ => []
  end.

(** The labels of odd rank: second, fourth, ... *)
Fixpoint seconds (index : list float) : list float :=
  match index with
  | _ :: y :: rest => y :: seconds rest
  | _ => []
  end.

(** A finite number, as the specification of binary64 has them. *)
Definition timestamp_sf (x : spec_float) : Prop :=
  match x with
  | S754_zero _ | S754_finite _ _ _ => True
  | _ => False
  end.

End F64.

(** ** Concrete traces *)

Definition task_A : TaskID := mkTaskID 1 "A".
Definition test_task_0 : TaskID := mkTaskID 2 "test_task-0".

(** An [rtapp_loop] event of task [t]. *)
Definition loop_event (t : TaskID) (kind : string)
  (phase_ loop_ thread_ time_ : Z) : LoopRow :=
  mkLoop time_ (comm t) (pid t) kind phase_ loop_ thread_.

(** A trace that holds [rtapp_loop] events only; names and PIDs resolve
    among the tasks of these events. *)
Definition loop_trace (loops : list LoopRow) : Trace :=
  mkTrace [] [] loops [] []
    (resolve_among (map (fun r => mkTaskID (__pid r) (__comm r)) loops)).

(** The worked example of the specification, for task [t]. *)
Definition example_events (t : TaskID) : list LoopRow :=
  [ loop_event t "start" 0 0 0 0;
    loop_event t "start" 0 1 0 5;
    loop_event t "end" 0 1 0 10;
    loop_event t "start" 1 0 0 10;
    loop_event t "end" 1 0 0 20 ].

(** One phase run in two iterations of the thread loop. *)
Definition two_thread_loops (t : TaskID) : list LoopRow :=
  [ loop_event t "start" 0 0 0 0;
    loop_event t "end" 0 0 0 10;
    loop_event t "start" 0 0 1 20;
    loop_event t "end" 0 0 1 30 ].

(** Two phases that start and never end. *)
Definition two_starts (t : TaskID) : list LoopRow :=
  [ loop_event t "start" 0 0 0 0;
    loop_event t "start" 1 0 0 5 ].

(** The example's task next to a task named [test_task-0] whose only
    phase ends at 12. *)
Definition two_tasks : list LoopRow :=
  [ loop_event task_A "start" 0 0 0 0;
    loop_event test_task_0 "start" 0 0 0 0;
    loop_event task_A "start" 0 1 0 5;
    loop_event task_A "end" 0 1 0 10;
    loop_event task_A "start" 1 0 0 10;
    loop_event test_task_0 "end" 0 0 0 12;
    loop_event task_A "end" 1 0 0 20 ].

(** A trace whose tables all hold events, but not the ones the windows
    are read from: [rtapp_main] has a [clock_ref] event only, and task A
    has an end event and no start event in [rtapp_task] and in
    [rtapp_loop]. *)
Definition sparse_trace : Trace :=
  mkTrace [mkMark 0 "rt-app" 10 "clock_ref"]
    [mkMark 7 "A" 1 "end"]
    [loop_event task_A "end" 0 0 0 10]
    []
    [mkStats 3 "A" 1 20 100 60]
    (resolve_among [mkTaskID 10 "rt-app"; task_A]).

(** A trace with two [rtapp_stats] events of task A: slack 20 of a
    period of 100 with a run time of 60, and slack 1 of a period of 4
    with a run time of 1. *)
Definition stats_trace : Trace :=
  mkTrace [] [] [] []
    [mkStats 3 "A" 1 20 100 60; mkStats 4 "A" 1 1 4 1]
    (resolve_among [task_A]).

(** Two phases in a row on the float64 index; the timestamps are the
    binary64 numbers nearest to 0.001, 0.01, 0.01 and 0.02. *)
Definition rounded_events : list F64.LoopRow :=
  [ F64.mkLoop 0x1.0624dd2f1a9fcp-10 "start" 0 0;
    F64.mkLoop 0x1.47ae147ae147bp-7 "end" 0 0;
    F64.mkLoop 0x1.47ae147ae147bp-7 "start" 1 0;
    F64.mkLoop 0x1.47ae147ae147bp-6 "end" 1 0 ].

(** ** Vocabulary of the statements *)

(** The events behind [kept_marks], with all their columns. *)
Definition same_kept (a b : LoopRow) : bool :=
  same_mark (mark_of a) (mark_of b).

Definition kept_rows (loops_df : list LoopRow) : list LoopRow :=
  drop_duplicates_last same_kept loops_df.

(** The events [keep_first_start] leaves at 0. *)
Definition kept_as_start (r : LoopRow) : bool := keep_first_start r =? 0.

(** Consecutive labels taken two by two: (first, second - first). *)
Fixpoint pair_up (index : list Z) : list (Z * Z) :=
  match index with
  | x :: y :: rest => (x, y - x) :: pair_up rest
  | _ => []
  end.

(** start, end, start, end, ... *)
Fixpoint alternates (kinds : list string) : bool :=
  match kinds with
  | [] => true
  | s :: e :: rest =>
      (s =? "start")%string && (e =? "end")%string && alternates rest
  | _ => false
  end.

(** Labels in non-decreasing order. *)
Fixpoint non_decreasing (index : list Z) : bool :=
  match index with
  | x :: (y :: _) as rest => (x <=? y) && non_decreasing rest
  | _ => true
  end.

(** A valid sequence of events of one task: ordered by time, and the
    events [df_phases] keeps alternate between start and end. *)
Definition valid_events (loops_df : list LoopRow) : bool :=
  non_decreasing (map Time loops_df)
  && alternates (map event (kept_rows loops_df)).

(** The first start event of a phase, and an end event. *)
Definition is_first_start (r : LoopRow) : bool :=
  (event r =? "start")%string && (phase_loop r =? 0).

Definition is_end (r : LoopRow) : bool := (event r =? "end")%string.

Definition same_phase (a b : LoopRow) : bool := phase a =? phase b.

(** first start, end, first start, end, ... *)
Fixpoint well_paired (rows : list LoopRow) : bool :=
  match rows with
  | [] => true
  | s :: e :: rest => is_first_start s && is_end e && well_paired rest
  | _ => false
  end.

(** No phase has two first start events. *)
Fixpoint one_first_start_from (starts : list LoopRow) : bool :=
  match starts with
  | [] => true
  | r :: rest =>
      negb (existsb (same_phase r) rest) && one_first_start_from rest
  end.

Definition one_first_start (loops_df : list LoopRow) : bool :=
  one_first_start_from (filter is_first_start loops_df).

(** Among the end events of a phase the counters ([phase_loop], then
    [thread_loop]) grow with time. *)
Fixpoint ends_grow (loops_df : list LoopRow) : bool :=
  match loops_df with
  | [] => true
  | a :: rest =>
      forallb (fun b => implb (is_end a && is_end b && same_phase a b)
                          (counters_desc b a)) rest
      && ends_grow rest
  end.

(** The classes of the exceptions the methods raise themselves or let
    pandas raise. *)
Definition own_errors : list string :=
  ["ValueError"; "IndexError"; "KeyError"; "UnboundLocalError"]%string.

(** What a call may raise: one of these, or what [trace.get_task_id]
    raises. *)
Definition raises_only {A} (self : Trace) (m : PyResult A) : Prop :=
  forall e, m = Raise e ->
    In e own_errors \/ exists task, get_task_id self task = Raise e.

(** Every table of the trace holds events. *)
Definition events_present (self : Trace) : Prop :=
  rtapp_main self <> [] /\ rtapp_task self <> []
  /\ rtapp_loop self <> [] /\ rtapp_stats self <> [].



(** * Properties *)

(** ** Results and lists *)

Lemma bind_Ok_inv {A B} (m : PyResult A) (k : A -> PyResult B) (b : B) :
  (x <- m ;; k x) = Ok b -> exists a, m = Ok a /\ k a = Ok b.
Proof.
  destruct m as [a | e]; simpl; intros H.
  - exists a. split; [reflexivity | exact H].
  - discriminate H.
Qed.

(** Induction that takes the elements of a list two by two. *)
Lemma list_pair_ind {A} (P : list A -> Prop) :
  P [] -> (forall x, P [x]) -> (forall x y l, P l -> P (x :: y :: l)) ->
  forall l, P l.
Proof.
  intros H0 H1 H2.
  assert (both : forall l, P l /\ forall x, P (x :: l)).
  { induction l as [| y l [IHl IHx]].
    - split; [exact H0 | exact H1].
    - split; [apply IHx | intros x; apply H2; exact IHl]. }
  intros l. apply both.
Qed.

Lemma index_deltas_cons2 (x y : Z) (rest : list Z) :
  index_deltas (x :: y :: rest) = (y - x) :: index_deltas (y :: rest).
Proof. reflexivity. Qed.

Lemma step2_index_deltas (index : list Z) :
  step2 (index_deltas index) = map snd (pair_up index).
Proof.
  induction index as [| x | x y rest IH] using list_pair_ind;
    try reflexivity.
  destruct rest as [| z rest'].
  - reflexivity.
  - rewrite index_deltas_cons2, index_deltas_cons2. simpl step2.
    simpl pair_up. simpl map. f_equal. exact IH.
Qed.




Lemma length_pair_up (index : list Z) :
  length (pair_up index) = Nat.div2 (length index).
Proof.
  induction index as [| x | x y rest IH] using list_pair_ind;
    try reflexivity.
  simpl length. rewrite IH. reflexivity.
Qed.

Lemma length_pair_up_step2 {A} (label : A -> Z) (l : list A) :
  Nat.eqb (length (pair_up (map label l))) (length (step2 l))
  = Nat.even (length l).
Proof.
  induction l as [| x | x y rest IH] using list_pair_ind;
    try reflexivity.
  exact IH.
Qed.

Lemma combine_step2_pair_up (marks : list PhaseMark) :
  Nat.even (length marks) = true ->
  map (fun r : Z * Z * Z => (fst (fst r), snd r))
    (combine (map (fun r : PhaseMark => (fst r, fst (snd r))) (step2 marks))
       (map snd (pair_up (map fst marks))))
  = pair_up (map fst marks).
Proof.
  induction marks as [| x | x y rest IH] using list_pair_ind;
    intros Hev; try reflexivity.
  simpl. f_equal. apply IH. exact Hev.
Qed.

(** What [df_phases] computes from the events it keeps: the labels
    paired two by two when their number is even, the length error of the
    column assignment when it is odd. *)
Lemma df_phases_of_loops_eq (loops_df : list LoopRow) :
  df_phases_of_loops loops_df
  = if Nat.even (length (kept_marks loops_df))
    then Ok (pair_up (map fst (kept_marks loops_df)))
    else Raise "ValueError".
Proof.
  unfold df_phases_of_loops, set_column.
  rewrite step2_index_deltas.
  rewrite !length_map.
  rewrite (length_pair_up_step2 fst).
  destruct (Nat.even (length (kept_marks loops_df))) eqn:Hev.
  - simpl. rewrite combine_step2_pair_up by exact Hev. reflexivity.
  - reflexivity.
Qed.

(** ** The events [df_phases] keeps *)

Lemma existsb_map_compose {A B} (f : A -> B) (p : B -> bool) (l : list A) :
  existsb p (map f l) = existsb (fun a => p (f a)) l.
Proof.
  induction l as [| x rest IH]; simpl; [reflexivity | now rewrite IH].
Qed.

Lemma drop_duplicates_last_map {A B} (f : A -> B) (same : B -> B -> bool)
  (l : list A) :
  drop_duplicates_last same (map f l)
  = map f (drop_duplicates_last (fun a b => same (f a) (f b)) l).
Proof.
  induction l as [| x rest IH]; simpl.
  - reflexivity.
  - rewrite existsb_map_compose, IH.
    destruct (existsb (fun b => same (f x) (f b)) rest); reflexivity.
Qed.

Lemma kept_marks_rows (loops_df : list LoopRow) :
  kept_marks loops_df = map mark_of (kept_rows loops_df).
Proof.
  unfold kept_marks, kept_rows. apply (drop_duplicates_last_map mark_of).
Qed.

Lemma drop_duplicates_last_In {A} (same : A -> A -> bool) (l : list A) (x : A) :
  In x (drop_duplicates_last same l) -> In x l.
Proof.
  induction l as [| y rest IH]; simpl.
  - exact (fun H => H).
  - destruct (existsb (same y) rest); simpl; intuition.
Qed.

(** A row is kept exactly when it is the last one of its ([phase],
    rewritten [phase_loop]) pair. *)
Lemma drop_duplicates_last_split {A} (same : A -> A -> bool) (l : list A)
  (x : A) :
  In x (drop_duplicates_last same l) <->
  exists before after,
    l = before ++ x :: after /\ existsb (same x) after = false.
Proof.
  induction l as [| y rest IH]; simpl.
  - split; [intros [] | intros (b & a & H & _); destruct b; discriminate H].
  - destruct (existsb (same y) rest) eqn:Hdup.
    + rewrite IH. split.
      * intros (b & a & -> & Ha). exists (y :: b), a. auto.
      * intros (b & a & H & Ha). destruct b as [| y' b]; simpl in H.
        -- injection H as -> ->. congruence.
        -- injection H as -> ->. exists b, a. auto.
    + simpl. rewrite IH. split.
      * intros [-> | (b & a & -> & Ha)].
        -- exists [], rest. auto.
        -- exists (y :: b), a. auto.
      * intros (b & a & H & Ha). destruct b as [| y' b]; simpl in H.
        -- injection H as -> ->. left. reflexivity.
        -- injection H as -> ->. right. exists b, a. auto.
Qed.

Lemma StronglySorted_drop_duplicates_last {A B} (R : B -> B -> Prop)
  (label : A -> B) (same : A -> A -> bool) (l : list A) :
  StronglySorted R (map label l) ->
  StronglySorted R (map label (drop_duplicates_last same l)).
Proof.
  induction l as [| x rest IH]; simpl; intros Hs.
  - constructor.
  - inversion Hs as [| ? ? Hrest Hall]; subst.
    destruct (existsb (same x) rest); simpl.
    + apply IH. exact Hrest.
    + constructor.
      * apply IH. exact Hrest.
      * rewrite Forall_forall in *. intros t Ht.
        apply in_map_iff in Ht. destruct Ht as (r & <- & Hr).
        apply Hall. apply in_map. eapply drop_duplicates_last_In. exact Hr.
Qed.

Lemma non_decreasing_StronglySorted (index : list Z) :
  non_decreasing index = true -> StronglySorted Z.le index.
Proof.
  induction index as [| x rest IH]; intros H.
  - constructor.
  - destruct rest as [| y rest'].
    + repeat constructor.
    + simpl in H. apply andb_prop in H. destruct H as [Hxy Hrest].
      apply Z.leb_le in Hxy. specialize (IH Hrest).
      constructor; [exact IH |].
      inversion IH as [| ? ? _ Hall]; subst.
      constructor; [exact Hxy |].
      eapply Forall_impl; [| exact Hall]. intros; lia.
Qed.

Lemma kept_marks_sorted (loops_df : list LoopRow) :
  non_decreasing (map Time loops_df) = true ->
  StronglySorted Z.le (map fst (kept_marks loops_df)).
Proof.
  intros H. rewrite kept_marks_rows, map_map.
  change (fun x => fst (mark_of x)) with Time.
  apply StronglySorted_drop_duplicates_last.
  apply non_decreasing_StronglySorted. exact H.
Qed.

Lemma alternates_even (kinds : list string) :
  alternates kinds = true -> Nat.even (length kinds) = true.
Proof.
  induction kinds as [| x | x y rest IH] using list_pair_ind; simpl.
  - reflexivity.
  - discriminate.
  - intros H. apply andb_prop in H. apply IH, H.
Qed.

(** ** The windows of a phase table *)

Lemma enumerate_from_nth {A} (l : list A) (k : Z) (i : nat) (ip : Z * A) :
  nth_error (enumerate_from k l) i = Some ip -> fst ip = k + Z.of_nat i.
Proof.
  revert k i. induction l as [| x rest IH]; intros k i H.
  - destruct i; discriminate H.
  - destruct i as [| i]; simpl in H.
    + injection H as <-. simpl. lia.
    + apply IH in H. lia.
Qed.

Lemma length_enumerate_from {A} (l : list A) (k : Z) :
  length (enumerate_from k l) = length l.
Proof.
  revert k. induction l as [| x rest IH]; intros k; simpl; auto.
Qed.

Lemma df_phases_eq (self : Trace) (task : TaskArg) (loops_df : list LoopRow) :
  df_rtapp_loop self task = Ok loops_df ->
  df_phases self task
  = if Nat.even (length (kept_rows loops_df))
    then Ok (pair_up (map Time (kept_rows loops_df)))
    else Raise "ValueError".
Proof.
  intros Hloops. unfold df_phases. rewrite Hloops. simpl.
  rewrite df_phases_of_loops_eq, kept_marks_rows, length_map, map_map.
  reflexivity.
Qed.

(** ** Claims on [df_phases] *)

(** C1 (the code departs from it): [df_phases] is meant to keep, for
    every phase, the first start event with [phase_loop = 0] and the last
    end event. On a phase run in two iterations of the thread loop it
    keeps the LAST start event with [phase_loop = 0]: the table is
    [(20, 10)], and the first start, at time 0, opens no row. *)
Theorem df_phases_keeps_last_start :
  kept_rows (two_thread_loops task_A)
  = [ loop_event task_A "start" 0 0 1 20; loop_event task_A "end" 0 0 1 30 ]
  /\ df_phases (loop_trace (two_thread_loops task_A)) (TaskTID task_A)
     = Ok [(20, 10)]
  /\ hd_error (filter (fun r => (event r =? "start")%string
                                && (phase_loop r =? 0))
                 (two_thread_loops task_A))
     = Some (loop_event task_A "start" 0 0 0 0).
Proof. repeat split. Qed.

(** C2, as the code has it: [df_phases] never looks at the kind of the
    events it keeps. It fails, with the [ValueError] of the column
    assignment, exactly when their number is odd; when it is even they
    are paired two by two, whatever their kinds. *)
Theorem df_phases_fails_on_odd_count (self : Trace) (task : TaskArg)
  (loops_df : list LoopRow) :
  df_rtapp_loop self task = Ok loops_df ->
  loops_df <> [] ->
  (df_phases self task = Raise "ValueError"
   <-> Nat.even (length (kept_rows loops_df)) = false)
  /\ (Nat.even (length (kept_rows loops_df)) = true ->
      df_phases self task = Ok (pair_up (map Time (kept_rows loops_df)))).
Proof.
  intros Hloops _. rewrite (df_phases_eq _ _ _ Hloops).
  destruct (Nat.even (length (kept_rows loops_df))); split;
    try split; intros; try reflexivity; discriminate.
Qed.

Lemma df_phases_fails_on_odd_count_witness :
  (df_phases (loop_trace [loop_event task_A "start" 0 0 0 0]) (TaskTID task_A)
   = Raise "ValueError"
   <-> Nat.even (length (kept_rows [loop_event task_A "start" 0 0 0 0]))
       = false)
  /\ (Nat.even (length (kept_rows [loop_event task_A "start" 0 0 0 0])) = true ->
      df_phases (loop_trace [loop_event task_A "start" 0 0 0 0]) (TaskTID task_A)
      = Ok (pair_up (map Time (kept_rows [loop_event task_A "start" 0 0 0 0])))).
Proof.
  apply (df_phases_fails_on_odd_count
           (loop_trace [loop_event task_A "start" 0 0 0 0]) (TaskTID task_A)).
  - reflexivity.
  - discriminate.
Defined.

(** C2, refuted as stated: two consecutive starts with no end between
    them are kept as they are and paired into the one-row table
    [(0, 5)]. *)
Lemma df_phases_pairs_two_starts :
  map event (kept_rows (two_starts task_A)) = ["start"; "start"]%string
  /\ alternates (map event (kept_rows (two_starts task_A))) = false
  /\ df_phases (loop_trace (two_starts task_A)) (TaskTID task_A)
     = Ok [(0, 5)].
Proof. repeat split. Qed.

(** ** Binary64 arithmetic on timestamps *)

(** Two facts of float64 arithmetic, for finite timestamps [s <= e]:
    the difference [e - s] is not negative, and adding a non-negative
    number to [s] gives at least [s]. They are proved from the
    specification of the operations ([SpecFloat]), which the primitive
    floats obey: a sum or a difference is computed exactly on the
    aligned mantissas and then rounded to nearest, by a right shift of
    the mantissa. *)

(** *** The number of digits of a mantissa *)

Lemma digits2_pos_size (m : positive) : digits2_pos m = Pos.size m.
Proof. induction m as [m IH | m IH |]; simpl; congruence. Qed.

Lemma digits2_pos_log2 (m : positive) :
  Zpos (digits2_pos m) = Z.log2 (Zpos m) + 1.
Proof.
  rewrite digits2_pos_size. destruct m as [m | m |]; simpl; try reflexivity;
    rewrite Pos.add_1_r; reflexivity.
Qed.

Lemma digits2_pos_bounds (m : positive) :
  2 ^ (Zpos (digits2_pos m) - 1) <= Zpos m < 2 ^ Zpos (digits2_pos m).
Proof.
  rewrite digits2_pos_log2.
  pose proof (Z.log2_spec (Zpos m) eq_refl) as H.
  replace (Z.log2 (Z.pos m) + 1 - 1) with (Z.log2 (Z.pos m)) by lia.
  replace (Z.log2 (Z.pos m) + 1) with (Z.succ (Z.log2 (Z.pos m))) by lia.
  exact H.
Qed.

Lemma digits2_pos_le (m m' : positive) :
  Zpos m <= Zpos m' -> Zpos (digits2_pos m) <= Zpos (digits2_pos m').
Proof.
  intros H. rewrite !digits2_pos_log2.
  pose proof (Z.log2_le_mono _ _ H). lia.
Qed.

Lemma digits2_pos_shift (m p : positive) (k : Z) :
  0 <= k -> Zpos m * 2 ^ k <= Zpos p ->
  Zpos (digits2_pos m) + k <= Zpos (digits2_pos p).
Proof.
  intros Hk H. rewrite !digits2_pos_log2.
  pose proof (Z.log2_le_mono _ _ H) as Hl.
  rewrite Z.log2_mul_pow2 in Hl by lia. lia.
Qed.

(** *** Shifts and rounding *)

(** A right shift by one digit halves the mantissa, a shift by [n]
    digits divides it by [2 ^ n]. *)
Lemma shr_1_m (mrs : shr_record) :
  0 <= shr_m mrs -> shr_m (shr_1 mrs) = shr_m mrs / 2.
Proof.
  destruct mrs as [m r s]. simpl. intros Hm. rewrite <- Z.div2_div.
  destruct m as [| [p | p |] | p]; try reflexivity. lia.
Qed.

Lemma iter_pos_shr_1_m (n : positive) (mrs : shr_record) :
  0 <= shr_m mrs ->
  shr_m (SpecFloat.iter_pos shr_1 n mrs) = shr_m mrs / 2 ^ Zpos n.
Proof.
  revert mrs.
  induction n as [n IH | n IH |]; intros mrs Hm; simpl SpecFloat.iter_pos.
  - assert (H1 : 0 <= shr_m (shr_1 mrs)).
    { rewrite shr_1_m by exact Hm. apply Z.div_pos; lia. }
    assert (H2 : 0 <= shr_m (SpecFloat.iter_pos shr_1 n (shr_1 mrs))).
    { rewrite IH by exact H1. apply Z.div_pos; [exact H1 |].
      apply Z.pow_pos_nonneg; lia. }
    rewrite IH by exact H2. rewrite IH by exact H1. rewrite shr_1_m by exact Hm.
    assert (Hp : 0 < 2 ^ Zpos n) by (apply Z.pow_pos_nonneg; lia).
    rewrite !Z.div_div by lia. f_equal.
    replace (Zpos n~1) with (1 + (Zpos n + Zpos n)) by lia.
    rewrite Z.pow_add_r, Z.pow_add_r by lia. lia.
  - assert (H2 : 0 <= shr_m (SpecFloat.iter_pos shr_1 n mrs)).
    { rewrite IH by exact Hm. apply Z.div_pos; [exact Hm |].
      apply Z.pow_pos_nonneg; lia. }
    rewrite IH by exact H2. rewrite IH by exact Hm.
    assert (Hp : 0 < 2 ^ Zpos n) by (apply Z.pow_pos_nonneg; lia).
    rewrite Z.div_div by lia. f_equal.
    replace (Zpos n~0) with (Zpos n + Zpos n) by lia.
    rewrite Z.pow_add_r by lia. reflexivity.
  - rewrite shr_1_m by exact Hm. reflexivity.
Qed.

Lemma shr_spec (mrs : shr_record) (e n : Z) :
  0 <= shr_m mrs ->
  shr_m (fst (shr mrs e n)) = shr_m mrs / 2 ^ Z.max n 0
  /\ snd (shr mrs e n) = e + Z.max n 0.
Proof.
  intros Hm. destruct n as [| n | n]; simpl.
  - rewrite Z.div_1_r. lia.
  - rewrite iter_pos_shr_1_m by exact Hm. split; [reflexivity | lia].
  - rewrite Z.div_1_r. lia.
Qed.

Lemma shr_record_of_loc_m (m : Z) (l : location) :
  shr_m (shr_record_of_loc m l) = m.
Proof. destruct l as [| []]; reflexivity. Qed.

Lemma shr_fexp_spec (m e : Z) (l : location) :
  0 <= m ->
  let n := Z.max (fexp prec emax (Zdigits2 m + e) - e) 0 in
  shr_m (fst (shr_fexp prec emax m e l)) = m / 2 ^ n
  /\ snd (shr_fexp prec emax m e l) = e + n.
Proof.
  intros Hm n. unfold shr_fexp.
  pose proof (shr_spec (shr_record_of_loc m l) e
                (fexp prec emax (Zdigits2 m + e) - e)) as H.
  rewrite shr_record_of_loc_m in H. apply H. exact Hm.
Qed.

Lemma round_nearest_even_bounds (m : Z) (l : location) :
  m <= round_nearest_even m l <= m + 1.
Proof.
  destruct l as [| []]; simpl; try lia. destruct (Z.even m); lia.
Qed.

Lemma fexp_eq (e : Z) : fexp prec emax e = Z.max (e - 53) (-1074).
Proof. reflexivity. Qed.

(** The shift to the canonical exponent leaves a mantissa that is not
    zero. *)
Lemma shr_fexp_pos (m e : Z) (l : location) :
  1 <= m -> -1074 <= e -> 1 <= shr_m (fst (shr_fexp prec emax m e l)).
Proof.
  intros Hm He.
  destruct (shr_fexp_spec m e l ltac:(lia)) as [-> _].
  rewrite fexp_eq. destruct m as [| p | p]; try lia. simpl Zdigits2.
  pose proof (digits2_pos_bounds p) as [Hlo _].
  set (d := Zpos (digits2_pos p)) in *.
  apply Z.div_le_lower_bound; [apply Z.pow_pos_nonneg; lia |].
  rewrite Z.mul_1_r.
  eapply Z.le_trans; [| exact Hlo].
  apply Z.pow_le_mono_r; lia.
Qed.

(** Rounding does not go below a float64 that the rounded number is not
    below: for a float64 [mx * 2 ^ ex] and an integer [p] with
    [mx * 2 ^ ex <= p * 2 ^ ez], the rounded [p * 2 ^ ez] is at least
    [mx * 2 ^ ex]. *)
Lemma binary_round_aux_ge (mx : positive) (ex : Z) (p : positive) (ez : Z) :
  bounded prec emax mx ex = true ->
  -1074 <= ez <= ex ->
  ex <= fexp prec emax (Zpos (digits2_pos p) + ez) ->
  Zpos mx * 2 ^ (ex - ez) <= Zpos p ->
  SFleb (S754_finite false mx ex)
    (binary_round_aux prec emax false (Zpos p) ez loc_Exact) = true.
Proof.
  intros Hb Hez Hf1 Hp.
  unfold binary_round_aux.
  pose proof (shr_fexp_spec (Zpos p) ez loc_Exact ltac:(lia)) as [Hm1 He1].
  pose proof (shr_fexp_pos (Zpos p) ez loc_Exact ltac:(lia) ltac:(lia)) as Hpos1.
  destruct (shr_fexp prec emax (Zpos p) ez loc_Exact) as [mrs1 e1].
  simpl fst in *. simpl snd in *. simpl Zdigits2 in *.
  set (m1 := shr_m mrs1) in *.
  pose proof (round_nearest_even_bounds m1 (loc_of_shr_record mrs1)) as Hr.
  set (m1r := round_nearest_even m1 (loc_of_shr_record mrs1)) in *.
  assert (He1' : -1074 <= e1) by lia.
  pose proof (shr_fexp_spec m1r e1 loc_Exact ltac:(lia)) as [Hm2 He2].
  pose proof (shr_fexp_pos m1r e1 loc_Exact ltac:(lia) He1') as Hpos2.
  destruct (shr_fexp prec emax m1r e1 loc_Exact) as [mrs2 e2].
  simpl fst in *. simpl snd in *.
  destruct (shr_m mrs2) as [| m2 | m2] eqn:Em2; try lia.
  destruct (e2 <=? emax - prec); [| reflexivity].
  unfold SFleb, SFcompare.
  destruct (Z.compare_spec ex e2) as [Heq | Hlt | Hgt]; try reflexivity.
  - (* same exponent: no second shift, mantissa not below *)
    assert (Hn2 : Z.max (fexp prec emax (Zdigits2 m1r + e1) - e1) 0 = 0) by lia.
    assert (Hn1 : Z.max (fexp prec emax (Z.pos (digits2_pos p) + ez) - ez) 0
                  = ex - ez) by lia.
    rewrite Hn2, Z.div_1_r in Hm2. rewrite Hn1 in Hm1.
    assert (Hge : Zpos mx <= m1).
    { rewrite Hm1. apply Z.div_le_lower_bound; [apply Z.pow_pos_nonneg; lia |].
      lia. }
    change (Pos.compare_cont Eq mx m2) with (Pos.compare mx m2).
    destruct (Pos.compare_spec mx m2) as [? | ? | Hgt]; try reflexivity. lia.
  - lia.
Qed.

Lemma shl_align_value (m : positive) (e e' : Z) :
  e' <= e -> Zpos (fst (shl_align m e e')) = Zpos m * 2 ^ (e - e').
Proof.
  intros Hle. unfold shl_align.
  destruct (e' - e) as [| k | k] eqn:Hk; try lia; simpl fst.
  - replace (e - e') with 0 by lia. lia.
  - replace (e - e') with (Zpos k) by lia.
    change (Pos.iter xO m k) with (shift_pos k m).
    rewrite shift_pos_correct.
    change (Z.pow_pos 2 k) with (2 ^ Zpos k). lia.
Qed.

Lemma shl_align_noop (m : positive) (e e' : Z) :
  e <= e' -> shl_align m e e' = (m, e).
Proof.
  intros Hle. unfold shl_align.
  destruct (e' - e) as [| k | k] eqn:Hk; try reflexivity. lia.
Qed.

Lemma bounded_exponent (m : positive) (e : Z) :
  bounded prec emax m e = true ->
  -1074 <= e <= 971 /\ Zpos (digits2_pos m) <= 53
  /\ (-1074 < e -> Zpos (digits2_pos m) = 53)
  /\ fexp prec emax (Zpos (digits2_pos m) + e) = e.
Proof.
  unfold bounded, canonical_mantissa. intros H.
  apply andb_prop in H. destruct H as [H H']. apply Z.eqb_eq in H.
  apply Z.leb_le in H'. change (emax - prec) with 971 in H'.
  split; [| split; [| split; [| exact H]]]; rewrite fexp_eq in H; lia.
Qed.

Lemma SFleb_refl_finite (s : bool) (m : positive) (e : Z) :
  SFleb (S754_finite s m e) (S754_finite s m e) = true.
Proof.
  unfold SFleb, SFcompare. rewrite Z.compare_refl.
  change (Pos.compare_cont Eq m m) with (Pos.compare m m).
  rewrite Pos.compare_refl. destruct s; reflexivity.
Qed.

Lemma SFleb_neg_swap (mx my : positive) (ex ey : Z) :
  SFleb (S754_finite true mx ex) (S754_finite true my ey)
  = SFleb (S754_finite false my ey) (S754_finite false mx ex).
Proof.
  unfold SFleb, SFcompare.
  change (Pos.compare_cont Eq mx my) with (Pos.compare mx my).
  change (Pos.compare_cont Eq my mx) with (Pos.compare my mx).
  rewrite (Z.compare_antisym ex ey), (Pos.compare_antisym mx my).
  destruct (ex ?= ey); simpl; try reflexivity.
  all: destruct (my ?= mx)%positive; reflexivity.
Qed.

Lemma SFleb_neg_nonneg (m : positive) (e : Z) (r : spec_float) :
  SFleb (S754_zero false) r = true -> SFleb (S754_finite true m e) r = true.
Proof.
  destruct r as [s | [|] | | [|] m' e']; try discriminate; reflexivity.
Qed.

Lemma Zdigits2_le_54 (m : Z) : 0 <= m <= 2 ^ 53 -> Zdigits2 m <= 54.
Proof.
  intros [H0 H1]. destruct m as [| p | p]; simpl; try lia.
  rewrite digits2_pos_log2.
  pose proof (Z.log2_le_mono _ _ H1) as Hl.
  rewrite Z.log2_pow2 in Hl by lia. lia.
Qed.

Lemma Zdigits2_mono (m : Z) (p : positive) :
  0 <= m <= Zpos p -> Zdigits2 m <= Zpos (digits2_pos p).
Proof.
  intros [H0 H1]. destruct m as [| q | q]; simpl; try lia.
  apply digits2_pos_le. exact H1.
Qed.

(** Rounding does not go above a float64 that the rounded number is
    below: for a float64 [mx * 2 ^ ex] and an integer [mz] with
    [mz * 2 ^ e0 < mx * 2 ^ ex], the rounded [mz * 2 ^ e0] is at most
    [mx * 2 ^ ex]. *)
Lemma binary_round_aux_le (s : bool) (mx : positive) (ex : Z) (mz : positive)
  (e0 : Z) :
  bounded prec emax mx ex = true ->
  -1074 <= e0 ->
  e0 <= fexp prec emax (Zpos (digits2_pos mz) + e0) <= ex ->
  Zpos mz < Zpos mx * 2 ^ (ex - e0) ->
  match binary_round_aux prec emax s (Zpos mz) e0 loc_Exact with
  | S754_zero s' => s' = s
  | S754_finite s' m e =>
      s' = s /\ (e < ex \/ (e = ex /\ Zpos m <= Zpos mx))
  | _ => False
  end.
Proof.
  intros Hb He0 Hf Hlt.
  destruct (bounded_exponent _ _ Hb) as (Hex & Hdx & Hnorm & Hcan).
  unfold binary_round_aux.
  pose proof (shr_fexp_spec (Zpos mz) e0 loc_Exact ltac:(lia)) as [Hm1 He1].
  destruct (shr_fexp prec emax (Zpos mz) e0 loc_Exact) as [mrs1 e1].
  simpl fst in *. simpl snd in *. simpl Zdigits2 in *.
  set (f := fexp prec emax (Zpos (digits2_pos mz) + e0)) in *.
  replace (Z.max (f - e0) 0) with (f - e0) in * by lia.
  assert (He1' : e1 = f) by lia. clear He1.
  set (m1 := shr_m mrs1) in *.
  pose proof (digits2_pos_bounds mz) as [_ Hmz].
  assert (Hpow : 0 < 2 ^ (f - e0)) by (apply Z.pow_pos_nonneg; lia).
  assert (Hm1nn : 0 <= m1) by (rewrite Hm1; apply Z.div_pos; lia).
  assert (Hm1lt : m1 < 2 ^ 53).
  { rewrite Hm1. apply Z.div_lt_upper_bound; [exact Hpow |].
    rewrite <- Z.pow_add_r by lia.
    eapply Z.lt_le_trans; [exact Hmz |].
    apply Z.pow_le_mono_r; [lia |]. unfold f. rewrite fexp_eq. lia. }
  pose proof (round_nearest_even_bounds m1 (loc_of_shr_record mrs1)) as Hr.
  set (m1r := round_nearest_even m1 (loc_of_shr_record mrs1)) in *.
  pose proof (shr_fexp_spec m1r e1 loc_Exact ltac:(lia)) as [Hm2 He2].
  destruct (shr_fexp prec emax m1r e1 loc_Exact) as [mrs2 e2].
  simpl fst in *. simpl snd in *.
  pose proof (Zdigits2_le_54 m1r ltac:(lia)) as Hd54.
  set (n2 := Z.max (fexp prec emax (Zdigits2 m1r + e1) - e1) 0) in *.
  assert (Hn2 : 0 <= n2 <= 1) by (unfold n2; rewrite fexp_eq in *; lia).
  assert (Hm2nn : 0 <= shr_m mrs2).
  { rewrite Hm2. apply Z.div_pos; [lia |]. apply Z.pow_pos_nonneg; lia. }
  assert (Hgoal : e2 < ex \/ (e2 = ex /\ shr_m mrs2 <= Zpos mx)).
  { destruct (Z.lt_ge_cases f ex) as [Hlow | Hhigh].
    - (* the canonical exponent is below that of the bound *)
      destruct (Z.eq_dec n2 0) as [E0 | E1]; [left; lia |].
      assert (n2 = 1) by lia.
      destruct (Z.eq_dec e2 ex) as [E | E]; [| left; lia].
      right. split; [exact E |].
      pose proof (digits2_pos_bounds mx) as [Hmx _].
      rewrite (Hnorm ltac:(unfold f in *; rewrite fexp_eq in *; lia)) in Hmx.
      change (2 ^ (53 - 1)) with 4503599627370496 in Hmx.
      rewrite Hm2. replace n2 with 1 by lia. change (2 ^ 1) with 2.
      change (2 ^ 53) with 9007199254740992 in *.
      assert (m1r / 2 <= 4503599627370496).
      { apply Z.div_le_upper_bound; lia. }
      lia.
    - (* the same canonical exponent *)
      assert (Hfe : f = ex) by lia.
      assert (Hm1le : m1 <= Zpos mx - 1).
      { rewrite Hm1, Hfe.
        assert (Hq : Z.pos mz / 2 ^ (ex - e0) < Zpos mx).
        { apply Z.div_lt_upper_bound; [rewrite <- Hfe; exact Hpow |]. lia. }
        lia. }
      pose proof (Zdigits2_mono m1r mx ltac:(lia)) as Hdm.
      assert (E0 : n2 = 0).
      { unfold n2. rewrite fexp_eq in *. rewrite He1', Hfe in *. lia. }
      right. split; [lia |].
      rewrite Hm2, E0, Z.div_1_r. lia. }
  destruct (shr_m mrs2) as [| m2 | m2]; [reflexivity | | lia].
  assert (Hfit : (e2 <=? emax - prec) = true).
  { apply Z.leb_le. change (emax - prec) with 971. lia. }
  rewrite Hfit. split; [reflexivity | exact Hgoal].
Qed.

Lemma binary_round_le (s : bool) (mx : positive) (ex : Z) (p : positive)
  (ez : Z) :
  bounded prec emax mx ex = true ->
  -1074 <= ez <= ex ->
  Zpos p < Zpos mx * 2 ^ (ex - ez) ->
  match binary_round prec emax s p ez with
  | S754_zero s' => s' = s
  | S754_finite s' m e =>
      s' = s /\ (e < ex \/ (e = ex /\ Zpos m <= Zpos mx))
  | _ => False
  end.
Proof.
  intros Hb Hez Hlt.
  destruct (bounded_exponent _ _ Hb) as (Hex & Hdx & Hnorm & Hcan).
  unfold binary_round.
  set (f0 := fexp prec emax (Zpos (digits2_pos p) + ez)).
  assert (Hdig : Zpos (digits2_pos p) <= Zpos (digits2_pos mx) + (ex - ez)).
  { rewrite !digits2_pos_log2.
    assert (Hle : Zpos p <= Zpos mx * 2 ^ (ex - ez)) by lia.
    pose proof (Z.log2_le_mono _ _ Hle) as Hl.
    rewrite Z.log2_mul_pow2 in Hl by lia. lia. }
  assert (Hf0 : -1074 <= f0 <= ex).
  { unfold f0. rewrite fexp_eq in *. lia. }
  destruct (Z.lt_ge_cases f0 ez) as [Hshift | Hnoshift].
  - (* the mantissa is first shifted to the left *)
    pose proof (shl_align_value p ez f0 ltac:(lia)) as Hv.
    assert (Hsnd : snd (shl_align p ez f0) = f0).
    { unfold shl_align. destruct (f0 - ez) eqn:E; try lia. reflexivity. }
    destruct (shl_align p ez f0) as [mz e0]. cbn [fst snd] in Hv, Hsnd. subst e0.
    assert (Hdz : Zpos (digits2_pos mz) = Zpos (digits2_pos p) + (ez - f0)).
    { rewrite !digits2_pos_log2, Hv, Z.log2_mul_pow2 by lia. lia. }
    apply binary_round_aux_le; try assumption; try lia.
    + rewrite Hdz. replace (Z.pos (digits2_pos p) + (ez - f0) + f0)
        with (Z.pos (digits2_pos p) + ez) by lia.
      fold f0. lia.
    + rewrite Hv.
      replace (ex - f0) with ((ex - ez) + (ez - f0)) by lia.
      rewrite Z.pow_add_r by lia.
      assert (0 < 2 ^ (ez - f0)) by (apply Z.pow_pos_nonneg; lia).
      nia.
  - rewrite shl_align_noop by lia.
    apply binary_round_aux_le; try assumption; lia.
Qed.

Lemma binary_round_nonneg (p : positive) (e : Z) :
  SFleb (S754_zero false) (binary_round prec emax false p e) = true.
Proof.
  unfold binary_round.
  destruct (shl_align p e (fexp prec emax (Zpos (digits2_pos p) + e)))
    as [mz ez].
  unfold binary_round_aux.
  pose proof (shr_fexp_spec (Zpos mz) ez loc_Exact ltac:(lia)) as [Hm1 _].
  destruct (shr_fexp prec emax (Zpos mz) ez loc_Exact) as [mrs1 e1].
  simpl fst in *.
  assert (H1 : 0 <= shr_m mrs1).
  { rewrite Hm1. apply Z.div_pos; [lia |]. apply Z.pow_pos_nonneg; lia. }
  pose proof (round_nearest_even_bounds (shr_m mrs1) (loc_of_shr_record mrs1))
    as Hr.
  set (m1r := round_nearest_even (shr_m mrs1) (loc_of_shr_record mrs1)) in *.
  pose proof (shr_fexp_spec m1r e1 loc_Exact ltac:(lia)) as [Hm2 _].
  destruct (shr_fexp prec emax m1r e1 loc_Exact) as [mrs2 e2].
  simpl fst in *.
  assert (H2 : 0 <= shr_m mrs2).
  { rewrite Hm2. apply Z.div_pos; [lia |]. apply Z.pow_pos_nonneg; lia. }
  destruct (shr_m mrs2) as [| m2 | m2]; try reflexivity; try lia.
  destruct (e2 <=? emax - prec); reflexivity.
Qed.

(** The order of two positive float64 is the order of their mantissas
    once aligned on the smaller exponent. *)
Lemma aligned_le (mx my : positive) (ex ey : Z) :
  bounded prec emax mx ex = true -> bounded prec emax my ey = true ->
  SFleb (S754_finite false mx ex) (S754_finite false my ey) = true ->
  Zpos mx * 2 ^ (ex - Z.min ey ex) <= Zpos my * 2 ^ (ey - Z.min ey ex).
Proof.
  intros Hx Hy Hle.
  destruct (bounded_exponent _ _ Hx) as (Hex & Hdx & _).
  destruct (bounded_exponent _ _ Hy) as (Hey & _ & Hdy & _).
  unfold SFleb, SFcompare in Hle.
  destruct (Z.compare_spec ex ey) as [Heq | Hlt | Hgt]; try discriminate Hle.
  - subst ey. rewrite Z.min_id, Z.sub_diag. simpl.
    change (Pos.compare_cont Eq mx my) with (Pos.compare mx my) in Hle.
    destruct (Pos.compare_spec mx my); try discriminate Hle; lia.
  - replace (Z.min ey ex) with ex by lia. rewrite Z.sub_diag.
    pose proof (digits2_pos_bounds mx) as [_ Hmx].
    pose proof (digits2_pos_bounds my) as [Hmy _].
    rewrite (Hdy ltac:(lia)) in Hmy.
    assert (Hmx' : Zpos mx < 2 ^ 53).
    { eapply Z.lt_le_trans; [exact Hmx |]. apply Z.pow_le_mono_r; lia. }
    assert (Hk : 2 ^ 1 <= 2 ^ (ey - ex)) by (apply Z.pow_le_mono_r; lia).
    change (2 ^ (53 - 1)) with 4503599627370496 in Hmy.
    change (2 ^ 53) with 9007199254740992 in Hmx'.
    change (2 ^ 1) with 2 in Hk. change (2 ^ 0) with 1. nia.
Qed.

(** *** Sums and differences of timestamps *)

Lemma SF64add_ge (x d : spec_float) :
  valid_binary x = true -> valid_binary d = true ->
  F64.timestamp_sf x -> SFleb (S754_zero false) d = true ->
  SFleb x (SF64add x d) = true.
Proof.
  intros Hx Hd Tx Hpos.
  destruct x as [sx | sx | | sx mx ex]; try contradiction;
    destruct d as [sd | [|] | | [|] md ed]; try discriminate Hpos.
  - destruct sx, sd; reflexivity.
  - reflexivity.
  - reflexivity.
  - apply SFleb_refl_finite.
  - destruct sx; reflexivity.
  - simpl in Hx, Hd.
    destruct (bounded_exponent _ _ Hx) as (Hex & _ & _ & Hcan).
    destruct (bounded_exponent _ _ Hd) as (Hed & _).
    unfold SF64add, SFadd. cbv zeta.
    set (ez := Z.min ex ed).
    pose proof (shl_align_value mx ex ez ltac:(lia)) as Ha.
    pose proof (shl_align_value md ed ez ltac:(lia)) as Hb.
    set (a := fst (shl_align mx ex ez)) in *.
    set (b := fst (shl_align md ed ez)) in *.
    destruct sx.
    + (* a negative timestamp *)
      simpl cond_Zopp.
      destruct (Z.neg a + Z.pos b) as [| p | p] eqn:E.
      * reflexivity.
      * apply SFleb_neg_nonneg. apply binary_round_nonneg.
      * unfold binary_normalize.
        pose proof (binary_round_le true mx ex p ez Hx ltac:(lia)
                      ltac:(lia)) as Hr.
        destruct (binary_round prec emax true p ez) as [s | s | | s m e];
          try contradiction.
        -- subst s. reflexivity.
        -- destruct Hr as [-> Hr]. unfold SFleb, SFcompare.
           destruct Hr as [Hlt | [-> Hle]].
           ++ destruct (Z.compare_spec ex e); try reflexivity; lia.
           ++ rewrite Z.compare_refl.
              change (Pos.compare_cont Eq mx m) with (Pos.compare mx m).
              destruct (Pos.compare_spec mx m); try reflexivity. lia.
    + simpl cond_Zopp. change (Z.pos a + Z.pos b) with (Zpos (a + b)).
      unfold binary_normalize, binary_round.
      assert (Hle : Zpos mx * 2 ^ (ex - ez) <= Zpos (a + b)) by lia.
      pose proof (digits2_pos_shift mx (a + b) (ex - ez) ltac:(lia) Hle)
        as Hdig.
      assert (Hf : ex <= fexp prec emax (Zpos (digits2_pos (a + b)) + ez)).
      { rewrite fexp_eq in *. lia. }
      rewrite shl_align_noop by lia.
      apply binary_round_aux_ge; try assumption; lia.
Qed.

Lemma SF64sub_nonneg (x y : spec_float) :
  valid_binary x = true -> valid_binary y = true ->
  F64.timestamp_sf x -> F64.timestamp_sf y ->
  SFleb x y = true ->
  SFleb (S754_zero false) (SF64sub y x) = true.
Proof.
  intros Hx Hy Tx Ty Hle.
  destruct x as [sx | sx | | sx mx ex]; try contradiction;
    destruct y as [sy | sy | | sy my ey]; try contradiction.
  - destruct sx, sy; reflexivity.
  - destruct sy; [discriminate Hle | reflexivity].
  - destruct sx; [reflexivity | discriminate Hle].
  - simpl in Hx, Hy.
    destruct (bounded_exponent _ _ Hx) as (Hex & _).
    destruct (bounded_exponent _ _ Hy) as (Hey & _).
    unfold SF64sub, SFsub. cbv zeta.
    set (ez := Z.min ey ex) in *.
    pose proof (shl_align_value mx ex ez ltac:(lia)) as Ha.
    pose proof (shl_align_value my ey ez ltac:(lia)) as Hb.
    set (a := fst (shl_align mx ex ez)) in *.
    set (b := fst (shl_align my ey ez)) in *.
    assert (HM : 0 <= cond_Zopp sy (Z.pos b) - cond_Zopp sx (Z.pos a)).
    { destruct sx, sy; simpl cond_Zopp; try lia.
      - rewrite SFleb_neg_swap in Hle.
        pose proof (aligned_le _ _ _ _ Hy Hx Hle) as Hal.
        rewrite (Z.min_comm ex ey) in Hal. fold ez in Hal. lia.
      - discriminate Hle.
      - pose proof (aligned_le _ _ _ _ Hx Hy Hle) as Hal.
        fold ez in Hal. lia. }
    destruct (cond_Zopp sy (Z.pos b) - cond_Zopp sx (Z.pos a))
      as [| p | p]; try lia.
    + reflexivity.
    + apply binary_round_nonneg.
Qed.

Lemma is_timestamp_sf (t : float) :
  F64.is_timestamp t = true -> F64.timestamp_sf (Prim2SF t).
Proof.
  unfold F64.is_timestamp. intros H. apply andb_prop in H. destruct H as [H0 Hi].
  rewrite FloatAxioms.ltb_spec in H0, Hi.
  change (Prim2SF neg_infinity) with (S754_infinity true) in H0.
  change (Prim2SF infinity) with (S754_infinity false) in Hi.
  destruct (Prim2SF t) as [s | [|] | | s m e]; try discriminate H0;
    try discriminate Hi; exact I.
Qed.

(** [s <= e] gives [0 <= e - s]. *)
Lemma sub_nonneg (s e : float) :
  F64.is_timestamp s = true -> F64.is_timestamp e = true ->
  (s <=? e)%float = true -> (0 <=? e - s)%float = true.
Proof.
  intros Hs He Hle.
  rewrite FloatAxioms.leb_spec in *. rewrite sub_spec.
  change (Prim2SF 0) with (S754_zero false).
  apply SF64sub_nonneg; auto using Prim2SF_valid, is_timestamp_sf.
Qed.

(** [0 <= d] gives [s <= s + d]. *)
Lemma add_nonneg_ge (s d : float) :
  F64.is_timestamp s = true -> (0 <=? d)%float = true ->
  (s <=? s + d)%float = true.
Proof.
  intros Hs Hd.
  rewrite FloatAxioms.leb_spec in *. rewrite add_spec.
  change (Prim2SF 0) with (S754_zero false) in Hd.
  apply SF64add_ge; auto using Prim2SF_valid, is_timestamp_sf.
Qed.

(** A window does not end before it starts. *)
Lemma start_le_end (s e : float) :
  F64.is_timestamp s = true -> F64.is_timestamp e = true ->
  (s <=? e)%float = true -> (s <=? s + (e - s))%float = true.
Proof.
  intros Hs He Hle. apply add_nonneg_ge; [exact Hs |].
  apply sub_nonneg; assumption.
Qed.

(** ** The phase table on the float64 index *)

Lemma f64_index_deltas_cons2 (x y : float) (rest : list float) :
  F64.index_deltas (x :: y :: rest)
  = (y - x)%float :: F64.index_deltas (y :: rest).
Proof. reflexivity. Qed.

Lemma f64_step2_index_deltas (index : list float) :
  step2 (F64.index_deltas index) = map snd (F64.pair_up index).
Proof.
  induction index as [| x | x y rest IH] using list_pair_ind;
    try reflexivity.
  destruct rest as [| z rest'].
  - reflexivity.
  - rewrite f64_index_deltas_cons2, f64_index_deltas_cons2. simpl step2.
    simpl F64.pair_up. simpl map. f_equal. exact IH.
Qed.

Lemma f64_length_pair_up (index : list float) :
  length (F64.pair_up index) = Nat.div2 (length index).
Proof.
  induction index as [| x | x y rest IH] using list_pair_ind;
    try reflexivity.
  simpl length. rewrite IH. reflexivity.
Qed.

Lemma f64_length_pair_up_step2 {A} (label : A -> float) (l : list A) :
  Nat.eqb (length (F64.pair_up (map label l))) (length (step2 l))
  = Nat.even (length l).
Proof.
  induction l as [| x | x y rest IH] using list_pair_ind;
    try reflexivity.
  exact IH.
Qed.

Lemma f64_combine_step2_pair_up (marks : list (float * (Z * Z))) :
  Nat.even (length marks) = true ->
  map (fun r : float * Z * float => (fst (fst r), snd r))
    (combine (map (fun r : float * (Z * Z) => (fst r, fst (snd r)))
                (step2 marks))
       (map snd (F64.pair_up (map fst marks))))
  = F64.pair_up (map fst marks).
Proof.
  induction marks as [| x | x y rest IH] using list_pair_ind;
    intros Hev; try reflexivity.
  simpl. f_equal. apply IH. exact Hev.
Qed.

Lemma f64_kept_marks_rows (loops_df : list F64.LoopRow) :
  F64.kept_marks loops_df = map F64.mark_of (F64.kept_rows loops_df).
Proof.
  unfold F64.kept_marks, F64.kept_rows.
  apply (drop_duplicates_last_map F64.mark_of).
Qed.

(** On the float64 index too [df_phases] pairs the labels of the events
    it keeps two by two, or fails when their number is odd. *)
Lemma f64_df_phases_eq (loops_df : list F64.LoopRow) :
  F64.df_phases loops_df
  = if Nat.even (length (F64.kept_rows loops_df))
    then Ok (F64.pair_up (map F64.Time (F64.kept_rows loops_df)))
    else Raise "ValueError".
Proof.
  unfold F64.df_phases, set_column.
  rewrite f64_step2_index_deltas.
  rewrite !length_map.
  rewrite (f64_length_pair_up_step2 fst).
  rewrite f64_kept_marks_rows, length_map.
  destruct (Nat.even (length (F64.kept_rows loops_df))) eqn:Hev.
  - simpl. rewrite f64_combine_step2_pair_up by (rewrite length_map; exact Hev).
    rewrite map_map. reflexivity.
  - reflexivity.
Qed.

Lemma step2_In {A} (l : list A) (x : A) : In x (step2 l) -> In x l.
Proof.
  induction l as [| a | a b rest IH] using list_pair_ind; simpl.
  - exact (fun H => H).
  - exact (fun H => H).
  - intros [-> | H]; [left; reflexivity | right; right; apply IH, H].
Qed.

Lemma f64_window_starts (index : list float) (k : Z) :
  Nat.even (length index) = true ->
  map F64.pw_start (map F64.window_of (enumerate_from k (F64.pair_up index)))
  = step2 index.
Proof.
  revert k.
  induction index as [| x | x y rest IH] using list_pair_ind; intros k Hev.
  - reflexivity.
  - discriminate Hev.
  - simpl. f_equal. apply IH. exact Hev.
Qed.

(** The windows made of an index of timestamps in order, taken two by
    two. [stops] are the labels of odd rank. *)
Lemma f64_windows_of_index (index : list float) (k : Z) :
  Nat.even (length index) = true ->
  Forall (fun t => F64.is_timestamp t = true) index ->
  StronglySorted F64.le index ->
  let windows := map F64.window_of (enumerate_from k (F64.pair_up index)) in
  let stops := F64.seconds index in
  length stops = length windows
  /\ Forall (fun w => F64.le (F64.pw_start w) (F64.pw_end w)) windows
  /\ StronglySorted F64.le (map F64.pw_start windows)
  /\ (forall i w, nth_error windows i = Some w ->
        F64.pw_id w = k + Z.of_nat i)
  /\ (forall i w e,
        nth_error windows i = Some w -> nth_error stops i = Some e ->
        F64.le (F64.pw_start w) e
        /\ F64.pw_end w = (F64.pw_start w + (e - F64.pw_start w))%float)
  /\ (forall i j e w,
        (i < j)%nat ->
        nth_error stops i = Some e -> nth_error windows j = Some w ->
        F64.le e (F64.pw_start w)).
Proof.
  revert k.
  induction index as [| x | x y rest IH] using list_pair_ind;
    intros k Hev Hts Hs.
  - simpl. repeat split; try constructor.
    + intros [| i] w H; discriminate H.
    + destruct i; discriminate H.
    + destruct i; discriminate H.
    + intros [| i] j e w _ H; discriminate H.
  - discriminate Hev.
  - inversion Hs as [| ? ? Hs1 Hx]; subst.
    inversion Hs1 as [| ? ? Hs2 Hy]; subst.
    inversion Hts as [| ? ? Tx Hts1]; subst.
    inversion Hts1 as [| ? ? Ty Hts2]; subst.
    inversion Hx as [| ? ? Hxy Hxrest]; subst.
    specialize (IH (k + 1) Hev Hts2 Hs2). cbv zeta in IH.
    destruct IH as (Hlen & Hle & Hstarts & Hids & Hends & Hord).
    assert (Hin : forall w,
               In w (map F64.window_of
                       (enumerate_from (k + 1) (F64.pair_up rest))) ->
               In (F64.pw_start w) rest).
    { intros w Hw. apply (step2_In rest).
      rewrite <- (f64_window_starts rest (k + 1) Hev).
      apply in_map. exact Hw. }
    cbv zeta. simpl. repeat split.
    + rewrite Hlen. reflexivity.
    + constructor; [| exact Hle]. simpl.
      apply start_le_end; assumption.
    + constructor; [exact Hstarts |].
      rewrite Forall_forall in *. intros s Hsin.
      apply in_map_iff in Hsin. destruct Hsin as (w & <- & Hw).
      apply Hxrest, Hin, Hw.
    + intros [| i] w H; simpl in H.
      * injection H as <-. simpl. lia.
      * apply Hids in H. lia.
    + destruct i as [| i]; simpl in H, H0.
      * injection H as <-. injection H0 as <-. exact Hxy.
      * apply (Hends i w e H H0).
    + destruct i as [| i]; simpl in H, H0.
      * injection H as <-. injection H0 as <-. reflexivity.
      * apply (Hends i w e H H0).
    + intros [| i] [| j] e w Hij He Hw; simpl in He, Hw; try lia.
      * injection He as <-.
        rewrite Forall_forall in Hy. apply Hy, Hin.
        eapply nth_error_In. exact Hw.
      * apply (Hord i j e w); [lia | exact He | exact Hw].
Qed.

Lemma f64_kept_rows_timestamps (loops_df : list F64.LoopRow) :
  Forall (fun r => F64.is_timestamp (F64.Time r) = true) loops_df ->
  Forall (fun t => F64.is_timestamp t = true)
    (map F64.Time (F64.kept_rows loops_df)).
Proof.
  intros H. rewrite Forall_forall in *. intros t Ht.
  apply in_map_iff in Ht. destruct Ht as (r & <- & Hr).
  apply H. eapply drop_duplicates_last_In. exact Hr.
Qed.

(** C7, as the code has it, on the float64 index. For the events of a
    task in the order of their timestamps, all finite,
    [task_phase_windows] yields
    windows whenever the events [df_phases] keeps alternate start and
    end, and whatever windows it yields, one for every two kept events,
    have [start <= end], are sorted by their start and have their rank as
    id. The times they are made of do not overlap: a window starts at or
    before the time [e] of the kept event that stops it, and [e] is at or
    before the start of every later window. The end of the window is the
    float64 sum [start + (e - start)], not [e]. *)
Theorem phase_windows_ordered (loops_df : list F64.LoopRow) :
  loops_df <> [] ->
  Forall (fun r => F64.is_timestamp (F64.Time r) = true) loops_df ->
  StronglySorted F64.le (map F64.Time loops_df) ->
  (alternates (map F64.event (F64.kept_rows loops_df)) = true ->
   exists windows, F64.task_phase_windows loops_df = Ok windows)
  /\ (forall windows,
        F64.task_phase_windows loops_df = Ok windows ->
        let stops := F64.seconds (map F64.Time (F64.kept_rows loops_df)) in
        length windows = Nat.div2 (length (F64.kept_rows loops_df))
        /\ length stops = length windows
        /\ Forall (fun w => F64.le (F64.pw_start w) (F64.pw_end w)) windows
        /\ StronglySorted F64.le (map F64.pw_start windows)
        /\ (forall i w, nth_error windows i = Some w ->
              F64.pw_id w = Z.of_nat i)
        /\ (forall i w e,
              nth_error windows i = Some w -> nth_error stops i = Some e ->
              F64.le (F64.pw_start w) e
              /\ F64.pw_end w
                 = (F64.pw_start w + (e - F64.pw_start w))%float)
        /\ (forall i j e w,
              (i < j)%nat ->
              nth_error stops i = Some e -> nth_error windows j = Some w ->
              F64.le e (F64.pw_start w))).
Proof.
  intros _ Hts Hord. unfold F64.task_phase_windows.
  rewrite f64_df_phases_eq. split.
  - intros Halt. apply alternates_even in Halt. rewrite length_map in Halt.
    rewrite Halt. cbn [bind]. eexists. reflexivity.
  - intros windows H.
    destruct (Nat.even (length (F64.kept_rows loops_df))) eqn:Hev;
      [| discriminate H].
    cbn [bind] in H. injection H as <-.
    assert (Hsorted : StronglySorted F64.le
                        (map F64.Time (F64.kept_rows loops_df))).
    { apply StronglySorted_drop_duplicates_last. exact Hord. }
    pose proof (f64_windows_of_index
                  (map F64.Time (F64.kept_rows loops_df)) 0
                  ltac:(rewrite length_map; exact Hev)
                  (f64_kept_rows_timestamps _ Hts) Hsorted) as Hw.
    cbv zeta in Hw. destruct Hw as (Hlen & Hle & Hstarts & Hids & Hends & Ho).
    cbv zeta. split.
    { rewrite length_map, length_enumerate_from, f64_length_pair_up,
        length_map. reflexivity. }
    split; [exact Hlen |]. split; [exact Hle |]. split; [exact Hstarts |].
    split; [| split; [exact Hends | exact Ho]].
    intros i w Hi. rewrite (Hids i w Hi). lia.
Qed.

Lemma phase_windows_ordered_witness :
  F64.task_phase_windows rounded_events
  = Ok [ F64.mkPhaseWindow 0 0x1.0624dd2f1a9fcp-10 0x1.47ae147ae147cp-7;
         F64.mkPhaseWindow 1 0x1.47ae147ae147bp-7 0x1.47ae147ae147bp-6 ]
  /\ Forall (fun w => F64.le (F64.pw_start w) (F64.pw_end w))
       [ F64.mkPhaseWindow 0 0x1.0624dd2f1a9fcp-10 0x1.47ae147ae147cp-7;
         F64.mkPhaseWindow 1 0x1.47ae147ae147bp-7 0x1.47ae147ae147bp-6 ]
  /\ F64.le 0x1.47ae147ae147bp-7 0x1.47ae147ae147bp-7.
Proof.
  assert (Hts : Forall (fun r => F64.is_timestamp (F64.Time r) = true)
                  rounded_events)
    by (repeat constructor).
  assert (Hord : StronglySorted F64.le (map F64.Time rounded_events))
    by (simpl; repeat constructor).
  destruct (phase_windows_ordered rounded_events ltac:(discriminate) Hts Hord)
    as [_ Hw].
  destruct (Hw [ F64.mkPhaseWindow 0 0x1.0624dd2f1a9fcp-10
                   0x1.47ae147ae147cp-7;
                 F64.mkPhaseWindow 1 0x1.47ae147ae147bp-7
                   0x1.47ae147ae147bp-6 ] eq_refl)
    as (_ & _ & Hle & _ & _ & _ & Ho).
  split; [reflexivity |]. split; [exact Hle |].
  apply (Ho 0%nat 1%nat 0x1.47ae147ae147bp-7%float
           (F64.mkPhaseWindow 1 0x1.47ae147ae147bp-7 0x1.47ae147ae147bp-6));
    [lia | reflexivity | reflexivity].
Defined.

(** C7, refuted as stated: the events of two phases in a row, with the
    float64 timestamps nearest to 0.001, 0.01, 0.01 and 0.02, are in the
    order of their timestamps and alternate start and end, and the first
    window ends after the second one starts: its end
    [0.001 + (0.01 - 0.001)] is rounded to 0.010000000000000002. *)
Lemma windows_overlap_by_rounding :
  StronglySorted F64.le (map F64.Time rounded_events)
  /\ F64.kept_rows rounded_events = rounded_events
  /\ alternates (map F64.event (F64.kept_rows rounded_events)) = true
  /\ F64.task_phase_windows rounded_events
     = Ok [ F64.mkPhaseWindow 0 0x1.0624dd2f1a9fcp-10 0x1.47ae147ae147cp-7;
            F64.mkPhaseWindow 1 0x1.47ae147ae147bp-7 0x1.47ae147ae147bp-6 ]
  /\ (0x1.47ae147ae147bp-7 <? 0x1.47ae147ae147cp-7)%float = true.
Proof.
  split; [simpl; repeat constructor |]. repeat split.
Qed.

(** ** Claims on [task_phase_at] *)

Lemma last_value_last {A} (l : list A) (d : A) :
  l <> [] -> last_value l = Ok (last l d).
Proof.
  intros Hne. destruct (exists_last Hne) as (l' & x & ->).
  unfold last_value. rewrite rev_unit, last_last. reflexivity.
Qed.

Lemma last_map_default {A B} (f : A -> B) (l : list A) (d : A) :
  last (map f l) (f d) = f (last l d).
Proof.
  induction l as [| x rest IH]; [reflexivity |].
  destruct rest as [| y rest']; [reflexivity | exact IH].
Qed.

Lemma length_slice_from_le {A} (label : A -> Z) (t : Z) (df : list A) :
  (length (slice_from label t df) <= length df)%nat.
Proof.
  induction df as [| r rest IH]; simpl; [lia |].
  destruct (label r <? t); simpl; lia.
Qed.

(** On a sorted index the slice [df[t:]] drops the rows up to the last
    one labelled below [t]. *)
Lemma length_slice_from_sorted {A} (label : A -> Z) (t : Z) (df : list A)
  (i : nat) (r : A) :
  StronglySorted Z.le (map label df) ->
  nth_error df i = Some r ->
  label r < t ->
  (forall r', nth_error df (S i) = Some r' -> t <= label r') ->
  (length (slice_from label t df) + S i = length df)%nat.
Proof.
  revert i. induction df as [| x rest IH]; intros i Hs Hnth Hlt Hnext.
  - destruct i; discriminate Hnth.
  - simpl in Hs. inversion Hs as [| ? ? Hrest Hall]; subst.
    destruct i as [| i]; simpl in Hnth.
    + injection Hnth as ->. simpl.
      destruct (Z.ltb_spec (label r) t) as [_ | Hge]; [| lia].
      destruct rest as [| y rest']; [reflexivity |].
      specialize (Hnext y eq_refl). simpl.
      destruct (Z.ltb_spec (label y) t) as [Hlt' | _]; [lia | simpl; lia].
    + assert (Hx : label x <= label r).
      { rewrite Forall_forall in Hall. apply Hall. apply in_map.
        eapply nth_error_In. exact Hnth. }
      simpl. destruct (Z.ltb_spec (label x) t) as [_ | Hge]; [| lia].
      specialize (IH i Hrest Hnth Hlt Hnext). lia.
Qed.

(** C3, as the code has it, for a task whose own table is the one the
    code reads the upper bound from (the table of [test_task-0]): the
    answer is [None] exactly when [t] is at or before the first start, or
    after the last start plus the last duration; otherwise it is the
    window [task_phase_window] gives for the last phase that starts
    before [t]. The intervals are open on the left and closed on the
    right. *)
Theorem task_phase_at_interval (self : Trace) (task : TaskArg)
  (table rest : list (Z * Z)) (s0 d0 sl dl t : Z) :
  df_phases self (TaskComm "test_task-0") = Ok table ->
  df_phases self task = Ok table ->
  table = (s0, d0) :: rest ->
  last table (s0, d0) = (sl, dl) ->
  StronglySorted Z.le (map fst table) ->
  (task_phase_at self task t = Ok None <-> t <= s0 \/ sl + dl < t)
  /\ (forall i s d,
        nth_error table i = Some (s, d) ->
        s < t ->
        (forall s' d', nth_error table (S i) = Some (s', d') -> t <= s') ->
        t <= sl + dl ->
        task_phase_at self task t
        = fmap Some (task_phase_window self task (Z.of_nat i))).
Proof.
  intros Href Htask Htable Hlast Hsorted.
  assert (Hne : table <> []) by (rewrite Htable; discriminate).
  assert (Hhead :
            task_phase_at self task t
            = if sl + dl <? t then Ok None
              else
                let phase_id :=
                  Z.of_nat (length table)
                  - Z.of_nat (length (slice_from fst t table)) - 1 in
                if phase_id <? 0 then Ok None
                else w <- task_phase_window self task phase_id ;; Ok (Some w)).
  { unfold task_phase_at. rewrite Href. simpl.
    rewrite (last_value_last (map fst table) (fst (s0, d0)))
      by (intros E; apply map_eq_nil in E; contradiction).
    rewrite (last_value_last (map snd table) (snd (s0, d0)))
      by (intros E; apply map_eq_nil in E; contradiction).
    rewrite !last_map_default, Hlast. simpl. rewrite Htask. reflexivity. }
  rewrite Hhead. clear Hhead.
  split.
  - destruct (Z.ltb_spec (sl + dl) t) as [Hafter | Hin].
    + split; [intros _; right; exact Hafter | reflexivity].
    + cbv zeta.
      destruct (Z.ltb_spec
                  (Z.of_nat (length table)
                   - Z.of_nat (length (slice_from fst t table)) - 1) 0)
        as [Hneg | Hpos].
      * split; [intros _ | reflexivity]. left.
        rewrite Htable in Hneg. cbn [slice_from fst] in Hneg.
        destruct (Z.ltb_spec s0 t) as [Hlt | Hge]; [| exact Hge].
        pose proof (length_slice_from_le fst t rest). simpl length in Hneg.
        lia.
      * split.
        -- destruct (task_phase_window self task _); discriminate.
        -- intros [Hbefore | Hafter]; [| lia].
           rewrite Htable in Hpos. cbn [slice_from fst] in Hpos.
           destruct (Z.ltb_spec s0 t) as [Hlt | Hge]; [lia |].
           simpl length in Hpos. lia.
  - intros i s d Hnth Hlt Hnext Hle.
    destruct (Z.ltb_spec (sl + dl) t) as [Hafter | _]; [lia |].
    cbv zeta.
    pose proof (length_slice_from_sorted fst t table i (s, d) Hsorted Hnth Hlt)
      as Hlen.
    assert (Hn : forall r', nth_error table (S i) = Some r' -> t <= fst r').
    { intros [s' d'] H'. exact (Hnext s' d' H'). }
    specialize (Hlen Hn).
    replace (Z.of_nat (length table)
             - Z.of_nat (length (slice_from fst t table)) - 1)
      with (Z.of_nat i) by lia.
    destruct (Z.ltb_spec (Z.of_nat i) 0) as [Hneg | _]; [lia |].
    reflexivity.
Qed.

Lemma task_phase_at_interval_witness :
  (task_phase_at (loop_trace (example_events test_task_0))
     (TaskTID test_task_0) 15 = Ok None
   <-> 15 <= 0 \/ 10 + 10 < 15)
  /\ (forall i s d,
        nth_error [(0, 10); (10, 10)] i = Some (s, d) ->
        s < 15 ->
        (forall s' d',
            nth_error [(0, 10); (10, 10)] (S i) = Some (s', d') -> 15 <= s') ->
        15 <= 10 + 10 ->
        task_phase_at (loop_trace (example_events test_task_0))
          (TaskTID test_task_0) 15
        = fmap Some
            (task_phase_window (loop_trace (example_events test_task_0))
               (TaskTID test_task_0) (Z.of_nat i))).
Proof.
  apply (task_phase_at_interval (loop_trace (example_events test_task_0))
           (TaskTID test_task_0) [(0, 10); (10, 10)] [(10, 10)] 0 10 10 10 15);
    try reflexivity.
  simpl. repeat constructor; lia.
Defined.

(** C3, refuted as stated, on the worked example run by the task named
    [test_task-0], whose table is [(0, 10); (10, 10)]: at 20, the end of
    the last phase, the answer is the last window and not [None]; at 0,
    inside [0, 0 + 10), the answer is [None]; at 10, inside [10, 10 + 10),
    the answer is the window of phase 0. *)
Lemma task_phase_at_right_closed :
  df_phases (loop_trace (example_events test_task_0)) (TaskTID test_task_0)
  = Ok [(0, 10); (10, 10)]
  /\ task_phase_at (loop_trace (example_events test_task_0))
       (TaskTID test_task_0) 20
     = Ok (Some (mkPhaseWindow 1 10 20))
  /\ task_phase_at (loop_trace (example_events test_task_0))
       (TaskTID test_task_0) 0
     = Ok None
  /\ task_phase_at (loop_trace (example_events test_task_0))
       (TaskTID test_task_0) 10
     = Ok (Some (mkPhaseWindow 0 0 10)).
Proof. repeat split. Qed.

(** C4 (the code departs from it): the upper bound is read from the table
    of the task named [test_task-0], whatever task is asked for. For the
    example's events the table is [(0, 10); (10, 10)], but next to a task
    [test_task-0] whose only phase ends at 12 the answer at 15 is [None]
    and not the window (1, 10, 20), and in a trace without such a task
    the call raises. When the example's task is itself named
    [test_task-0] the three results are the expected ones. *)
Theorem task_phase_at_reads_test_task_0 :
  df_phases (loop_trace two_tasks) (TaskTID task_A) = Ok [(0, 10); (10, 10)]
  /\ task_phase_at (loop_trace two_tasks) (TaskTID task_A) 15 = Ok None
  /\ df_phases (loop_trace (example_events task_A)) (TaskTID task_A)
     = Ok [(0, 10); (10, 10)]
  /\ task_phase_at (loop_trace (example_events task_A)) (TaskTID task_A) 15
     = Raise "ValueError"
  /\ df_phases (loop_trace (example_events test_task_0)) (TaskTID test_task_0)
     = Ok [(0, 10); (10, 10)]
  /\ task_phase_at (loop_trace (example_events test_task_0))
       (TaskTID test_task_0) 15
     = Ok (Some (mkPhaseWindow 1 10 20))
  /\ task_phase_at (loop_trace (example_events test_task_0))
       (TaskTID test_task_0) 25
     = Ok None.
Proof. repeat split. Qed.

(** ** The frames of [_get_rtapp_phases] *)

Lemma insert_stable_Permutation {A} (before : A -> A -> bool) (x : A)
  (l : list A) :
  Permutation (insert_stable before x l) (x :: l).
Proof.
  induction l as [| y rest IH]; simpl.
  - apply Permutation_refl.
  - destruct (before y x).
    + eapply perm_trans; [apply perm_skip, IH | apply perm_swap].
    + apply Permutation_refl.
Qed.

Lemma sort_stable_Permutation {A} (before : A -> A -> bool) (l : list A) :
  Permutation (sort_stable before l) l.
Proof.
  induction l as [| x rest IH]; simpl.
  - apply Permutation_refl.
  - eapply perm_trans; [apply insert_stable_Permutation |].
    apply perm_skip, IH.
Qed.

Lemma groupby_head1_from_In {A} (same : A -> A -> bool) (seen l : list A)
  (x : A) :
  In x (groupby_head1_from same seen l) -> In x l.
Proof.
  revert seen. induction l as [| y rest IH]; intros seen; simpl.
  - exact (fun H => H).
  - destruct (existsb (same y) seen); simpl.
    + intros H. right. eapply IH, H.
    + intros [-> | H]; [left; reflexivity | right; eapply IH, H].
Qed.

Lemma task_filtered_rows {R} (pid_col : R -> Z) (comm_col : R -> string)
  (self : Trace) (df rows : list R) (tid : TaskID) :
  _task_filtered pid_col comm_col self df (TaskTID tid) = Ok rows ->
  rows = filter (fun r => (pid_col r =? pid tid)
                          && (comm_col r =? comm tid)%string) df.
Proof.
  unfold _task_filtered. simpl.
  destruct (existsb (TaskID_eqb tid) (rtapp_tasks self)); simpl;
    [| discriminate].
  intros H. injection H as <-. unfold df_filter_task_ids.
  apply filter_ext. intros r. simpl. unfold TaskID_eqb. simpl.
  apply orb_false_r.
Qed.

(** Every row of the frame of a task carries the name of the task. *)
Lemma get_rtapp_phases_comm (self : Trace) (event_ : string) (tid : TaskID)
  (df : list PhaseRow) :
  _get_rtapp_phases self event_ (TaskTID tid) = Ok df ->
  Forall (fun r => p_comm r = comm tid) df.
Proof.
  unfold _get_rtapp_phases. intros H.
  apply bind_Ok_inv in H. destruct H as (loops & Hloops & H).
  injection H as <-.
  apply task_filtered_rows in Hloops.
  rewrite Forall_forall. intros r Hr.
  apply in_map_iff in Hr. destruct Hr as (raw & <- & Hraw). simpl.
  apply (Permutation_in _ (sort_stable_Permutation _ _)) in Hraw.
  apply groupby_head1_from_In in Hraw.
  assert (Hin : In raw loops).
  { destruct (event_ =? "start")%string.
    - apply filter_In in Hraw. destruct Hraw as [Hraw _].
      apply filter_In in Hraw. apply Hraw.
    - destruct (event_ =? "end")%string.
      + apply (Permutation_in _ (sort_stable_Permutation _ _)) in Hraw.
        apply filter_In in Hraw. apply Hraw.
      + apply filter_In in Hraw. apply Hraw. }
  rewrite Hloops in Hin. apply filter_In in Hin. destruct Hin as [_ Hin].
  apply andb_prop in Hin. destruct Hin as [_ Hc].
  apply String.eqb_eq in Hc. exact Hc.
Qed.

Lemma loc_comm_all (c : string) (df : list PhaseRow) :
  Forall (fun r => p_comm r = c) df ->
  loc_comm c df = match df with [] => Raise "KeyError" | _ => Ok df end.
Proof.
  intros Hall. unfold loc_comm.
  rewrite forallb_filter_id.
  - destruct df; reflexivity.
  - apply forallb_forall. rewrite Forall_forall in Hall.
    intros r Hr. apply String.eqb_eq. apply Hall, Hr.
Qed.

(** ** The row that [head(phase).tail(1)] reads *)

Lemma first_value_skipn {A} (l : list A) (i : nat) (d : A) :
  (i < length l)%nat -> first_value (skipn i l) = Ok (nth i l d).
Proof.
  revert l. induction i as [| i IH]; intros [| x rest] Hlt;
    simpl in *; try lia; try reflexivity.
  apply IH. lia.
Qed.

Lemma head_tail_firstn (times : list Z) (n : nat) :
  first_value (tail 1 (firstn n times))
  = match Nat.min n (length times) with
    | O => Raise "IndexError"
    | S i => Ok (nth i times 0)
    end.
Proof.
  unfold tail. change (1 =? 0) with false. change (0 <? 1) with true.
  cbv iota. change (Z.to_nat 1) with 1%nat.
  pose proof (length_firstn n times) as Hlen.
  destruct (Nat.min n (length times)) as [| i] eqn:Hmin.
  - apply length_zero_iff_nil in Hlen. rewrite Hlen. reflexivity.
  - rewrite Hlen.
    replace (S i - 1)%nat with i by lia.
    rewrite (first_value_skipn _ i 0) by lia.
    rewrite nth_firstn.
    destruct (Nat.ltb_spec i n) as [_ | Hge]; [reflexivity | lia].
Qed.

Lemma map_head {A B} (f : A -> B) (h : Z) (l : list A) :
  map f (head h l) = head h (map f l).
Proof.
  unfold head. rewrite length_map.
  destruct (0 <=? h); symmetry; apply firstn_map.
Qed.

Lemma map_tail {A B} (f : A -> B) (n : Z) (l : list A) :
  map f (tail n l) = tail n (map f l).
Proof.
  unfold tail. rewrite length_map.
  destruct (n =? 0); [reflexivity |].
  destruct (0 <? n); symmetry; apply skipn_map.
Qed.

(** The value [_get_task_phase] returns, by the position of the
    requested index against the number [N] of rows. *)
Lemma head_tail_cases (times : list Z) (k : Z) :
  times <> [] ->
  let N := Z.of_nat (length times) in
  let h := (if negb (k =? 0) && (k <? 0) then k + N else k) + 1 in
  let r := first_value (tail 1 (head h times)) in
  (0 <= k < N -> r = Ok (nth (Z.to_nat k) times 0))
  /\ (- N <= k < 0 -> r = Ok (nth (Z.to_nat (k + N)) times 0))
  /\ (N <= k -> r = Ok (nth (length times - 1) times 0))
  /\ (k = - N - 1 \/ k < - 2 * N -> r = Raise "IndexError")
  /\ (- 2 * N <= k < - N - 1 -> r = Ok (nth (Z.to_nat (k + 2 * N)) times 0)).
Proof.
  intros Hne N h r.
  assert (HN : 0 < N).
  { subst N. destruct times; [contradiction | simpl; lia]. }
  assert (Hh : h = (if k <? 0 then k + N else k) + 1).
  { subst h. destruct (Z.eqb_spec k 0) as [-> | Hk]; simpl; [reflexivity |].
    reflexivity. }
  clearbody h. subst h r. unfold head.
  repeat split; intros Hk.
  - destruct (Z.ltb_spec k 0); [lia |].
    destruct (Z.leb_spec 0 (k + 1)); [| lia].
    rewrite head_tail_firstn.
    replace (Nat.min (Z.to_nat (k + 1)) (length times)) with (S (Z.to_nat k))
      by lia.
    reflexivity.
  - destruct (Z.ltb_spec k 0); [| lia].
    destruct (Z.leb_spec 0 (k + N + 1)); [| lia].
    rewrite head_tail_firstn.
    replace (Nat.min (Z.to_nat (k + N + 1)) (length times))
      with (S (Z.to_nat (k + N))) by lia.
    reflexivity.
  - destruct (Z.ltb_spec k 0); [lia |].
    destruct (Z.leb_spec 0 (k + 1)); [| lia].
    rewrite head_tail_firstn.
    replace (Nat.min (Z.to_nat (k + 1)) (length times))
      with (S (length times - 1)) by lia.
    reflexivity.
  - destruct (Z.ltb_spec k 0); [| lia].
    destruct (Z.leb_spec 0 (k + N + 1)); rewrite head_tail_firstn.
    + replace (Nat.min (Z.to_nat (k + N + 1)) (length times)) with O by lia.
      reflexivity.
    + replace (Nat.min (length times - Z.to_nat (- (k + N + 1)))
                 (length times)) with O by lia.
      reflexivity.
  - destruct (Z.ltb_spec k 0); [| lia].
    destruct (Z.leb_spec 0 (k + N + 1)); [lia |].
    rewrite head_tail_firstn.
    replace (Nat.min (length times - Z.to_nat (- (k + N + 1))) (length times))
      with (S (Z.to_nat (k + 2 * N))) by lia.
    reflexivity.
Qed.

(** ** Claims on [task_phase_window] *)

Lemma get_task_phase_eq (self : Trace) (event_ : string) (task : TaskArg)
  (tid : TaskID) (df : list PhaseRow) (k : Z) :
  get_task_id self task = Ok tid ->
  event_ = "start"%string \/ event_ = "end"%string ->
  _get_rtapp_phases self event_ (TaskTID tid) = Ok df ->
  _get_task_phase self event_ task k
  = match df with
    | [] => Raise "KeyError"
    | _ =>
        first_value
          (tail 1
             (head ((if negb (k =? 0) && (k <? 0)
                     then k + Z.of_nat (length (map p_Time df)) else k) + 1)
                (map p_Time df)))
    end.
Proof.
  intros Hid Hev Hdf.
  pose proof (get_rtapp_phases_comm _ _ _ _ Hdf) as Hcomm.
  unfold _get_task_phase. rewrite Hid. cbn [bind].
  assert (Hframe :
            (if (event_ =? "start")%string
             then df_rtapp_phases_start self (TaskTID tid)
             else if (event_ =? "end")%string
                  then df_rtapp_phases_end self (TaskTID tid)
                  else Raise "UnboundLocalError") = Ok df).
  { destruct Hev as [-> | ->]; exact Hdf. }
  rewrite Hframe. cbn [bind].
  rewrite (loc_comm_all _ _ Hcomm).
  destruct df as [| r rest]; [reflexivity |].
  cbn [bind]. rewrite map_tail, map_head, length_map. reflexivity.
Qed.

Lemma get_task_phase_negative (self : Trace) (event_ : string)
  (task : TaskArg) (tid : TaskID) (df : list PhaseRow) (k : Z) :
  get_task_id self task = Ok tid ->
  event_ = "start"%string \/ event_ = "end"%string ->
  _get_rtapp_phases self event_ (TaskTID tid) = Ok df ->
  - Z.of_nat (length df) <= k <= -1 ->
  _get_task_phase self event_ task k
  = _get_task_phase self event_ task (k + Z.of_nat (length df)).
Proof.
  intros Hid Hev Hdf Hk.
  rewrite !(get_task_phase_eq _ _ _ _ _ _ Hid Hev Hdf).
  destruct df as [| r rest]; [reflexivity |].
  rewrite length_map.
  destruct (Z.eqb_spec k 0); [lia |].
  destruct (Z.ltb_spec k 0); [| lia].
  destruct (Z.ltb_spec (k + Z.of_nat (length (r :: rest))) 0); [lia |].
  rewrite andb_false_r. reflexivity.
Qed.

(** C5, as the code has it: a negative index is resolved by adding the
    number [N] of phases, and an index in [-N, N) gives the start and the
    end of the resolved phase under the requested id. Outside that range
    the call does not always fail: an index from [N] on gives the last
    phase, an index in [-2N, -N-2] the phase [k + 2N]; [IndexError] is
    raised for [-N-1] and below [-2N] only. *)
Theorem task_phase_window_by_index (self : Trace) (task : TaskArg)
  (tid : TaskID) (starts ends : list PhaseRow) (k : Z) :
  get_task_id self task = Ok tid ->
  df_rtapp_phases_start self (TaskTID tid) = Ok starts ->
  df_rtapp_phases_end self (TaskTID tid) = Ok ends ->
  length starts = length ends ->
  starts <> [] ->
  let N := Z.of_nat (length starts) in
  let window i :=
    Ok (mkPhaseWindow k (nth i (map p_Time starts) 0)
          (nth i (map p_Time ends) 0)) in
  (0 <= k < N -> task_phase_window self task k = window (Z.to_nat k))
  /\ (- N <= k < 0 ->
      task_phase_window self task k = window (Z.to_nat (k + N)))
  /\ (N <= k ->
      task_phase_window self task k = window (length starts - 1)%nat)
  /\ (k = - N - 1 \/ k < - 2 * N ->
      task_phase_window self task k = Raise "IndexError")
  /\ (- 2 * N <= k < - N - 1 ->
      task_phase_window self task k = window (Z.to_nat (k + 2 * N))).
Proof.
  intros Hid Hs He Hlen Hne N window.
  assert (Hne' : ends <> []).
  { intros ->. destruct starts; [contradiction | discriminate Hlen]. }
  assert (Hst : map p_Time starts <> [])
    by (intros E; apply map_eq_nil in E; contradiction).
  assert (Het : map p_Time ends <> [])
    by (intros E; apply map_eq_nil in E; contradiction).
  pose proof (head_tail_cases (map p_Time starts) k Hst) as Cs.
  pose proof (head_tail_cases (map p_Time ends) k Het) as Ce.
  cbv zeta in Cs, Ce.
  assert (Hw : task_phase_window self task k
               = (s <- first_value
                         (tail 1
                            (head ((if negb (k =? 0) && (k <? 0)
                                    then k + Z.of_nat
                                               (length (map p_Time starts))
                                    else k) + 1) (map p_Time starts))) ;;
                  e <- first_value
                         (tail 1
                            (head ((if negb (k =? 0) && (k <? 0)
                                    then k + Z.of_nat
                                               (length (map p_Time ends))
                                    else k) + 1) (map p_Time ends))) ;;
                  Ok (mkPhaseWindow k s e))).
  { unfold task_phase_window, df_rtapp_phase_start, df_rtapp_phase_end.
    rewrite (get_task_phase_eq _ _ _ _ _ _ Hid (or_introl eq_refl) Hs).
    rewrite (get_task_phase_eq _ _ _ _ _ _ Hid (or_intror eq_refl) He).
    destruct starts; [contradiction |]. destruct ends; [contradiction |].
    reflexivity. }
  rewrite Hw. clear Hw.
  rewrite !length_map in Cs, Ce. rewrite !length_map.
  rewrite <- Hlen in Ce. rewrite <- Hlen. fold N in Cs, Ce. fold N.
  destruct Cs as (Cs1 & Cs2 & Cs3 & Cs4 & Cs5).
  destruct Ce as (Ce1 & Ce2 & Ce3 & Ce4 & Ce5).
  subst window.
  repeat split; intros Hk.
  - rewrite (Cs1 Hk), (Ce1 Hk). reflexivity.
  - rewrite (Cs2 Hk), (Ce2 Hk). reflexivity.
  - rewrite (Cs3 Hk), (Ce3 Hk). reflexivity.
  - rewrite (Cs4 Hk). reflexivity.
  - rewrite (Cs5 Hk), (Ce5 Hk). reflexivity.
Qed.

Lemma task_phase_window_by_index_witness :
  let self := loop_trace (example_events task_A) in
  let starts := [mkPhaseRow "A" 1 0 0; mkPhaseRow "A" 1 1 10] in
  let ends := [mkPhaseRow "A" 1 0 10; mkPhaseRow "A" 1 1 20] in
  let window i :=
    Ok (mkPhaseWindow 5 (nth i (map p_Time starts) 0)
          (nth i (map p_Time ends) 0)) in
  (0 <= 5 < 2 ->
   task_phase_window self (TaskTID task_A) 5 = window (Z.to_nat 5))
  /\ (- 2 <= 5 < 0 ->
      task_phase_window self (TaskTID task_A) 5 = window (Z.to_nat (5 + 2)))
  /\ (2 <= 5 -> task_phase_window self (TaskTID task_A) 5 = window 1%nat)
  /\ (5 = - 2 - 1 \/ 5 < - 2 * 2 ->
      task_phase_window self (TaskTID task_A) 5 = Raise "IndexError")
  /\ (- 2 * 2 <= 5 < - 2 - 1 ->
      task_phase_window self (TaskTID task_A) 5
      = window (Z.to_nat (5 + 2 * 2))).
Proof.
  apply (task_phase_window_by_index (loop_trace (example_events task_A))
           (TaskTID task_A) task_A
           [mkPhaseRow "A" 1 0 0; mkPhaseRow "A" 1 1 10]
           [mkPhaseRow "A" 1 0 10; mkPhaseRow "A" 1 1 20] 5);
    try reflexivity.
  discriminate.
Defined.

(** C5, refuted as stated: the example has two phases, and the index 5,
    outside [0, 2), gives a window, that of the last phase. *)
Lemma task_phase_window_past_the_end :
  df_phases (loop_trace (example_events task_A)) (TaskTID task_A)
  = Ok [(0, 10); (10, 10)]
  /\ task_phase_window (loop_trace (example_events task_A)) (TaskTID task_A) 5
     = Ok (mkPhaseWindow 5 10 20)
  /\ task_phase_window (loop_trace (example_events task_A)) (TaskTID task_A)
       (- 4)
     = Ok (mkPhaseWindow (- 4) 0 10).
Proof. repeat split. Qed.

(** C6, as the code has it: for [-N <= k <= -1] the windows of [k] and of
    [k + N] have the same start and the same end; the id of a window is
    the index as it was requested, so the two windows differ in their
    id. *)
Theorem task_phase_window_negative_index (self : Trace) (task : TaskArg)
  (tid : TaskID) (starts ends : list PhaseRow) (k : Z) :
  get_task_id self task = Ok tid ->
  df_rtapp_phases_start self (TaskTID tid) = Ok starts ->
  df_rtapp_phases_end self (TaskTID tid) = Ok ends ->
  length starts = length ends ->
  - Z.of_nat (length starts) <= k <= -1 ->
  task_phase_window self task k
  = fmap (fun w => mkPhaseWindow k (pw_start w) (pw_end w))
      (task_phase_window self task (k + Z.of_nat (length starts))).
Proof.
  intros Hid Hs He Hlen Hk.
  unfold task_phase_window, df_rtapp_phase_start, df_rtapp_phase_end.
  rewrite (get_task_phase_negative _ _ _ _ _ k Hid (or_introl eq_refl) Hs Hk).
  rewrite (get_task_phase_negative _ _ _ _ _ k Hid (or_intror eq_refl) He)
    by (rewrite <- Hlen; exact Hk).
  rewrite <- Hlen.
  destruct (_get_task_phase self "start" task _) as [s | e1];
    [| reflexivity].
  destruct (_get_task_phase self "end" task _) as [e | e2]; reflexivity.
Qed.

Lemma task_phase_window_negative_index_witness :
  task_phase_window (loop_trace (example_events task_A)) (TaskTID task_A) (- 1)
  = fmap (fun w => mkPhaseWindow (- 1) (pw_start w) (pw_end w))
      (task_phase_window (loop_trace (example_events task_A)) (TaskTID task_A)
         (- 1 + Z.of_nat 2)).
Proof.
  apply (task_phase_window_negative_index
           (loop_trace (example_events task_A)) (TaskTID task_A) task_A
           [mkPhaseRow "A" 1 0 0; mkPhaseRow "A" 1 1 10]
           [mkPhaseRow "A" 1 0 10; mkPhaseRow "A" 1 1 20] (- 1));
    try reflexivity.
  simpl. lia.
Defined.

(** C6, refuted as stated: on the two phases of the example the window
    of -1 carries the id -1 and the window of 1 the id 1. *)
Lemma task_phase_window_keeps_requested_id :
  task_phase_window (loop_trace (example_events task_A)) (TaskTID task_A) (- 1)
  = Ok (mkPhaseWindow (- 1) 10 20)
  /\ task_phase_window (loop_trace (example_events task_A)) (TaskTID task_A) 1
     = Ok (mkPhaseWindow 1 10 20)
  /\ task_phase_window (loop_trace (example_events task_A)) (TaskTID task_A)
       (- 1)
     <> task_phase_window (loop_trace (example_events task_A))
          (TaskTID task_A) 1.
Proof. repeat split. discriminate. Qed.

(** ** Errors on missing input *)

Lemma task_filtered_incl {R} (pid_col : R -> Z) (comm_col : R -> string)
  (self : Trace) (df rows : list R) (task : TaskArg) :
  _task_filtered pid_col comm_col self df task = Ok rows -> incl rows df.
Proof.
  unfold _task_filtered. destruct (negb (truthy task)).
  - intros H. injection H as <-. apply incl_refl.
  - intros H. apply bind_Ok_inv in H. destruct H as (tid & _ & H).
    destruct (negb (existsb (TaskID_eqb tid) (rtapp_tasks self)));
      [discriminate H |].
    injection H as <-. unfold df_filter_task_ids.
    intros r Hr. apply filter_In in Hr. apply Hr.
Qed.

Lemma task_filtered_unknown {R} (pid_col : R -> Z) (comm_col : R -> string)
  (self : Trace) (df : list R) (tid : TaskID) :
  existsb (TaskID_eqb tid) (rtapp_tasks self) = false ->
  _task_filtered pid_col comm_col self df (TaskTID tid) = Raise "ValueError".
Proof.
  intros H. unfold _task_filtered. simpl. rewrite H. reflexivity.
Qed.

(** *** What the methods may raise *)

Lemma raises_only_Ok {A} (self : Trace) (a : A) : raises_only self (Ok a).
Proof. intros e H. discriminate H. Qed.

Lemma raises_only_own {A} (self : Trace) (e : string) :
  In e own_errors -> raises_only self (@Raise A e).
Proof. intros Hin e' H. injection H as <-. left. exact Hin. Qed.

Lemma raises_only_get_task_id (self : Trace) (task : TaskArg) :
  raises_only self (get_task_id self task).
Proof. intros e H. right. exists task. exact H. Qed.

Lemma raises_only_bind {A B} (self : Trace) (m : PyResult A)
  (k : A -> PyResult B) :
  raises_only self m -> (forall a, raises_only self (k a)) ->
  raises_only self (x <- m ;; k x).
Proof.
  intros Hm Hk. destruct m as [a | e]; simpl; [apply Hk |].
  intros e' H. injection H as <-. apply (Hm e eq_refl).
Qed.

Lemma raises_only_first_value {A} (self : Trace) (l : list A) :
  raises_only self (first_value l).
Proof.
  destruct l; [apply raises_only_own; simpl; tauto | apply raises_only_Ok].
Qed.

Lemma raises_only_last_value {A} (self : Trace) (l : list A) :
  raises_only self (last_value l).
Proof.
  unfold last_value.
  destruct (rev l); [apply raises_only_own; simpl; tauto | apply raises_only_Ok].
Qed.

Lemma raises_only_set_column {A B} (self : Trace) (df : list A)
  (values : list B) :
  raises_only self (set_column df values).
Proof.
  unfold set_column. destruct (Nat.eqb (length values) (length df));
    [apply raises_only_Ok | apply raises_only_own; simpl; tauto].
Qed.

Lemma raises_only_loc_comm (self : Trace) (c : string) (df : list PhaseRow) :
  raises_only self (loc_comm c df).
Proof.
  unfold loc_comm. destruct (filter _ df);
    [apply raises_only_own; simpl; tauto | apply raises_only_Ok].
Qed.

Lemma raises_only_task_filtered {R} (pid_col : R -> Z) (comm_col : R -> string)
  (self : Trace) (df : list R) (task : TaskArg) :
  raises_only self (_task_filtered pid_col comm_col self df task).
Proof.
  unfold _task_filtered.
  destruct (negb (truthy task)); [apply raises_only_Ok |].
  apply raises_only_bind.
  - destruct task; try apply raises_only_get_task_id. apply raises_only_Ok.
  - intros tid. destruct (negb (existsb (TaskID_eqb tid) (rtapp_tasks self)));
      [apply raises_only_own; simpl; tauto | apply raises_only_Ok].
Qed.

Lemma raises_only_get_rtapp_phases (self : Trace) (event_ : string)
  (task : TaskArg) :
  raises_only self (_get_rtapp_phases self event_ task).
Proof.
  unfold _get_rtapp_phases. apply raises_only_bind.
  - apply raises_only_task_filtered.
  - intros df. apply raises_only_Ok.
Qed.

Lemma raises_only_get_task_phase (self : Trace) (event_ : string)
  (task : TaskArg) (k : Z) :
  raises_only self (_get_task_phase self event_ task k).
Proof.
  unfold _get_task_phase. apply raises_only_bind.
  - apply raises_only_get_task_id.
  - intros tid. apply raises_only_bind.
    + destruct (event_ =? "start")%string;
        [apply raises_only_get_rtapp_phases |].
      destruct (event_ =? "end")%string;
        [apply raises_only_get_rtapp_phases |].
      apply raises_only_own. simpl. tauto.
    + intros df. cbv zeta. apply raises_only_bind.
      * apply raises_only_loc_comm.
      * intros rows. apply raises_only_first_value.
Qed.

Lemma raises_only_task_phase_window (self : Trace) (task : TaskArg) (k : Z) :
  raises_only self (task_phase_window self task k).
Proof.
  unfold task_phase_window, df_rtapp_phase_start, df_rtapp_phase_end.
  apply raises_only_bind; [apply raises_only_get_task_phase |].
  intros s. apply raises_only_bind; [apply raises_only_get_task_phase |].
  intros e. apply raises_only_Ok.
Qed.

Lemma raises_only_df_phases (self : Trace) (task : TaskArg) :
  raises_only self (df_phases self task).
Proof.
  unfold df_phases. apply raises_only_bind.
  - apply raises_only_task_filtered.
  - intros loops_df. unfold df_phases_of_loops. cbv zeta.
    apply raises_only_bind; [apply raises_only_set_column |].
    intros df. apply raises_only_Ok.
Qed.

Lemma raises_only_task_phase_at (self : Trace) (task : TaskArg) (t : Z) :
  raises_only self (task_phase_at self task t).
Proof.
  unfold task_phase_at.
  apply raises_only_bind; [apply raises_only_df_phases |]. intros ref.
  apply raises_only_bind; [apply raises_only_last_value |]. intros li.
  apply raises_only_bind; [apply raises_only_last_value |]. intros ld.
  cbv zeta. destruct (li + ld <? t); [apply raises_only_Ok |].
  apply raises_only_bind; [apply raises_only_df_phases |]. intros table.
  destruct (_ <? 0); [apply raises_only_Ok |].
  apply raises_only_bind; [apply raises_only_task_phase_window |].
  intros w. apply raises_only_Ok.
Qed.

Lemma raises_only_tasks_window (self : Trace) (task : TaskArg) :
  raises_only self (tasks_window self task).
Proof.
  unfold tasks_window, df_rtapp_task.
  apply raises_only_bind; [apply raises_only_task_filtered |]. intros df.
  apply raises_only_bind; [apply raises_only_first_value |]. intros s.
  apply raises_only_bind; [apply raises_only_first_value |]. intros e.
  apply raises_only_Ok.
Qed.

Lemma raises_only_rtapp_window (self : Trace) :
  raises_only self (rtapp_window self).
Proof.
  unfold rtapp_window. cbv zeta.
  apply raises_only_bind; [apply raises_only_first_value |]. intros s.
  apply raises_only_bind; [apply raises_only_first_value |]. intros e.
  apply raises_only_Ok.
Qed.

Lemma raises_only_not {A} (self : Trace) (m : PyResult A) (e : string) :
  raises_only self m -> ~ In e own_errors ->
  (forall task, get_task_id self task <> Raise e) ->
  m <> Raise e.
Proof.
  intros Hm Hown Hid H. destruct (Hm e H) as [Hin | (task & Ht)].
  - exact (Hown Hin).
  - exact (Hid task Ht).
Qed.

Lemma resolve_among_raises (ids : list TaskID) (task : TaskArg) (e : string) :
  resolve_among ids task = Raise e -> e = "ValueError"%string.
Proof.
  destruct task as [| p | c | tid]; simpl.
  - intros H. injection H as <-. reflexivity.
  - destruct (find _ ids); intros H; [discriminate H |].
    injection H as <-. reflexivity.
  - destruct (find _ ids); intros H; [discriminate H |].
    injection H as <-. reflexivity.
  - discriminate.
Qed.

Lemma EmptyInputError_not_own : ~ In "EmptyInputError"%string own_errors.
Proof. simpl. intuition discriminate. Qed.

(** C9, as the code has it, on a trace whose tables hold events: no
    method raises an [EmptyInputError], whatever is missing. A task that
    is not an rt-app task of the trace is refused with the [ValueError]
    of [_task_filtered]; a table without the row that is read surfaces as
    the error of the access itself, [IndexError] in [tasks_window] and
    [rtapp_window], [KeyError] in [task_phase_window]. *)
Theorem missing_input_errors (self : Trace) (unknown known : TaskID)
  (task : TaskArg) (task_df : list MarkRow) (k t : Z) :
  events_present self ->
  (forall task', get_task_id self task' <> Raise "EmptyInputError") ->
  (rtapp_window self <> Raise "EmptyInputError"
   /\ tasks_window self task <> Raise "EmptyInputError"
   /\ df_phases self task <> Raise "EmptyInputError"
   /\ task_phase_windows self task <> Raise "EmptyInputError"
   /\ task_phase_window self task k <> Raise "EmptyInputError"
   /\ task_phase_at self task t <> Raise "EmptyInputError"
   /\ df_rtapp_stats self task <> Raise "EmptyInputError")
  /\ (existsb (TaskID_eqb unknown) (rtapp_tasks self) = false ->
      tasks_window self (TaskTID unknown) = Raise "ValueError"
      /\ df_phases self (TaskTID unknown) = Raise "ValueError")
  /\ (df_rtapp_task self task = Ok task_df ->
      filter (fun r => (m_event r =? "start")%string) task_df = [] ->
      tasks_window self task = Raise "IndexError")
  /\ (filter (fun r => (m_event r =? "start")%string) (rtapp_main self) = [] ->
      rtapp_window self = Raise "IndexError")
  /\ (get_task_id self task = Ok known ->
      df_rtapp_phases_start self (TaskTID known) = Ok [] ->
      task_phase_window self task k = Raise "KeyError").
Proof.
  intros _ Hid.
  assert (Hnot : forall A (m : PyResult A),
             raises_only self m -> m <> Raise "EmptyInputError").
  { intros A m Hm.
    exact (raises_only_not self m _ Hm EmptyInputError_not_own Hid). }
  split; [| split; [| split; [| split]]].
  - repeat split; apply Hnot.
    + apply raises_only_rtapp_window.
    + apply raises_only_tasks_window.
    + apply raises_only_df_phases.
    + unfold task_phase_windows. apply raises_only_bind;
        [apply raises_only_df_phases | intros; apply raises_only_Ok].
    + apply raises_only_task_phase_window.
    + apply raises_only_task_phase_at.
    + apply raises_only_task_filtered.
  - intros Hunknown. split.
    + unfold tasks_window, df_rtapp_task.
      rewrite task_filtered_unknown by assumption. reflexivity.
    + unfold df_phases, df_rtapp_loop.
      rewrite task_filtered_unknown by assumption. reflexivity.
  - intros Hdf Hnone. unfold tasks_window. rewrite Hdf. cbn [bind].
    rewrite Hnone. reflexivity.
  - intros Hnone. unfold rtapp_window, df_rtapp_main. rewrite Hnone.
    reflexivity.
  - intros Hknown Hs. unfold task_phase_window, df_rtapp_phase_start.
    rewrite (get_task_phase_eq _ _ _ _ _ _ Hknown (or_introl eq_refl) Hs).
    reflexivity.
Qed.

Lemma missing_input_errors_witness :
  tasks_window sparse_trace (TaskTID test_task_0) = Raise "ValueError"
  /\ df_phases sparse_trace (TaskTID test_task_0) = Raise "ValueError"
  /\ tasks_window sparse_trace (TaskTID task_A) = Raise "IndexError"
  /\ rtapp_window sparse_trace = Raise "IndexError"
  /\ task_phase_window sparse_trace (TaskTID task_A) 0 = Raise "KeyError"
  /\ task_phase_at sparse_trace (TaskTID task_A) 5 <> Raise "EmptyInputError".
Proof.
  assert (Hpresent : events_present sparse_trace)
    by (repeat split; discriminate).
  assert (Hid : forall task',
             get_task_id sparse_trace task' <> Raise "EmptyInputError").
  { intros task' H.
    pose proof (resolve_among_raises [mkTaskID 10 "rt-app"; task_A] task' _ H)
      as E.
    discriminate E. }
  destruct (missing_input_errors sparse_trace test_task_0 task_A
              (TaskTID task_A) [mkMark 7 "A" 1 "end"] 0 5 Hpresent Hid)
    as (Hnever & Hunknown & Htask & Hmain & Hphase).
  destruct (Hunknown eq_refl) as [Hu1 Hu2].
  exact (conj Hu1 (conj Hu2 (conj (Htask eq_refl eq_refl)
           (conj (Hmain eq_refl) (conj (Hphase eq_refl eq_refl)
              (proj1 (proj2 (proj2 (proj2 (proj2 (proj2 Hnever))))))))))).
Defined.

(** C9, refuted as stated, on a trace whose tables all hold events:
    [rtapp_main] has no start event and [rtapp_window] raises
    [IndexError]; task A has no start event in [rtapp_task] and
    [tasks_window] raises [IndexError]; it starts no phase and
    [task_phase_window] raises [KeyError]; for a task the trace does not
    know [tasks_window] raises [ValueError]. None of these is an
    [EmptyInputError]. *)
Lemma missing_rows_raise_access_errors :
  events_present sparse_trace
  /\ rtapp_window sparse_trace = Raise "IndexError"
  /\ rtapp_window sparse_trace <> Raise "EmptyInputError"
  /\ tasks_window sparse_trace (TaskTID task_A) = Raise "IndexError"
  /\ task_phase_window sparse_trace (TaskTID task_A) 0 = Raise "KeyError"
  /\ existsb (TaskID_eqb test_task_0) (rtapp_tasks sparse_trace) = false
  /\ tasks_window sparse_trace (TaskTID test_task_0) = Raise "ValueError"
  /\ tasks_window sparse_trace (TaskTID test_task_0)
     <> Raise "EmptyInputError".
Proof. repeat split; discriminate. Qed.

(** ** The performance index *)

Lemma int64_sub_in_range (a b : Z) :
  - 2 ^ 63 <= a - b < 2 ^ 63 -> int64_sub a b = a - b.
Proof.
  unfold int64_sub, int64_wrap.
  change (2 ^ 63) with 9223372036854775808.
  change (2 ^ 64) with 18446744073709551616.
  intros H. rewrite Z.mod_small; lia.
Qed.

(** A float64 division by zero raises nothing: the quotient is an
    infinity or a NaN. *)
Lemma div_zero_not_finite (x : float) : is_finite (x / 0)%float = false.
Proof.
  unfold is_finite, is_nan, is_infinity.
  rewrite !FloatAxioms.eqb_spec, abs_spec, div_spec.
  change (Prim2SF 0) with (S754_zero false).
  change (Prim2SF infinity) with (S754_infinity false).
  destruct (Prim2SF x) as [s | s | | s m e]; try reflexivity;
    destruct s; reflexivity.
Qed.

Lemma map_stats_get_stats (self : Trace) :
  map stats (_get_stats self) = rtapp_stats self.
Proof.
  unfold _get_stats. rewrite map_map. simpl. apply map_id.
Qed.

(** C10: [_get_stats] keeps every [rtapp_stats] event, in order, and
    gives it as [perf_index] the float64 quotient of its [slack] by the
    [int64] difference of its [c_period] and [c_run], which is
    [c_period - c_run] unless that overflows; [df_rtapp_stats] returns
    these rows, all of them or those of the task. The division is not
    guarded: when [c_period = c_run] the call does not fail and the
    value is an infinity or a NaN. *)
Theorem perf_index_is_quotient (self : Trace) (task : TaskArg)
  (df : list PerfRow) :
  df_rtapp_stats self task = Ok df ->
  map stats (_get_stats self) = rtapp_stats self
  /\ (forall row, In row (_get_stats self) ->
        perf_index row
        = (float_of_int64 (slack (stats row))
           / float_of_int64 (int64_sub (c_period (stats row))
                               (c_run (stats row))))%float
        /\ (- 2 ^ 63 <= c_period (stats row) - c_run (stats row) < 2 ^ 63 ->
            int64_sub (c_period (stats row)) (c_run (stats row))
            = c_period (stats row) - c_run (stats row))
        /\ (c_period (stats row) = c_run (stats row) ->
            is_finite (perf_index row) = false))
  /\ incl df (_get_stats self)
  /\ (truthy task = false -> df = _get_stats self)
  /\ (forall tid, task = TaskTID tid ->
        df = filter (fun row => (s_pid (stats row) =? pid tid)
                                && (s_comm (stats row) =? comm tid)%string)
               (_get_stats self)).
Proof.
  intros Hdf. split; [apply map_stats_get_stats |]. split; [| split; [| split]].
  - intros row Hin. unfold _get_stats in Hin. apply in_map_iff in Hin.
    destruct Hin as (r & <- & _). simpl. unfold truediv.
    split; [reflexivity |]. split; [apply int64_sub_in_range |].
    intros ->. rewrite int64_sub_in_range
      by (rewrite Z.sub_diag; split; [discriminate | reflexivity]).
    rewrite Z.sub_diag. apply div_zero_not_finite.
  - eapply task_filtered_incl. exact Hdf.
  - intros Hnone. unfold df_rtapp_stats, _task_filtered in Hdf.
    rewrite Hnone in Hdf. simpl in Hdf. injection Hdf as <-. reflexivity.
  - intros tid ->. apply (task_filtered_rows _ _ _ _ _ _ Hdf).
Qed.

Lemma perf_index_is_quotient_witness :
  perf_index (mkPerf (mkStats 4 "A" 1 1 4 1) 0x1.5555555555555p-2)
  = (float_of_int64 1 / float_of_int64 (int64_sub 4 1))%float
  /\ df_rtapp_stats stats_trace (TaskTID task_A)
     = Ok [ mkPerf (mkStats 3 "A" 1 20 100 60) 0.5;
            mkPerf (mkStats 4 "A" 1 1 4 1) 0x1.5555555555555p-2 ].
Proof.
  assert (Hdf : df_rtapp_stats stats_trace (TaskTID task_A)
                = Ok [ mkPerf (mkStats 3 "A" 1 20 100 60) 0.5;
                       mkPerf (mkStats 4 "A" 1 1 4 1) 0x1.5555555555555p-2 ])
    by reflexivity.
  split; [| exact Hdf].
  destruct (perf_index_is_quotient stats_trace (TaskTID task_A) _ Hdf)
    as (_ & Hrows & _).
  apply (Hrows (mkPerf (mkStats 4 "A" 1 1 4 1) 0x1.5555555555555p-2)).
  right. left. reflexivity.
Defined.

(** ** [task_phase_window] against [task_phase_windows] *)

(** C8 (the code departs from it): on a valid sequence, one phase run in
    two iterations of the thread loop, the only window
    [task_phase_windows] yields is (0, 20, 30), since [df_phases] keeps
    the last start event with [phase_loop = 0], while
    [task_phase_window] returns (0, 0, 30), since [_get_rtapp_phases]
    keeps the first one. *)
Theorem task_phase_window_differs_from_windows :
  valid_events (two_thread_loops task_A) = true
  /\ df_rtapp_loop (loop_trace (two_thread_loops task_A)) (TaskTID task_A)
     = Ok (two_thread_loops task_A)
  /\ task_phase_windows (loop_trace (two_thread_loops task_A)) (TaskTID task_A)
     = Ok [mkPhaseWindow 0 20 30]
  /\ task_phase_window (loop_trace (two_thread_loops task_A)) (TaskTID task_A) 0
     = Ok (mkPhaseWindow 0 0 30)
  /\ df_rtapp_phases_start (loop_trace (two_thread_loops task_A))
       (TaskTID task_A)
     = Ok [mkPhaseRow "A" 1 0 0].
Proof. repeat split. Qed.

(** ** Groups of rows: the last row against the first row after a sort *)

Section Groups.

Context {A : Type} (same : A -> A -> bool).

Hypothesis same_refl : forall a, same a a = true.
Hypothesis same_sym : forall a b, same a b = same b a.
Hypothesis same_trans :
  forall a b c, same a b = true -> same b c = true -> same a c = true.

Lemma existsb_same_trans (x y : A) (l : list A) :
  same x y = true -> existsb (same y) l = true -> existsb (same x) l = true.
Proof.
  intros Hxy H. apply existsb_exists in H. destruct H as (z & Hz & Hyz).
  apply existsb_exists. exists z. split; [exact Hz |].
  eapply same_trans; eassumption.
Qed.

Lemma existsb_same_filter (P : A -> bool) (x : A) (l : list A) :
  (forall a b, same a b = true -> P a = P b) ->
  P x = true ->
  existsb (same x) (filter P l) = existsb (same x) l.
Proof.
  intros HP Hx. induction l as [| y rest IH]; simpl; [reflexivity |].
  destruct (P y) eqn:Hy; simpl.
  - rewrite IH. reflexivity.
  - destruct (same x y) eqn:Hxy.
    + apply HP in Hxy. congruence.
    + exact IH.
Qed.

Lemma drop_duplicates_last_filter (P : A -> bool) (l : list A) :
  (forall a b, same a b = true -> P a = P b) ->
  filter P (drop_duplicates_last same l)
  = drop_duplicates_last same (filter P l).
Proof.
  intros HP. induction l as [| x rest IH]; simpl; [reflexivity |].
  destruct (P x) eqn:Hx.
  - simpl. rewrite (existsb_same_filter P x rest HP Hx).
    destruct (existsb (same x) rest); simpl; [exact IH |].
    rewrite Hx, IH. reflexivity.
  - destruct (existsb (same x) rest); simpl; [exact IH |].
    rewrite Hx. exact IH.
Qed.

Lemma drop_duplicates_last_representative (l : list A) (y : A) :
  In y l -> exists x, In x (drop_duplicates_last same l) /\ same y x = true.
Proof.
  revert y. induction l as [| x0 rest IH]; intros y; simpl; [intros [] |].
  intros Hy. destruct (existsb (same x0) rest) eqn:Hex.
  - destruct Hy as [-> | Hy]; [| exact (IH y Hy)].
    apply existsb_exists in Hex. destruct Hex as (z & Hz & Hyz).
    destruct (IH z Hz) as (x & Hx & Hzx).
    exists x. split; [exact Hx |]. eapply same_trans; eassumption.
  - destruct Hy as [-> | Hy].
    + exists y. split; [left; reflexivity | apply same_refl].
    + destruct (IH y Hy) as (x & Hx & Hyx). exists x. split; [right |]; auto.
Qed.

Lemma drop_duplicates_last_NoDup (l : list A) :
  NoDup (drop_duplicates_last same l).
Proof.
  induction l as [| x rest IH]; simpl; [constructor |].
  destruct (existsb (same x) rest) eqn:Hex; [exact IH |].
  constructor; [| exact IH].
  intros Hin. apply drop_duplicates_last_In in Hin.
  assert (existsb (same x) rest = true).
  { apply existsb_exists. exists x. split; [exact Hin | apply same_refl]. }
  congruence.
Qed.

Lemma drop_duplicates_last_all (P : A -> bool) (l : list A) :
  Forall (fun a => P a = true) (drop_duplicates_last same l) ->
  drop_duplicates_last same l = drop_duplicates_last same (filter P l).
Proof.
  induction l as [| x rest IH]; simpl; [reflexivity |].
  destruct (existsb (same x) rest) eqn:Hex; intros Hall.
  - destruct (P x) eqn:Hx; [| exact (IH Hall)].
    simpl.
    assert (Hex' : existsb (same x) (filter P rest) = true).
    { apply existsb_exists in Hex. destruct Hex as (z & Hz & Hxz).
      destruct (drop_duplicates_last_representative rest z Hz)
        as (x' & Hx' & Hzx').
      apply existsb_exists. exists x'. split.
      - apply filter_In. split.
        + eapply drop_duplicates_last_In, Hx'.
        + rewrite Forall_forall in Hall. apply Hall, Hx'.
      - eapply same_trans; eassumption. }
    rewrite Hex'. exact (IH Hall).
  - inversion Hall as [| ? ? Hx Hrest]; subst.
    rewrite Hx. simpl.
    assert (Hex' : existsb (same x) (filter P rest) = false).
    { apply not_true_is_false. intros H. apply existsb_exists in H.
      destruct H as (z & Hz & Hxz). apply filter_In in Hz.
      assert (existsb (same x) rest = true)
        by (apply existsb_exists; exists z; tauto).
      congruence. }
    rewrite Hex'. f_equal. exact (IH Hrest).
Qed.

Lemma drop_duplicates_last_distinct (l : list A) :
  ForallOrdPairs (fun a b => same a b = false) l ->
  drop_duplicates_last same l = l.
Proof.
  induction 1 as [| x rest Hx _ IH]; simpl; [reflexivity |].
  assert (Hex : existsb (same x) rest = false).
  { apply not_true_is_false. intros H. apply existsb_exists in H.
    destruct H as (z & Hz & Hxz). rewrite Forall_forall in Hx.
    rewrite (Hx z Hz) in Hxz. discriminate. }
  rewrite Hex, IH. reflexivity.
Qed.

Lemma groupby_head1_from_unseen (seen l : list A) (x : A) :
  In x (groupby_head1_from same seen l) -> existsb (same x) seen = false.
Proof.
  revert seen. induction l as [| z rest IH]; intros seen; simpl; [intros [] |].
  destruct (existsb (same z) seen) eqn:Hex.
  - apply IH.
  - intros [<- | Hin]; [exact Hex |].
    apply IH in Hin. simpl in Hin. apply orb_false_elim in Hin. apply Hin.
Qed.

Lemma groupby_head1_from_NoDup (seen l : list A) :
  NoDup (groupby_head1_from same seen l).
Proof.
  revert seen. induction l as [| z rest IH]; intros seen; simpl;
    [constructor |].
  destruct (existsb (same z) seen); [apply IH |].
  constructor; [| apply IH].
  intros Hin. apply groupby_head1_from_unseen in Hin. simpl in Hin.
  rewrite same_refl in Hin. discriminate.
Qed.

Lemma groupby_head1_from_representative (seen l : list A) (y : A) :
  In y l -> existsb (same y) seen = false ->
  exists x, In x (groupby_head1_from same seen l) /\ same y x = true.
Proof.
  revert seen. induction l as [| z rest IH]; intros seen; simpl;
    [intros [] |].
  intros Hy Hun. destruct (existsb (same z) seen) eqn:Hex.
  - destruct Hy as [-> | Hy]; [congruence |]. apply IH; assumption.
  - destruct Hy as [-> | Hy].
    + exists y. split; [left; reflexivity | apply same_refl].
    + destruct (same y z) eqn:Hyz.
      * exists z. split; [left; reflexivity | exact Hyz].
      * destruct (IH (z :: seen) Hy) as (x & Hx & Hyx).
        { simpl. rewrite Hyz, Hun. reflexivity. }
        exists x. split; [right; exact Hx | exact Hyx].
Qed.

(** In a sorted frame the row [groupby(...).head(1)] takes for a group
    comes before every row of the group. *)
Lemma groupby_head1_from_least (R : A -> A -> Prop) (seen l : list A)
  (x y : A) :
  (forall a, R a a) ->
  StronglySorted R l ->
  In x (groupby_head1_from same seen l) ->
  In y l -> same x y = true -> R x y.
Proof.
  intros Rrefl. revert seen.
  induction l as [| z rest IH]; intros seen Hs; simpl; [intros [] |].
  inversion Hs as [| ? ? Hrest Hall]; subst.
  rewrite Forall_forall in Hall.
  destruct (existsb (same z) seen) eqn:Hex.
  - intros Hx [-> | Hy] Hxy.
    + apply groupby_head1_from_unseen in Hx.
      rewrite (existsb_same_trans x y seen Hxy Hex) in Hx. discriminate.
    + eapply IH; eassumption.
  - intros [<- | Hx] [<- | Hy] Hxy.
    + apply Rrefl.
    + apply Hall, Hy.
    + apply groupby_head1_from_unseen in Hx. simpl in Hx.
      rewrite Hxy in Hx. discriminate.
    + eapply IH; eassumption.
Qed.

Variable before : A -> A -> bool.

Hypothesis before_asym : forall a b, before a b = true -> before b a = false.
Hypothesis not_before_trans :
  forall a b c,
    before b a = false -> before c b = false -> before c a = false.

Lemma insert_stable_sorted (x : A) (l : list A) :
  StronglySorted (fun a b => before b a = false) l ->
  StronglySorted (fun a b => before b a = false) (insert_stable before x l).
Proof.
  induction l as [| y rest IH]; simpl; intros Hs.
  - repeat constructor.
  - inversion Hs as [| ? ? Hrest Hall]; subst.
    destruct (before y x) eqn:Hyx.
    + constructor; [apply IH, Hrest |].
      rewrite Forall_forall in *. intros z Hz.
      apply (Permutation_in _ (insert_stable_Permutation before x rest)) in Hz.
      destruct Hz as [<- | Hz]; [apply before_asym, Hyx | apply Hall, Hz].
    + constructor; [exact Hs |].
      constructor; [exact Hyx |].
      rewrite Forall_forall in *. intros z Hz.
      eapply not_before_trans; [exact Hyx | apply Hall, Hz].
Qed.

Lemma sort_stable_sorted (l : list A) :
  StronglySorted (fun a b => before b a = false) (sort_stable before l).
Proof.
  induction l as [| x rest IH]; simpl.
  - constructor.
  - apply insert_stable_sorted, IH.
Qed.

(** When, inside a group, a later row always sorts before an earlier
    one, the first rows of the groups after the sort are the last rows
    of the groups before it. *)
Lemma first_sorted_is_last (l : list A) :
  ForallOrdPairs (fun a b => same a b = true -> before b a = true) l ->
  Permutation (groupby_head1 same (sort_stable before l))
    (drop_duplicates_last same l).
Proof.
  intros Hgrow.
  assert (Hirr : forall a, before a a = false).
  { intros a. destruct (before a a) eqn:E; [| reflexivity].
    rewrite (before_asym _ _ E) in E. discriminate. }
  assert (Hlast : forall x y,
             In x (drop_duplicates_last same l) -> In y l ->
             same x y = true -> y = x \/ before x y = true).
  { intros x y Hx Hy Hxy.
    apply drop_duplicates_last_split in Hx.
    destruct Hx as (l1 & l2 & -> & Hl2).
    apply in_app_or in Hy. destruct Hy as [Hy | [<- | Hy]].
    - right. apply in_split in Hy. destruct Hy as (m1 & m2 & ->).
      rewrite <- app_assoc in Hgrow. simpl in Hgrow.
      clear Hl2. induction m1 as [| a m1 IHm]; simpl in Hgrow.
      + inversion Hgrow as [| ? ? Hall _]; subst.
        rewrite Forall_forall in Hall. apply Hall.
        * apply in_or_app. right. left. reflexivity.
        * rewrite same_sym. exact Hxy.
      + inversion Hgrow; subst. apply IHm. assumption.
    - left. reflexivity.
    - assert (existsb (same x) l2 = true)
        by (apply existsb_exists; exists y; tauto).
      congruence. }
  assert (Hfirst : forall x y,
             In x (groupby_head1 same (sort_stable before l)) -> In y l ->
             same x y = true -> before y x = false).
  { intros x y Hx Hy Hxy.
    apply (groupby_head1_from_least (fun a b => before b a = false)
             [] (sort_stable before l) x y Hirr (sort_stable_sorted l) Hx);
      [| exact Hxy].
    apply (Permutation_in _ (Permutation_sym (sort_stable_Permutation before l))).
    exact Hy. }
  assert (Hsub : forall x,
             In x (groupby_head1 same (sort_stable before l)) -> In x l).
  { intros x Hx. apply groupby_head1_from_In in Hx.
    apply (Permutation_in _ (sort_stable_Permutation before l)). exact Hx. }
  apply NoDup_Permutation.
  - apply groupby_head1_from_NoDup.
  - apply drop_duplicates_last_NoDup.
  - intros x'. split.
    + intros Hx'.
      destruct (drop_duplicates_last_representative l x' (Hsub x' Hx'))
        as (x & Hx & Hsame).
      destruct (Hlast x x' Hx (Hsub x' Hx')) as [-> | Hb].
      * rewrite same_sym. exact Hsame.
      * exact Hx.
      * rewrite (Hfirst x' x Hx' (drop_duplicates_last_In _ _ _ Hx) Hsame)
          in Hb.
        discriminate.
    + intros Hx.
      pose proof (drop_duplicates_last_In _ _ _ Hx) as Hxl.
      destruct (groupby_head1_from_representative [] (sort_stable before l) x')
        as (x & Hxg & Hsame).
      * apply (Permutation_in _
                 (Permutation_sym (sort_stable_Permutation before l))).
        exact Hxl.
      * reflexivity.
      * destruct (Hlast x' x Hx (Hsub x Hxg) Hsame) as [-> | Hb].
        -- exact Hxg.
        -- rewrite same_sym in Hsame.
           rewrite (Hfirst x x' Hxg Hxl Hsame) in Hb. discriminate.
Qed.

End Groups.

(** ** Sorted frames *)

Lemma existsb_ext_in {A} (f g : A -> bool) (l : list A) :
  (forall a, In a l -> f a = g a) -> existsb f l = existsb g l.
Proof.
  induction l as [| x rest IH]; simpl; intros H; [reflexivity |].
  rewrite (H x) by (left; reflexivity).
  rewrite IH by (intros a Ha; apply H; right; exact Ha). reflexivity.
Qed.

Lemma drop_duplicates_last_ext_in {A} (same1 same2 : A -> A -> bool)
  (l : list A) :
  (forall a b, In a l -> In b l -> same1 a b = same2 a b) ->
  drop_duplicates_last same1 l = drop_duplicates_last same2 l.
Proof.
  induction l as [| x rest IH]; simpl; intros H; [reflexivity |].
  rewrite (existsb_ext_in (same1 x) (same2 x) rest)
    by (intros a Ha; apply H; [left; reflexivity | right; exact Ha]).
  rewrite IH by (intros a b Ha Hb; apply H; right; assumption).
  reflexivity.
Qed.

Lemma groupby_head1_from_ext_in {A} (same1 same2 : A -> A -> bool)
  (seen l : list A) :
  (forall a b, In a (seen ++ l) -> In b (seen ++ l) ->
               same1 a b = same2 a b) ->
  groupby_head1_from same1 seen l = groupby_head1_from same2 seen l.
Proof.
  revert seen. induction l as [| x rest IH]; intros seen H; simpl;
    [reflexivity |].
  rewrite (existsb_ext_in (same1 x) (same2 x) seen).
  - rewrite (IH seen), (IH (x :: seen)); [reflexivity | |].
    + intros a b Ha Hb. apply H; apply in_app_iff.
      * simpl in Ha. rewrite in_app_iff in Ha. simpl. tauto.
      * simpl in Hb. rewrite in_app_iff in Hb. simpl. tauto.
    + intros a b Ha Hb. apply H; apply in_app_iff.
      * rewrite in_app_iff in Ha. simpl. tauto.
      * rewrite in_app_iff in Hb. simpl. tauto.
  - intros a Ha. apply H; apply in_app_iff; simpl; tauto.
Qed.

Lemma groupby_head1_from_distinct {A} (same : A -> A -> bool)
  (seen l : list A) :
  (forall a b, same a b = same b a) ->
  ForallOrdPairs (fun a b => same a b = false) l ->
  Forall (fun x => existsb (same x) seen = false) l ->
  groupby_head1_from same seen l = l.
Proof.
  intros Hsym Hpairs. revert seen.
  induction Hpairs as [| x rest Hx _ IH]; intros seen Hseen; simpl;
    [reflexivity |].
  inversion Hseen as [| ? ? Hxs Hrs]; subst.
  rewrite Hxs. f_equal. apply IH.
  rewrite Forall_forall in *. intros y Hy. simpl.
  rewrite Hsym, (Hx y Hy). simpl. apply Hrs, Hy.
Qed.

Lemma insert_stable_first {A} (before : A -> A -> bool) (x : A) (l : list A) :
  Forall (fun y => before y x = false) l ->
  insert_stable before x l = x :: l.
Proof.
  intros H. destruct l as [| y rest]; simpl; [reflexivity |].
  inversion H as [| ? ? Hy _]; subst. rewrite Hy. reflexivity.
Qed.

Lemma sort_stable_time_sorted (l : list LoopRow) :
  StronglySorted Z.le (map Time l) -> sort_stable time_asc l = l.
Proof.
  induction l as [| x rest IH]; simpl; intros Hs; [reflexivity |].
  inversion Hs as [| ? ? Hrest Hall]; subst.
  rewrite (IH Hrest). apply insert_stable_first.
  rewrite Forall_forall in *. intros y Hy. unfold time_asc.
  apply Z.ltb_ge. apply Hall. apply in_map. exact Hy.
Qed.

Lemma sort_stable_time_asc_sorted (l : list LoopRow) :
  StronglySorted Z.le (map Time (sort_stable time_asc l)).
Proof.
  assert (H : StronglySorted (fun a b => time_asc b a = false)
                (sort_stable time_asc l)).
  { apply sort_stable_sorted; unfold time_asc; intros.
    - apply Z.ltb_ge. apply Z.ltb_lt in H. lia.
    - apply Z.ltb_ge. apply Z.ltb_ge in H, H0. lia. }
  induction H as [| x rest _ IH Hall]; simpl; constructor.
  - exact IH.
  - rewrite Forall_forall in *. intros t Ht.
    apply in_map_iff in Ht. destruct Ht as (y & <- & Hy).
    specialize (Hall y Hy). unfold time_asc in Hall.
    apply Z.ltb_ge in Hall. exact Hall.
Qed.

Lemma StronglySorted_filter {A} (R : Z -> Z -> Prop) (label : A -> Z)
  (f : A -> bool) (l : list A) :
  StronglySorted R (map label l) ->
  StronglySorted R (map label (filter f l)).
Proof.
  induction l as [| x rest IH]; simpl; intros Hs; [constructor |].
  inversion Hs as [| ? ? Hrest Hall]; subst.
  destruct (f x); simpl; [| apply IH, Hrest].
  constructor; [apply IH, Hrest |].
  rewrite Forall_forall in *. intros t Ht.
  apply in_map_iff in Ht. destruct Ht as (y & <- & Hy).
  apply filter_In in Hy. apply Hall, in_map, Hy.
Qed.

(** Two sorted lists with the same elements are equal. *)
Lemma sorted_Permutation_eq (l1 l2 : list Z) :
  StronglySorted Z.le l1 -> StronglySorted Z.le l2 ->
  Permutation l1 l2 -> l1 = l2.
Proof.
  revert l2. induction l1 as [| x rest IH]; intros l2 H1 H2 Hp.
  - apply Permutation_nil in Hp. symmetry. exact Hp.
  - destruct l2 as [| y rest2].
    + apply Permutation_sym, Permutation_nil in Hp. discriminate Hp.
    + inversion H1 as [| ? ? Hr1 Ha1]; subst.
      inversion H2 as [| ? ? Hr2 Ha2]; subst.
      rewrite Forall_forall in Ha1, Ha2.
      assert (Hxy : x = y).
      { assert (Hy : In y (x :: rest))
          by (apply (Permutation_in _ (Permutation_sym Hp)); left; reflexivity).
        assert (Hx : In x (y :: rest2))
          by (apply (Permutation_in _ Hp); left; reflexivity).
        destruct Hy as [E | Hy]; [exact E |].
        destruct Hx as [E | Hx]; [symmetry; exact E |].
        specialize (Ha1 y Hy). specialize (Ha2 x Hx). lia. }
      subst y. f_equal. apply IH; try assumption.
      eapply Permutation_cons_inv. exact Hp.
Qed.

Lemma filter_filter {A} (f g : A -> bool) (l : list A) :
  filter f (filter g l) = filter (fun x => g x && f x) l.
Proof.
  induction l as [| x rest IH]; simpl; [reflexivity |].
  destruct (g x); simpl; [destruct (f x) |]; rewrite IH; reflexivity.
Qed.

Lemma ForallOrdPairs_filter {A} (P : A -> A -> Prop) (f : A -> bool)
  (l : list A) :
  ForallOrdPairs P l -> ForallOrdPairs P (filter f l).
Proof.
  induction 1 as [| x rest Hx _ IH]; simpl; [constructor |].
  destruct (f x); [| exact IH].
  constructor; [| exact IH].
  rewrite Forall_forall in *. intros y Hy. apply filter_In in Hy.
  apply Hx, Hy.
Qed.

(** ** First start events and end events among the kept rows *)

Lemma same_kept_refl (a : LoopRow) : same_kept a a = true.
Proof.
  unfold same_kept, same_mark. rewrite !Z.eqb_refl. reflexivity.
Qed.


Lemma same_kept_eq (a b : LoopRow) :
  same_kept a b = true <->
  phase a = phase b /\ keep_first_start a = keep_first_start b.
Proof.
  unfold same_kept, same_mark, mark_of. simpl.
  rewrite andb_true_iff, !Z.eqb_eq. reflexivity.
Qed.

Lemma same_kept_trans (a b c : LoopRow) :
  same_kept a b = true -> same_kept b c = true -> same_kept a c = true.
Proof.
  rewrite !same_kept_eq. intros [H1 H2] [H3 H4]. split; congruence.
Qed.

Lemma same_phase_refl (a : LoopRow) : same_phase a a = true.
Proof. apply Z.eqb_refl. Qed.

Lemma same_phase_sym (a b : LoopRow) : same_phase a b = same_phase b a.
Proof. apply Z.eqb_sym. Qed.

Lemma same_phase_trans (a b c : LoopRow) :
  same_phase a b = true -> same_phase b c = true -> same_phase a c = true.
Proof.
  unfold same_phase. rewrite !Z.eqb_eq. congruence.
Qed.

Lemma first_start_kept_as_start (r : LoopRow) :
  is_first_start r = true -> kept_as_start r = true.
Proof.
  unfold is_first_start, kept_as_start, keep_first_start.
  intros H. apply andb_prop in H. destruct H as [Hev Hloop].
  apply String.eqb_eq in Hev. rewrite Hloop, Hev. reflexivity.
Qed.

Lemma end_not_kept_as_start (r : LoopRow) :
  is_end r = true -> kept_as_start r = false.
Proof.
  unfold is_end, kept_as_start, keep_first_start. intros ->.
  destruct (negb (phase_loop r =? 0)); reflexivity.
Qed.

Lemma same_kept_kept_as_start (a b : LoopRow) :
  same_kept a b = true -> kept_as_start a = kept_as_start b.
Proof.
  rewrite same_kept_eq. unfold kept_as_start. intros [_ ->]. reflexivity.
Qed.

Lemma ForallOrdPairs_impl_in {A} (P Q : A -> A -> Prop) (l : list A) :
  (forall a b, In a l -> In b l -> P a b -> Q a b) ->
  ForallOrdPairs P l -> ForallOrdPairs Q l.
Proof.
  intros H Hp. induction Hp as [| x rest Hx _ IH]; [constructor |].
  constructor.
  - rewrite Forall_forall in *. intros y Hy.
    apply H; [left; reflexivity | right; exact Hy | apply Hx, Hy].
  - apply IH. intros a b Ha Hb. apply H; right; assumption.
Qed.

Lemma one_first_start_from_pairs (starts : list LoopRow) :
  one_first_start_from starts = true ->
  ForallOrdPairs (fun a b => same_phase a b = false) starts.
Proof.
  induction starts as [| x rest IH]; simpl; intros H; [constructor |].
  apply andb_prop in H. destruct H as [Hx Hrest].
  constructor; [| apply IH, Hrest].
  apply negb_true_iff in Hx. rewrite Forall_forall. intros y Hy.
  apply not_true_is_false. intros Hxy.
  assert (existsb (same_phase x) rest = true)
    by (apply existsb_exists; exists y; tauto).
  congruence.
Qed.

Lemma ends_grow_pairs (loops_df : list LoopRow) :
  ends_grow loops_df = true ->
  ForallOrdPairs
    (fun a b => is_end a = true -> is_end b = true ->
                same_phase a b = true -> counters_desc b a = true)
    loops_df.
Proof.
  induction loops_df as [| x rest IH]; simpl; intros H; [constructor |].
  apply andb_prop in H. destruct H as [Hx Hrest].
  constructor; [| apply IH, Hrest].
  rewrite forallb_forall in Hx. rewrite Forall_forall. intros y Hy Ha Hb Hp.
  specialize (Hx y Hy). rewrite Ha, Hb, Hp in Hx. exact Hx.
Qed.

(** Kept rows that pair up: the rows kept as a start are the rows of
    even rank, the others the rows of odd rank, and the table is made of
    the times of the ones and of the others. *)
Lemma well_paired_table (rows : list LoopRow) :
  well_paired rows = true ->
  pair_up (map Time rows)
  = map (fun se => (fst se, snd se - fst se))
      (combine (map Time (filter kept_as_start rows))
         (map Time (filter (fun r => negb (kept_as_start r)) rows)))
  /\ Forall (fun r => is_first_start r = true) (filter kept_as_start rows)
  /\ Forall (fun r => is_end r = true)
       (filter (fun r => negb (kept_as_start r)) rows)
  /\ length (filter kept_as_start rows)
     = length (filter (fun r => negb (kept_as_start r)) rows).
Proof.
  induction rows as [| s | s e rest IH] using list_pair_ind; intros H.
  - repeat split; constructor.
  - discriminate H.
  - simpl in H. apply andb_prop in H. destruct H as [H Hrest].
    apply andb_prop in H. destruct H as [Hs He].
    destruct (IH Hrest) as (Hw & Hfs & Hfe & Hlen).
    simpl filter.
    rewrite (first_start_kept_as_start s Hs), (end_not_kept_as_start e He).
    simpl. repeat split.
    + rewrite Hw. reflexivity.
    + constructor; assumption.
    + constructor; assumption.
    + rewrite Hlen. reflexivity.
Qed.

Lemma counters_desc_spec (a b : LoopRow) :
  counters_desc a b = true <->
  phase_loop b < phase_loop a
  \/ (phase_loop b = phase_loop a /\ thread_loop b < thread_loop a).
Proof.
  unfold counters_desc.
  rewrite orb_true_iff, andb_true_iff, !Z.ltb_lt, Z.eqb_eq. reflexivity.
Qed.

Lemma counters_desc_asym (a b : LoopRow) :
  counters_desc a b = true -> counters_desc b a = false.
Proof.
  intros H. apply not_true_is_false. intros H'.
  rewrite counters_desc_spec in H, H'. lia.
Qed.

Lemma counters_desc_not_trans (a b c : LoopRow) :
  counters_desc b a = false -> counters_desc c b = false ->
  counters_desc c a = false.
Proof.
  intros H1 H2. apply not_true_is_false. intros H3.
  apply not_true_iff_false in H1, H2.
  rewrite counters_desc_spec in H1, H2, H3. lia.
Qed.

(** The rows kept as a start are the first start events, when no phase
    has two of them. *)
Lemma kept_starts (loops_df : list LoopRow) :
  well_paired (kept_rows loops_df) = true ->
  one_first_start loops_df = true ->
  filter kept_as_start (kept_rows loops_df) = filter is_first_start loops_df.
Proof.
  intros Hwp Hone.
  destruct (well_paired_table _ Hwp) as (_ & Hfs & _ & _).
  unfold kept_rows in *.
  rewrite (drop_duplicates_last_filter same_kept) in *
    by (exact same_kept_kept_as_start).
  rewrite (drop_duplicates_last_all same_kept same_kept_refl same_kept_trans
             is_first_start _ Hfs).
  rewrite filter_filter.
  rewrite (filter_ext (fun x => kept_as_start x && is_first_start x)
             is_first_start).
  - apply drop_duplicates_last_distinct.
    apply one_first_start_from_pairs in Hone.
    eapply ForallOrdPairs_impl_in; [| exact Hone].
    intros a b _ _ Hab. simpl in Hab. apply not_true_is_false. intros Hk.
    apply same_kept_eq in Hk. destruct Hk as [Hp _].
    unfold same_phase in Hab. apply Z.eqb_neq in Hab. contradiction.
  - intros r. destruct (is_first_start r) eqn:E.
    + rewrite (first_start_kept_as_start r E). reflexivity.
    + apply andb_false_r.
Qed.

(** The other kept rows are, phase by phase, the last end event, which
    is the end event of greatest counters when the counters grow. *)
Lemma kept_ends (loops_df : list LoopRow) (tid : TaskID) :
  Forall (fun r => __pid r = pid tid /\ __comm r = comm tid) loops_df ->
  non_decreasing (map Time loops_df) = true ->
  well_paired (kept_rows loops_df) = true ->
  ends_grow loops_df = true ->
  map Time
    (sort_stable time_asc
       (groupby_head1 same_group
          (sort_stable counters_desc (filter is_end loops_df))))
  = map Time (filter (fun r => negb (kept_as_start r)) (kept_rows loops_df)).
Proof.
  intros Htask Hord Hwp Hgrow.
  destruct (well_paired_table _ Hwp) as (_ & _ & Hfe & _).
  apply non_decreasing_StronglySorted in Hord.
  assert (Hends : forall r, In r (filter is_end loops_df) ->
                    is_end r = true /\ __pid r = pid tid
                    /\ __comm r = comm tid).
  { intros r Hr. apply filter_In in Hr. destruct Hr as [Hr He].
    rewrite Forall_forall in Htask. split; [exact He | apply Htask, Hr]. }
  (* the right-hand side *)
  unfold kept_rows in *.
  rewrite (drop_duplicates_last_filter same_kept) in *
    by (intros a b Hab; f_equal; apply same_kept_kept_as_start, Hab).
  rewrite (drop_duplicates_last_all same_kept same_kept_refl same_kept_trans
             is_end _ Hfe).
  rewrite filter_filter.
  rewrite (filter_ext (fun x => negb (kept_as_start x) && is_end x) is_end)
    by (intros r; destruct (is_end r) eqn:E;
        [rewrite (end_not_kept_as_start r E); reflexivity
        | apply andb_false_r]).
  rewrite (drop_duplicates_last_ext_in same_kept same_phase).
  2:{ intros a b Ha Hb.
      destruct (Hends a Ha) as (Ea & _). destruct (Hends b Hb) as (Eb & _).
      apply end_not_kept_as_start in Ea, Eb.
      unfold same_kept, same_mark, mark_of, same_phase. simpl.
      unfold is_end, keep_first_start in *.
      destruct (Hends a Ha) as (Ea' & _). destruct (Hends b Hb) as (Eb' & _).
      unfold is_end in Ea', Eb'. rewrite Ea', Eb'.
      destruct (negb (phase_loop a =? 0)), (negb (phase_loop b =? 0));
        apply andb_true_r. }
  (* the left-hand side *)
  unfold groupby_head1.
  rewrite (groupby_head1_from_ext_in same_group same_phase).
  2:{ intros a b Ha Hb. simpl in Ha, Hb.
      apply (Permutation_in _ (sort_stable_Permutation _ _)) in Ha, Hb.
      destruct (Hends a Ha) as (Ea & Pa & Ca).
      destruct (Hends b Hb) as (Eb & Pb & Cb).
      unfold same_group, same_phase, is_end in *.
      apply String.eqb_eq in Ea, Eb.
      rewrite Ca, Cb, Pa, Pb, Ea, Eb, String.eqb_refl, Z.eqb_refl.
      simpl. apply andb_true_r. }
  apply sorted_Permutation_eq.
  - apply sort_stable_time_asc_sorted.
  - apply StronglySorted_drop_duplicates_last, StronglySorted_filter, Hord.
  - apply Permutation_map.
    eapply perm_trans; [apply sort_stable_Permutation |].
    apply (first_sorted_is_last same_phase
             same_phase_refl same_phase_sym same_phase_trans
             counters_desc counters_desc_asym counters_desc_not_trans).
    apply ends_grow_pairs in Hgrow.
    eapply ForallOrdPairs_impl_in;
      [| apply ForallOrdPairs_filter; exact Hgrow].
    intros a b Ha Hb H Hp. simpl in H.
    apply H; [apply (Hends a Ha) | apply (Hends b Hb) | exact Hp].
Qed.

Lemma well_paired_even (rows : list LoopRow) :
  well_paired rows = true -> Nat.even (length rows) = true.
Proof.
  induction rows as [| s | s e rest IH] using list_pair_ind; simpl.
  - reflexivity.
  - discriminate.
  - intros H. apply andb_prop in H. apply IH, H.
Qed.

Lemma same_group_sym (a b : LoopRow) : same_group a b = same_group b a.
Proof.
  unfold same_group.
  rewrite (String.eqb_sym (__comm a)), (Z.eqb_sym (__pid a)),
    (Z.eqb_sym (phase a)), (String.eqb_sym (event a)).
  reflexivity.
Qed.

Lemma same_group_same_phase (a b : LoopRow) :
  same_group a b = true -> same_phase a b = true.
Proof.
  unfold same_group, same_phase. intros H.
  apply andb_prop in H. destruct H as [H _].
  apply andb_prop in H. apply H.
Qed.

Lemma nth_error_paired (ss es : list Z) (i : nat) (s d : Z) :
  nth_error (map (fun se : Z * Z => (fst se, snd se - fst se))
               (combine ss es)) i = Some (s, d) ->
  s = nth i ss 0 /\ d = nth i es 0 - s
  /\ (i < length ss)%nat /\ (i < length es)%nat.
Proof.
  revert es i.
  induction ss as [| s0 ss IH]; intros es i H.
  - destruct i; discriminate H.
  - destruct es as [| e es]; [destruct i; discriminate H |].
    destruct i as [| i]; simpl in H.
    + injection H as <- <-. simpl. repeat split; lia.
    + apply IH in H. destruct H as (-> & -> & H1 & H2). simpl.
      repeat split; lia.
Qed.

Lemma get_task_phase_in_range (self : Trace) (event_ : string)
  (task : TaskArg) (tid : TaskID) (df : list PhaseRow) (k : Z) :
  get_task_id self task = Ok tid ->
  event_ = "start"%string \/ event_ = "end"%string ->
  _get_rtapp_phases self event_ (TaskTID tid) = Ok df ->
  0 <= k < Z.of_nat (length df) ->
  _get_task_phase self event_ task k
  = Ok (nth (Z.to_nat k) (map p_Time df) 0).
Proof.
  intros Hid Hev Hdf Hk.
  rewrite (get_task_phase_eq _ _ _ _ _ _ Hid Hev Hdf).
  destruct df as [| r rest] eqn:E; [simpl in Hk; lia |].
  rewrite <- E in *.
  assert (Hne : map p_Time df <> []) by (rewrite E; discriminate).
  pose proof (head_tail_cases (map p_Time df) k Hne) as (H & _).
  cbv zeta in H. apply H. rewrite length_map. exact Hk.
Qed.

(** The frames of the first start events and of the last end events of
    a task, read off the rows [df_phases] keeps. *)
Lemma phases_frames_of_kept (self : Trace) (tid : TaskID)
  (loops_df : list LoopRow) :
  df_rtapp_loop self (TaskTID tid) = Ok loops_df ->
  non_decreasing (map Time loops_df) = true ->
  well_paired (kept_rows loops_df) = true ->
  one_first_start loops_df = true ->
  ends_grow loops_df = true ->
  exists starts ends,
    df_rtapp_phases_start self (TaskTID tid) = Ok starts
    /\ df_rtapp_phases_end self (TaskTID tid) = Ok ends
    /\ map p_Time starts
       = map Time (filter kept_as_start (kept_rows loops_df))
    /\ map p_Time ends
       = map Time (filter (fun r => negb (kept_as_start r))
                     (kept_rows loops_df)).
Proof.
  intros Hloops Hord Hwp Hone Hgrow.
  assert (Htask : Forall (fun r => __pid r = pid tid /\ __comm r = comm tid)
                    loops_df).
  { apply task_filtered_rows in Hloops. rewrite Hloops.
    rewrite Forall_forall. intros r Hr. apply filter_In in Hr.
    destruct Hr as [_ Hr]. apply andb_prop in Hr. destruct Hr as [Hp Hc].
    apply Z.eqb_eq in Hp. apply String.eqb_eq in Hc. auto. }
  unfold df_rtapp_phases_start, df_rtapp_phases_end, _get_rtapp_phases.
  rewrite Hloops. cbn [bind].
  change ("start" =? "start")%string with true.
  change ("end" =? "start")%string with false.
  change ("end" =? "end")%string with true. cbv iota.
  do 2 eexists. split; [reflexivity |]. split; [reflexivity |].
  rewrite !map_map. cbn [p_Time].
  split.
  - rewrite (kept_starts _ Hwp Hone).
    rewrite filter_filter.
    change (fun x : LoopRow => (event x =? "start")%string && (phase_loop x =? 0))
      with is_first_start.
    unfold groupby_head1.
    rewrite groupby_head1_from_distinct.
    + rewrite sort_stable_time_sorted; [reflexivity |].
      apply StronglySorted_filter, non_decreasing_StronglySorted, Hord.
    + exact same_group_sym.
    + apply one_first_start_from_pairs in Hone.
      eapply ForallOrdPairs_impl_in; [| exact Hone].
      intros a b _ _ Hab. simpl in Hab. apply not_true_is_false. intros Hg.
      apply same_group_same_phase in Hg. congruence.
    + apply Forall_forall. intros; reflexivity.
  - change (fun r : LoopRow => (event r =? "end")%string) with is_end.
    apply (kept_ends loops_df tid Htask Hord Hwp Hgrow).
Qed.

(** Beyond the claims: when no phase has two first start events, the
    kept events pair a first start with an end, and the counters of the
    end events of a phase grow with time, [task_phase_window] and
    [df_phases] read the same events: for the row [(s, d)] of rank [i]
    of the table, [task_phase_window] returns the window [(i, s, e)]
    with [d = e - s]. *)
Theorem task_phase_window_agrees (self : Trace) (task : TaskArg)
  (tid : TaskID) (loops_df : list LoopRow) :
  get_task_id self task = Ok tid ->
  df_rtapp_loop self (TaskTID tid) = Ok loops_df ->
  df_rtapp_loop self task = Ok loops_df ->
  loops_df <> [] ->
  non_decreasing (map Time loops_df) = true ->
  well_paired (kept_rows loops_df) = true ->
  one_first_start loops_df = true ->
  ends_grow loops_df = true ->
  exists table,
    df_phases self task = Ok table
    /\ length table = Nat.div2 (length (kept_rows loops_df))
    /\ (forall i s d,
          nth_error table i = Some (s, d) ->
          exists e,
            task_phase_window self task (Z.of_nat i)
            = Ok (mkPhaseWindow (Z.of_nat i) s e)
            /\ d = e - s).
Proof.
  intros Hid Htid Hloops _ Hord Hwp Hone Hgrow.
  destruct (phases_frames_of_kept self tid loops_df Htid Hord Hwp Hone Hgrow)
    as (starts & ends & Hs & He & Hst & Het).
  destruct (well_paired_table _ Hwp) as (Hw & _ & _ & Hlen).
  rewrite (df_phases_eq _ _ _ Hloops), (well_paired_even _ Hwp).
  eexists. split; [reflexivity |]. split.
  { rewrite length_pair_up, length_map. reflexivity. }
  intros i s d Hnth. rewrite Hw in Hnth.
  apply nth_error_paired in Hnth. destruct Hnth as (-> & -> & Hi1 & Hi2).
  rewrite length_map in Hi1, Hi2.
  unfold task_phase_window, df_rtapp_phase_start, df_rtapp_phase_end.
  rewrite (get_task_phase_in_range _ _ _ _ _ _ Hid (or_introl eq_refl) Hs).
  2:{ rewrite <- (length_map p_Time), Hst, length_map. lia. }
  rewrite (get_task_phase_in_range _ _ _ _ _ _ Hid (or_intror eq_refl) He).
  2:{ rewrite <- (length_map p_Time), Het, length_map. lia. }
  cbn [bind]. rewrite Hst, Het, Nat2Z.id.
  eexists. split; reflexivity.
Qed.

Lemma task_phase_window_agrees_witness :
  exists table,
    df_phases (loop_trace (example_events task_A)) (TaskTID task_A) = Ok table
    /\ length table = Nat.div2 (length (kept_rows (example_events task_A)))
    /\ (forall i s d,
          nth_error table i = Some (s, d) ->
          exists e,
            task_phase_window (loop_trace (example_events task_A))
              (TaskTID task_A) (Z.of_nat i)
            = Ok (mkPhaseWindow (Z.of_nat i) s e)
            /\ d = e - s).
Proof.
  apply (task_phase_window_agrees (loop_trace (example_events task_A))
           (TaskTID task_A) task_A (example_events task_A));
    try reflexivity.
  discriminate.
Defined.








(** * More of the module *)

(** ** The first row of a group *)

Section FirstOfGroup.

Context {A : Type} (same : A -> A -> bool).

Hypothesis same_trans :
  forall a b c, same a b = true -> same b c = true -> same a c = true.

(** [groupby(...).head(1)] takes a row exactly when no row before it is
    of its group. *)
Lemma groupby_head1_from_split (seen l : list A) (x : A) :
  In x (groupby_head1_from same seen l) <->
  exists l1 l2,
    l = l1 ++ x :: l2
    /\ existsb (same x) seen = false /\ existsb (same x) l1 = false.
Proof.
  revert seen. induction l as [| z rest IH]; intros seen; simpl.
  - split; [intros [] | intros (l1 & l2 & H & _); destruct l1; discriminate H].
  - destruct (existsb (same z) seen) eqn:Hz.
    + rewrite IH. split.
      * intros (l1 & l2 & -> & Hs & Hl). exists (z :: l1), l2.
        repeat split; [exact Hs |]. simpl. rewrite Hl.
        destruct (same x z) eqn:Hxz; [| reflexivity].
        apply existsb_exists in Hz. destruct Hz as (y & Hy & Hzy).
        assert (existsb (same x) seen = true).
        { apply existsb_exists. exists y. split; [exact Hy |].
          eapply same_trans; eassumption. }
        congruence.
      * intros (l1 & l2 & H & Hs & Hl). destruct l1 as [| z' l1]; simpl in H.
        -- injection H as -> ->. congruence.
        -- injection H as -> ->. simpl in Hl.
           apply orb_false_elim in Hl. exists l1, l2. tauto.
    + simpl. rewrite IH. split.
      * intros [-> | (l1 & l2 & -> & Hs & Hl)].
        -- exists [], rest. auto.
        -- simpl in Hs. apply orb_false_elim in Hs. destruct Hs as [Hxz Hs].
           exists (z :: l1), l2. repeat split; [exact Hs |].
           simpl. rewrite Hxz, Hl. reflexivity.
      * intros (l1 & l2 & H & Hs & Hl). destruct l1 as [| z' l1]; simpl in H.
        -- injection H as -> ->. left. reflexivity.
        -- injection H as -> ->. simpl in Hl.
           apply orb_false_elim in Hl. destruct Hl as [Hxz Hl].
           right. exists l1, l2. repeat split; [| exact Hl].
           simpl. rewrite Hxz, Hs. reflexivity.
Qed.

Lemma groupby_head1_from_pairs (seen l : list A) :
  ForallOrdPairs (fun a b => same b a = false)
    (groupby_head1_from same seen l).
Proof.
  revert seen. induction l as [| z rest IH]; intros seen; simpl;
    [constructor |].
  destruct (existsb (same z) seen); [apply IH |].
  constructor; [| apply IH].
  rewrite Forall_forall. intros b Hb.
  apply groupby_head1_from_unseen in Hb. simpl in Hb.
  apply orb_false_elim in Hb. apply Hb.
Qed.

End FirstOfGroup.

Lemma drop_duplicates_last_pairs {A} (same : A -> A -> bool) (l : list A) :
  ForallOrdPairs (fun a b => same a b = false) (drop_duplicates_last same l).
Proof.
  induction l as [| x rest IH]; simpl; [constructor |].
  destruct (existsb (same x) rest) eqn:Hex; [exact IH |].
  constructor; [| exact IH].
  rewrite Forall_forall. intros y Hy. apply drop_duplicates_last_In in Hy.
  apply not_true_is_false. intros Hxy.
  assert (existsb (same x) rest = true)
    by (apply existsb_exists; exists y; tauto).
  congruence.
Qed.

Lemma ForallOrdPairs_NoDup_map {A K} (key : A -> K) (l : list A) :
  ForallOrdPairs (fun a b => key a <> key b) l -> NoDup (map key l).
Proof.
  induction 1 as [| x rest Hx _ IH]; simpl; constructor; [| exact IH].
  intros Hin. apply in_map_iff in Hin. destruct Hin as (y & Hk & Hy).
  rewrite Forall_forall in Hx. apply (Hx y Hy). symmetry. exact Hk.
Qed.

Lemma filter_split {A} (f : A -> bool) (l l1 l2 : list A) (x : A) :
  filter f l = l1 ++ x :: l2 ->
  exists e la,
    l = e ++ x :: la /\ filter f e = l1 /\ filter f la = l2 /\ f x = true.
Proof.
  revert l1. induction l as [| y rest IH]; intros l1 H; simpl in H.
  - destruct l1; discriminate H.
  - destruct (f y) eqn:Hy.
    + destruct l1 as [| y' l1]; simpl in H.
      * injection H as -> <-. exists [], rest. auto.
      * injection H as -> H. destruct (IH l1 H) as (e & la & -> & <- & <- & Hx).
        exists (y' :: e), la. simpl. rewrite Hy. auto.
    + destruct (IH l1 H) as (e & la & -> & <- & <- & Hx).
      exists (y :: e), la. simpl. rewrite Hy. auto.
Qed.

(** ** The frames of the phases' starts and ends *)

Lemma task_loops_rows (self : Trace) (tid : TaskID) (loops_df : list LoopRow) :
  df_rtapp_loop self (TaskTID tid) = Ok loops_df ->
  Forall (fun r => __pid r = pid tid /\ __comm r = comm tid) loops_df.
Proof.
  intros Hloops. apply task_filtered_rows in Hloops. rewrite Hloops.
  rewrite Forall_forall. intros r Hr. apply filter_In in Hr.
  destruct Hr as [_ Hr]. apply andb_prop in Hr. destruct Hr as [Hp Hc].
  apply Z.eqb_eq in Hp. apply String.eqb_eq in Hc. auto.
Qed.

Lemma same_group_task (a b : LoopRow) :
  __pid a = __pid b -> __comm a = __comm b -> event a = event b ->
  same_group a b = same_phase a b.
Proof.
  intros Hp Hc He. unfold same_group, same_phase.
  rewrite Hp, Hc, He, String.eqb_refl, Z.eqb_refl, String.eqb_refl.
  simpl. apply andb_true_r.
Qed.

Lemma same_group_trans (a b c : LoopRow) :
  same_group a b = true -> same_group b c = true -> same_group a c = true.
Proof.
  unfold same_group.
  rewrite !andb_true_iff, !String.eqb_eq, !Z.eqb_eq.
  intros (((H1 & H2) & H3) & H4) (((H5 & H6) & H7) & H8).
  repeat split; congruence.
Qed.

Lemma phases_start_unfold (self : Trace) (tid : TaskID)
  (loops_df : list LoopRow) :
  df_rtapp_loop self (TaskTID tid) = Ok loops_df ->
  df_rtapp_phases_start self (TaskTID tid)
  = Ok (map (fun r => mkPhaseRow (__comm r) (__pid r) (phase r) (Time r))
          (sort_stable time_asc
             (groupby_head1 same_group (filter is_first_start loops_df)))).
Proof.
  intros Hloops. unfold df_rtapp_phases_start, _get_rtapp_phases.
  rewrite Hloops. cbn [bind].
  change ("start" =? "start")%string with true. cbv iota.
  rewrite filter_filter. reflexivity.
Qed.

Lemma phases_end_unfold (self : Trace) (tid : TaskID)
  (loops_df : list LoopRow) :
  df_rtapp_loop self (TaskTID tid) = Ok loops_df ->
  df_rtapp_phases_end self (TaskTID tid)
  = Ok (map (fun r => mkPhaseRow (__comm r) (__pid r) (phase r) (Time r))
          (sort_stable time_asc
             (groupby_head1 same_phase
                (sort_stable counters_desc (filter is_end loops_df))))).
Proof.
  intros Hloops. pose proof (task_loops_rows _ _ _ Hloops) as Htask.
  unfold df_rtapp_phases_end, _get_rtapp_phases.
  rewrite Hloops. cbn [bind].
  change ("end" =? "start")%string with false.
  change ("end" =? "end")%string with true. cbv iota.
  change (fun r : LoopRow => (event r =? "end")%string) with is_end.
  unfold groupby_head1.
  rewrite (groupby_head1_from_ext_in same_group same_phase); [reflexivity |].
  assert (Hends : forall r,
             In r (sort_stable counters_desc (filter is_end loops_df)) ->
             event r = "end"%string /\ __pid r = pid tid
             /\ __comm r = comm tid).
  { intros r Hr.
    apply (Permutation_in _ (sort_stable_Permutation _ _)) in Hr.
    apply filter_In in Hr. destruct Hr as [Hr He].
    rewrite Forall_forall in Htask. split; [| apply Htask, Hr].
    apply String.eqb_eq. exact He. }
  intros a b Ha Hb. simpl in Ha, Hb.
  destruct (Hends a Ha) as (Ea & Pa & Ca).
  destruct (Hends b Hb) as (Eb & Pb & Cb).
  apply same_group_task; congruence.
Qed.

(** Beyond the claims: the frame of the phases' starts is ordered by
    time and has one row for every phase that has a start event with
    [phase_loop = 0], the first such event of the phase in the trace. *)
Theorem phases_start_frame (self : Trace) (tid : TaskID)
  (loops_df : list LoopRow) :
  df_rtapp_loop self (TaskTID tid) = Ok loops_df ->
  exists starts,
    df_rtapp_phases_start self (TaskTID tid) = Ok starts
    /\ StronglySorted Z.le (map p_Time starts)
    /\ NoDup (map p_phase starts)
    /\ (forall r,
          In r starts <->
          exists earlier raw later,
            loops_df = earlier ++ raw :: later
            /\ is_first_start raw = true
            /\ r = mkPhaseRow (__comm raw) (__pid raw) (phase raw) (Time raw)
            /\ Forall (fun r' => is_first_start r' = true ->
                                 phase r' <> phase raw) earlier).
Proof.
  intros Hloops. pose proof (task_loops_rows _ _ _ Hloops) as Htask.
  rewrite Forall_forall in Htask.
  rewrite (phases_start_unfold _ _ _ Hloops).
  eexists. split; [reflexivity |].
  assert (Hstart : forall r, In r (filter is_first_start loops_df) ->
                     event r = "start"%string /\ __pid r = pid tid
                     /\ __comm r = comm tid).
  { intros r Hr. apply filter_In in Hr. destruct Hr as [Hr Hf].
    split; [| apply Htask, Hr].
    apply andb_prop in Hf. apply String.eqb_eq, Hf. }
  split; [| split].
  - rewrite map_map. cbn [p_Time]. apply sort_stable_time_asc_sorted.
  - rewrite map_map. cbn [p_phase].
    eapply Permutation_NoDup.
    + apply Permutation_map, Permutation_sym, sort_stable_Permutation.
    + apply ForallOrdPairs_NoDup_map.
      eapply ForallOrdPairs_impl_in;
        [| apply (groupby_head1_from_pairs same_group)].
      intros a b Ha Hb Hab. simpl in Hab.
      apply groupby_head1_from_In in Ha, Hb.
      destruct (Hstart a Ha) as (Ea & Pa & Ca).
      destruct (Hstart b Hb) as (Eb & Pb & Cb).
      rewrite same_group_task in Hab by congruence.
      unfold same_phase in Hab. apply Z.eqb_neq in Hab. congruence.
  - intros r. rewrite in_map_iff. split.
    + intros (raw & <- & Hraw).
      apply (Permutation_in _ (sort_stable_Permutation _ _)) in Hraw.
      apply (groupby_head1_from_split same_group same_group_trans) in Hraw.
      destruct Hraw as (l1 & l2 & Hsplit & _ & Hun).
      destruct (filter_split _ _ _ _ _ Hsplit)
        as (e & la & Hl & He & _ & Hf).
      exists e, raw, la. repeat split; try assumption.
      rewrite Forall_forall. intros r' Hr' Hf' Hp.
      assert (Hin : In r' l1).
      { rewrite <- He. apply filter_In. split; assumption. }
      assert (Hs : same_group raw r' = true).
      { assert (Hraw : In raw (filter is_first_start loops_df)).
        { rewrite Hsplit. apply in_or_app. right. left. reflexivity. }
        assert (Hr'' : In r' (filter is_first_start loops_df)).
        { rewrite Hsplit. apply in_or_app. left. exact Hin. }
        destruct (Hstart raw Hraw) as (Ea & Pa & Ca).
        destruct (Hstart r' Hr'') as (Eb & Pb & Cb).
        rewrite same_group_task by congruence.
        unfold same_phase. apply Z.eqb_eq. symmetry. exact Hp. }
      assert (existsb (same_group raw) l1 = true)
        by (apply existsb_exists; exists r'; tauto).
      congruence.
    + intros (earlier & raw & later & Hl & Hf & -> & Hearlier).
      exists raw. split; [reflexivity |].
      apply (Permutation_in _
               (Permutation_sym (sort_stable_Permutation _ _))).
      apply (groupby_head1_from_split same_group same_group_trans).
      exists (filter is_first_start earlier), (filter is_first_start later).
      repeat split.
      * rewrite Hl, filter_app. simpl. rewrite Hf. reflexivity.
      * apply not_true_is_false. intros Hex. apply existsb_exists in Hex.
        destruct Hex as (r' & Hr' & Hs). apply filter_In in Hr'.
        destruct Hr' as [Hr' Hf']. rewrite Forall_forall in Hearlier.
        apply (Hearlier r' Hr' Hf').
        apply same_group_same_phase in Hs. unfold same_phase in Hs.
        apply Z.eqb_eq in Hs. symmetry. exact Hs.
Qed.

Lemma phases_start_frame_witness :
  exists starts,
    df_rtapp_phases_start (loop_trace (example_events task_A)) (TaskTID task_A)
    = Ok starts
    /\ StronglySorted Z.le (map p_Time starts)
    /\ NoDup (map p_phase starts)
    /\ (forall r,
          In r starts <->
          exists earlier raw later,
            example_events task_A = earlier ++ raw :: later
            /\ is_first_start raw = true
            /\ r = mkPhaseRow (__comm raw) (__pid raw) (phase raw) (Time raw)
            /\ Forall (fun r' => is_first_start r' = true ->
                                 phase r' <> phase raw) earlier).
Proof.
  apply (phases_start_frame (loop_trace (example_events task_A)) task_A
           (example_events task_A)).
  reflexivity.
Defined.

(** Beyond the claims: the frame of the phases' ends is ordered by time
    and has one row for every phase that has an end event; the row is an
    end event of the phase that no end event of the phase exceeds in
    ([phase_loop], [thread_loop]). *)
Theorem phases_end_frame (self : Trace) (tid : TaskID)
  (loops_df : list LoopRow) :
  df_rtapp_loop self (TaskTID tid) = Ok loops_df ->
  exists ends,
    df_rtapp_phases_end self (TaskTID tid) = Ok ends
    /\ StronglySorted Z.le (map p_Time ends)
    /\ NoDup (map p_phase ends)
    /\ (forall r,
          In r ends ->
          exists raw,
            In raw loops_df /\ is_end raw = true
            /\ r = mkPhaseRow (__comm raw) (__pid raw) (phase raw) (Time raw)
            /\ (forall raw',
                   In raw' loops_df -> is_end raw' = true ->
                   phase raw' = phase raw -> counters_desc raw' raw = false))
    /\ (forall raw,
          In raw loops_df -> is_end raw = true ->
          exists r, In r ends /\ p_phase r = phase raw).
Proof.
  intros Hloops. rewrite (phases_end_unfold _ _ _ Hloops).
  eexists. split; [reflexivity |].
  set (sorted := sort_stable counters_desc (filter is_end loops_df)).
  assert (Hsorted : forall r, In r sorted <->
                      In r loops_df /\ is_end r = true).
  { intros r. unfold sorted. rewrite <- filter_In. split.
    - apply Permutation_in, sort_stable_Permutation.
    - apply Permutation_in, Permutation_sym, sort_stable_Permutation. }
  split; [| split; [| split]].
  - rewrite map_map. cbn [p_Time]. apply sort_stable_time_asc_sorted.
  - rewrite map_map. cbn [p_phase].
    eapply Permutation_NoDup.
    + apply Permutation_map, Permutation_sym, sort_stable_Permutation.
    + apply ForallOrdPairs_NoDup_map.
      eapply ForallOrdPairs_impl_in;
        [| apply (groupby_head1_from_pairs same_phase)].
      intros a b _ _ Hab. simpl in Hab. unfold same_phase in Hab.
      apply Z.eqb_neq in Hab. congruence.
  - intros r Hr. apply in_map_iff in Hr. destruct Hr as (raw & <- & Hraw).
    apply (Permutation_in _ (sort_stable_Permutation _ _)) in Hraw.
    pose proof (groupby_head1_from_In _ _ _ _ Hraw) as Hin.
    apply Hsorted in Hin. destruct Hin as [Hin He].
    exists raw. repeat split; try assumption.
    intros raw' Hin' He' Hp.
    apply (groupby_head1_from_least same_phase same_phase_trans
             (fun a b => counters_desc b a = false) [] sorted raw raw').
    + intros a. destruct (counters_desc a a) eqn:E; [| reflexivity].
      rewrite (counters_desc_asym _ _ E) in E. discriminate.
    + apply sort_stable_sorted;
        [exact counters_desc_asym | exact counters_desc_not_trans].
    + exact Hraw.
    + apply Hsorted. auto.
    + unfold same_phase. apply Z.eqb_eq. symmetry. exact Hp.
  - intros raw Hin He.
    destruct (groupby_head1_from_representative same_phase same_phase_refl
                [] sorted raw) as (x & Hx & Hs).
    + apply Hsorted. auto.
    + reflexivity.
    + exists (mkPhaseRow (__comm x) (__pid x) (phase x) (Time x)). split.
      * apply in_map_iff. exists x. split; [reflexivity |].
        apply (Permutation_in _
                 (Permutation_sym (sort_stable_Permutation _ _))).
        exact Hx.
      * simpl. unfold same_phase in Hs. apply Z.eqb_eq in Hs.
        symmetry. exact Hs.
Qed.

Lemma phases_end_frame_witness :
  exists ends,
    df_rtapp_phases_end (loop_trace (example_events task_A)) (TaskTID task_A)
    = Ok ends
    /\ StronglySorted Z.le (map p_Time ends)
    /\ NoDup (map p_phase ends)
    /\ (forall r,
          In r ends ->
          exists raw,
            In raw (example_events task_A) /\ is_end raw = true
            /\ r = mkPhaseRow (__comm raw) (__pid raw) (phase raw) (Time raw)
            /\ (forall raw',
                   In raw' (example_events task_A) -> is_end raw' = true ->
                   phase raw' = phase raw -> counters_desc raw' raw = false))
    /\ (forall raw,
          In raw (example_events task_A) -> is_end raw = true ->
          exists r, In r ends /\ p_phase r = phase raw).
Proof.
  apply (phases_end_frame (loop_trace (example_events task_A)) task_A
           (example_events task_A)).
  reflexivity.
Defined.

(** ** The default phases of [df_rtapp_phase_start] and [df_rtapp_phase_end] *)

Lemma get_rtapp_phases_sorted (self : Trace) (event_ : string)
  (task : TaskArg) (df : list PhaseRow) :
  _get_rtapp_phases self event_ task = Ok df ->
  StronglySorted Z.le (map p_Time df).
Proof.
  unfold _get_rtapp_phases. intros H.
  apply bind_Ok_inv in H. destruct H as (loops & _ & H).
  injection H as <-. rewrite map_map. cbn [p_Time].
  apply sort_stable_time_asc_sorted.
Qed.

Lemma sorted_nth_le (l : list Z) (i j : nat) :
  StronglySorted Z.le l ->
  (i <= j < length l)%nat -> nth i l 0 <= nth j l 0.
Proof.
  intros Hs. revert i j.
  induction Hs as [| x rest _ IH Hall]; intros i j Hij;
    [simpl in Hij; lia |].
  destruct j as [| j].
  - replace i with O by lia. simpl. lia.
  - destruct i as [| i]; simpl.
    + rewrite Forall_forall in Hall. apply Hall, nth_In. simpl in Hij. lia.
    + apply IH. simpl in Hij. lia.
Qed.

(** Beyond the claims: with its default phase 0 [df_rtapp_phase_start]
    returns the earliest time of the frame of the phases' starts, and
    with its default phase -1 [df_rtapp_phase_end] returns the latest
    time of the frame of the phases' ends. *)
Theorem phase_start_end_defaults (self : Trace) (task : TaskArg)
  (tid : TaskID) (starts ends : list PhaseRow) :
  get_task_id self task = Ok tid ->
  df_rtapp_phases_start self (TaskTID tid) = Ok starts ->
  df_rtapp_phases_end self (TaskTID tid) = Ok ends ->
  (starts <> [] ->
   exists t,
     df_rtapp_phase_start self task 0 = Ok t
     /\ In t (map p_Time starts)
     /\ Forall (fun t' => t <= t') (map p_Time starts))
  /\ (ends <> [] ->
      exists t,
        df_rtapp_phase_end self task (- 1) = Ok t
        /\ In t (map p_Time ends)
        /\ Forall (fun t' => t' <= t) (map p_Time ends)).
Proof.
  intros Hid Hs He. split; intros Hne.
  - pose proof (get_rtapp_phases_sorted _ _ _ _ Hs) as Hsorted.
    assert (Hlen : (0 < length (map p_Time starts))%nat).
    { rewrite length_map. destruct starts; [contradiction | simpl; lia]. }
    exists (nth 0 (map p_Time starts) 0). split; [| split].
    + unfold df_rtapp_phase_start.
      rewrite (get_task_phase_in_range _ _ _ _ _ 0 Hid (or_introl eq_refl) Hs);
        [reflexivity |].
      rewrite length_map in Hlen. lia.
    + apply nth_In. exact Hlen.
    + rewrite Forall_forall. intros t' Ht'.
      destruct (In_nth _ _ 0 Ht') as (j & Hj & <-).
      apply sorted_nth_le; [exact Hsorted | lia].
  - pose proof (get_rtapp_phases_sorted _ _ _ _ He) as Hsorted.
    assert (Hne' : map p_Time ends <> [])
      by (intros E; apply map_eq_nil in E; contradiction).
    assert (Hlen : (0 < length (map p_Time ends))%nat).
    { rewrite length_map. destruct ends; [contradiction | simpl; lia]. }
    exists (nth (length (map p_Time ends) - 1) (map p_Time ends) 0).
    split; [| split].
    + unfold df_rtapp_phase_end.
      rewrite (get_task_phase_eq _ _ _ _ _ _ Hid (or_intror eq_refl) He).
      pose proof (head_tail_cases (map p_Time ends) (- 1) Hne')
        as (_ & H & _).
      cbv zeta in H. destruct ends as [| r rest]; [contradiction |].
      rewrite H by (simpl length; lia).
      f_equal. f_equal. simpl length. lia.
    + apply nth_In. lia.
    + rewrite Forall_forall. intros t' Ht'.
      destruct (In_nth _ _ 0 Ht') as (j & Hj & <-).
      apply sorted_nth_le; [exact Hsorted | lia].
Qed.

Lemma phase_start_end_defaults_witness :
  ([mkPhaseRow "A" 1 0 0; mkPhaseRow "A" 1 1 10] <> [] ->
   exists t,
     df_rtapp_phase_start (loop_trace (example_events task_A))
       (TaskTID task_A) 0 = Ok t
     /\ In t (map p_Time [mkPhaseRow "A" 1 0 0; mkPhaseRow "A" 1 1 10])
     /\ Forall (fun t' => t <= t')
          (map p_Time [mkPhaseRow "A" 1 0 0; mkPhaseRow "A" 1 1 10]))
  /\ ([mkPhaseRow "A" 1 0 10; mkPhaseRow "A" 1 1 20] <> [] ->
      exists t,
        df_rtapp_phase_end (loop_trace (example_events task_A))
          (TaskTID task_A) (- 1) = Ok t
        /\ In t (map p_Time [mkPhaseRow "A" 1 0 10; mkPhaseRow "A" 1 1 20])
        /\ Forall (fun t' => t' <= t)
             (map p_Time [mkPhaseRow "A" 1 0 10; mkPhaseRow "A" 1 1 20])).
Proof.
  apply (phase_start_end_defaults (loop_trace (example_events task_A))
           (TaskTID task_A) task_A); reflexivity.
Defined.

(** ** The windows of the main thread and of a task *)

Lemma first_value_filter_error {A} (f : A -> Z) (p : A -> bool) (l : list A) :
  first_value (map f (filter p l)) = Raise "IndexError" <->
  (forall r, In r l -> p r = false).
Proof.
  induction l as [| x rest IH]; simpl.
  - split; [intros _ r [] | reflexivity].
  - destruct (p x) eqn:Hx; simpl.
    + split; [discriminate |]. intros H.
      rewrite (H x) in Hx by (left; reflexivity). discriminate.
    + rewrite IH. split.
      * intros H r [<- | Hr]; [exact Hx | apply H, Hr].
      * intros H r Hr. apply H. right. exact Hr.
Qed.

Lemma first_value_filter_ok {A} (f : A -> Z) (p : A -> bool) (l : list A)
  (v : Z) :
  first_value (map f (filter p l)) = Ok v ->
  exists r,
    In r l /\ p r = true /\ f r = v
    /\ (StronglySorted Z.le (map f l) ->
        forall r', In r' l -> p r' = true -> v <= f r').
Proof.
  induction l as [| x rest IH]; simpl; [discriminate |].
  destruct (p x) eqn:Hx; simpl.
  - intros H. injection H as <-. exists x. repeat split; auto.
    intros Hs r' [<- | Hr'] _; [lia |].
    inversion Hs as [| ? ? _ Hall]; subst. rewrite Forall_forall in Hall.
    apply Hall, in_map, Hr'.
  - intros H. destruct (IH H) as (r & Hr & Hp & Hf & Hmin).
    exists r. repeat split; auto.
    intros Hs r' [<- | Hr'] Hp'; [congruence |].
    inversion Hs; subst. apply Hmin; assumption.
Qed.

Lemma first_value_cases {A} (l : list A) :
  first_value l = Raise "IndexError" \/ exists v, first_value l = Ok v.
Proof. destruct l; simpl; eauto. Qed.

(** Beyond the claims: [tasks_window] raises [IndexError] exactly when
    the task has no start event or no end event among its [rtapp_task]
    events; otherwise it returns the time of a start event and the time
    of an end event of the task, the earliest ones when the events are
    ordered by time. It does not compare the two times. *)
Theorem tasks_window_first_events (self : Trace) (task : TaskArg)
  (task_df : list MarkRow) :
  df_rtapp_task self task = Ok task_df ->
  (tasks_window self task = Raise "IndexError" <->
   (forall r, In r task_df -> m_event r <> "start"%string)
   \/ (forall r, In r task_df -> m_event r <> "end"%string))
  /\ (forall s e,
        tasks_window self task = Ok (s, e) ->
        exists rs re,
          In rs task_df /\ m_event rs = "start"%string /\ m_Time rs = s
          /\ In re task_df /\ m_event re = "end"%string /\ m_Time re = e
          /\ (StronglySorted Z.le (map m_Time task_df) ->
              forall r, In r task_df ->
                (m_event r = "start"%string -> s <= m_Time r)
                /\ (m_event r = "end"%string -> e <= m_Time r))).
Proof.
  intros Hdf. unfold tasks_window. rewrite Hdf. cbn [bind].
  pose proof (first_value_filter_error m_Time
                (fun r => (m_event r =? "start")%string) task_df) as Es.
  pose proof (first_value_filter_error m_Time
                (fun r => (m_event r =? "end")%string) task_df) as Ee.
  pose proof (first_value_filter_ok m_Time
                (fun r => (m_event r =? "start")%string) task_df) as Os.
  pose proof (first_value_filter_ok m_Time
                (fun r => (m_event r =? "end")%string) task_df) as Oe.
  destruct (first_value
              (map m_Time
                 (filter (fun r => (m_event r =? "start")%string) task_df)))
    as [s0 | x] eqn:Hs.
  - destruct (first_value
                (map m_Time
                   (filter (fun r => (m_event r =? "end")%string) task_df)))
      as [e0 | y] eqn:He; cbn [bind].
    + split.
      * split; [discriminate |]. intros [H | H].
        -- destruct (Os s0 eq_refl) as (r & Hr & Hp & _).
           apply String.eqb_eq in Hp. destruct (H r Hr Hp).
        -- destruct (Oe e0 eq_refl) as (r & Hr & Hp & _).
           apply String.eqb_eq in Hp. destruct (H r Hr Hp).
      * intros s e H. injection H as <- <-.
        destruct (Os s0 eq_refl) as (rs & Hrs & Hps & Hfs & Hmins).
        destruct (Oe e0 eq_refl) as (re & Hre & Hpe & Hfe & Hmine).
        apply String.eqb_eq in Hps, Hpe.
        exists rs, re. repeat split; auto.
        -- intros E. apply Hmins; auto. apply String.eqb_eq, E.
        -- intros E. apply Hmine; auto. apply String.eqb_eq, E.
    + destruct (first_value_cases
                  (map m_Time
                     (filter (fun r => (m_event r =? "end")%string) task_df)))
        as [E | (v & E)]; [| congruence].
      rewrite He in E. injection E as ->.
      split; [| discriminate].
      split; [| reflexivity]. intros _. right.
      intros r Hr Hev. apply String.eqb_eq in Hev.
      rewrite (proj1 Ee eq_refl r Hr) in Hev. discriminate.
  - destruct (first_value_cases
                (map m_Time
                   (filter (fun r => (m_event r =? "start")%string) task_df)))
      as [E | (v & E)]; [| congruence].
    rewrite Hs in E. injection E as ->. cbn [bind].
    split; [| discriminate].
    split; [| reflexivity]. intros _. left.
    intros r Hr Hev. apply String.eqb_eq in Hev.
    rewrite (proj1 Es eq_refl r Hr) in Hev. discriminate.
Qed.

Lemma tasks_window_first_events_witness :
  (tasks_window
     (mkTrace [] [mkMark 1 "A" 1 "start"; mkMark 9 "A" 1 "end"] [] [] []
        (resolve_among [task_A]))
     (TaskTID task_A) = Raise "IndexError" <->
   (forall r, In r [mkMark 1 "A" 1 "start"; mkMark 9 "A" 1 "end"] ->
              m_event r <> "start"%string)
   \/ (forall r, In r [mkMark 1 "A" 1 "start"; mkMark 9 "A" 1 "end"] ->
                 m_event r <> "end"%string))
  /\ (forall s e,
        tasks_window
          (mkTrace [] [mkMark 1 "A" 1 "start"; mkMark 9 "A" 1 "end"] [] [] []
             (resolve_among [task_A]))
          (TaskTID task_A) = Ok (s, e) ->
        exists rs re,
          In rs [mkMark 1 "A" 1 "start"; mkMark 9 "A" 1 "end"]
          /\ m_event rs = "start"%string /\ m_Time rs = s
          /\ In re [mkMark 1 "A" 1 "start"; mkMark 9 "A" 1 "end"]
          /\ m_event re = "end"%string /\ m_Time re = e
          /\ (StronglySorted Z.le
                (map m_Time [mkMark 1 "A" 1 "start"; mkMark 9 "A" 1 "end"]) ->
              forall r, In r [mkMark 1 "A" 1 "start"; mkMark 9 "A" 1 "end"] ->
                (m_event r = "start"%string -> s <= m_Time r)
                /\ (m_event r = "end"%string -> e <= m_Time r))).
Proof.
  apply (tasks_window_first_events
           (mkTrace [] [mkMark 1 "A" 1 "start"; mkMark 9 "A" 1 "end"] [] [] []
              (resolve_among [task_A]))
           (TaskTID task_A)).
  reflexivity.
Defined.

(** Beyond the claims: [rtapp_window] raises [IndexError] exactly when
    the [rtapp_main] events hold no start event or no end event;
    otherwise it returns the times of the first start event and of the
    first end event, whatever other events ([clock_ref]) lie around
    them. *)
Theorem rtapp_window_first_events (self : Trace) :
  (rtapp_window self = Raise "IndexError" <->
   (forall r, In r (rtapp_main self) -> m_event r <> "start"%string)
   \/ (forall r, In r (rtapp_main self) -> m_event r <> "end"%string))
  /\ (forall s e,
        rtapp_window self = Ok (s, e) ->
        exists before_s rs after_s before_e re after_e,
          rtapp_main self = before_s ++ rs :: after_s
          /\ m_event rs = "start"%string /\ m_Time rs = s
          /\ Forall (fun r => m_event r <> "start"%string) before_s
          /\ rtapp_main self = before_e ++ re :: after_e
          /\ m_event re = "end"%string /\ m_Time re = e
          /\ Forall (fun r => m_event r <> "end"%string) before_e).
Proof.
  unfold rtapp_window, df_rtapp_main. cbv zeta.
  assert (Hsplit : forall kind v,
            first_value
              (map m_Time
                 (filter (fun r => (m_event r =? kind)%string)
                    (rtapp_main self))) = Ok v ->
            exists l1 r l2,
              rtapp_main self = l1 ++ r :: l2
              /\ m_event r = kind /\ m_Time r = v
              /\ Forall (fun r' => m_event r' <> kind) l1).
  { intros kind v. generalize (rtapp_main self) as l.
    induction l as [| x rest IH]; simpl; [discriminate |].
    destruct (String.eqb_spec (m_event x) kind) as [E | E]; simpl.
    - intros H. injection H as <-. exists [], x, rest. auto.
    - intros H. destruct (IH H) as (l1 & r & l2 & -> & Hk & Hv & Hall).
      exists (x :: l1), r, l2. repeat split; auto. }
  pose proof (first_value_filter_error m_Time
                (fun r => (m_event r =? "start")%string) (rtapp_main self))
    as Es.
  pose proof (first_value_filter_error m_Time
                (fun r => (m_event r =? "end")%string) (rtapp_main self))
    as Ee.
  pose proof (Hsplit "start"%string) as Os.
  pose proof (Hsplit "end"%string) as Oe.
  destruct (first_value
              (map m_Time
                 (filter (fun r => (m_event r =? "start")%string)
                    (rtapp_main self))))
    as [s0 | x] eqn:Hs.
  - destruct (first_value
                (map m_Time
                   (filter (fun r => (m_event r =? "end")%string)
                      (rtapp_main self))))
      as [e0 | y] eqn:He; cbn [bind].
    + destruct (Os s0 eq_refl) as (l1 & rs & l2 & Hl & Hk & Hv & Hall).
      destruct (Oe e0 eq_refl) as (m1 & re & m2 & Hm & Hk' & Hv' & Hall').
      split.
      * split; [discriminate |]. intros [H | H].
        -- destruct (H rs); [| exact Hk].
           rewrite Hl. apply in_or_app. right. left. reflexivity.
        -- destruct (H re); [| exact Hk'].
           rewrite Hm. apply in_or_app. right. left. reflexivity.
      * intros s e H. injection H as <- <-.
        exists l1, rs, l2, m1, re, m2. repeat split; assumption.
    + destruct (first_value_cases
                  (map m_Time
                     (filter (fun r => (m_event r =? "end")%string)
                        (rtapp_main self))))
        as [E | (v & E)]; [| congruence].
      rewrite He in E. injection E as ->.
      split; [| discriminate].
      split; [| reflexivity]. intros _. right.
      intros r Hr Hev. apply String.eqb_eq in Hev.
      rewrite (proj1 Ee eq_refl r Hr) in Hev. discriminate.
  - destruct (first_value_cases
                (map m_Time
                   (filter (fun r => (m_event r =? "start")%string)
                      (rtapp_main self))))
      as [E | (v & E)]; [| congruence].
    rewrite Hs in E. injection E as ->. cbn [bind].
    split; [| discriminate].
    split; [| reflexivity]. intros _. left.
    intros r Hr Hev. apply String.eqb_eq in Hev.
    rewrite (proj1 Es eq_refl r Hr) in Hev. discriminate.
Qed.

(** ** The rt-app tasks of a trace *)

Lemma TaskID_eqb_eq (a b : TaskID) : TaskID_eqb a b = true <-> a = b.
Proof.
  destruct a as [pa ca], b as [pb cb]. unfold TaskID_eqb. simpl.
  rewrite andb_true_iff, Z.eqb_eq, String.eqb_eq. split.
  - intros [-> ->]. reflexivity.
  - intros H. injection H as -> ->. auto.
Qed.

Lemma existsb_TaskID_In (tid : TaskID) (l : list TaskID) :
  existsb (TaskID_eqb tid) l = true <-> In tid l.
Proof.
  rewrite existsb_exists. split.
  - intros (x & Hx & He). apply TaskID_eqb_eq in He. subst. exact Hx.
  - intros H. exists tid. split; [exact H | apply TaskID_eqb_eq; reflexivity].
Qed.

(** Beyond the claims: for a [TaskID], [df_rtapp_loop] raises
    [ValueError] exactly when no [rtapp_] table of the trace has an event
    of the task; otherwise it returns the [rtapp_loop] events whose PID
    and name are those of the task. Every task that has an [rtapp_loop]
    event is accepted. *)
Theorem rtapp_task_accepted (self : Trace) (tid : TaskID) :
  (df_rtapp_loop self (TaskTID tid) = Raise "ValueError" <->
   ~ In tid (rtapp_tasks self))
  /\ (In tid (rtapp_tasks self) ->
      exists rows,
        df_rtapp_loop self (TaskTID tid) = Ok rows
        /\ (forall r,
              In r rows <->
              In r (rtapp_loop self)
              /\ __pid r = pid tid /\ __comm r = comm tid))
  /\ (forall r,
        In r (rtapp_loop self) ->
        In (mkTaskID (__pid r) (__comm r)) (rtapp_tasks self)).
Proof.
  unfold df_rtapp_loop, _task_filtered. simpl.
  destruct (existsb (TaskID_eqb tid) (rtapp_tasks self)) eqn:Hex; simpl.
  - apply existsb_TaskID_In in Hex. split; [| split].
    + split; [discriminate | contradiction].
    + intros _. eexists. split; [reflexivity |].
      intros r. unfold df_filter_task_ids. rewrite filter_In. simpl.
      rewrite orb_false_r, TaskID_eqb_eq. split.
      * intros [Hr E]. rewrite <- E. simpl. auto.
      * intros (Hr & Hp & Hc). split; [exact Hr |].
        destruct tid. simpl in *. congruence.
    + intros r Hr. unfold rtapp_tasks, _get_rtapp_tasks.
      apply in_or_app. right. apply in_or_app. right.
      apply in_or_app. left.
      apply in_map_iff. exists r. auto.
  - split; [| split].
    + split; [| reflexivity]. intros _ Hin.
      apply existsb_TaskID_In in Hin. congruence.
    + intros Hin. apply existsb_TaskID_In in Hin. congruence.
    + intros r Hr. unfold rtapp_tasks, _get_rtapp_tasks.
      apply in_or_app. right. apply in_or_app. right.
      apply in_or_app. left.
      apply in_map_iff. exists r. auto.
Qed.

(** ** The size and the durations of a phase table *)

Lemma keep_first_start_values (r : LoopRow) :
  keep_first_start r = 0 \/ keep_first_start r = -1.
Proof.
  unfold keep_first_start.
  destruct (negb (phase_loop r =? 0)); [auto |].
  destruct (event r =? "end")%string; auto.
Qed.

Lemma kept_rows_phases_NoDup (P : LoopRow -> bool) (loops_df : list LoopRow) :
  (forall a b, P a = true -> P b = true ->
               keep_first_start a = keep_first_start b) ->
  NoDup (map phase (filter P (kept_rows loops_df))).
Proof.
  intros HP. apply ForallOrdPairs_NoDup_map.
  eapply ForallOrdPairs_impl_in;
    [| apply ForallOrdPairs_filter, drop_duplicates_last_pairs].
  intros a b Ha Hb Hab Hp. simpl in Hab.
  apply filter_In in Ha, Hb.
  assert (same_kept a b = true).
  { apply same_kept_eq. split; [exact Hp | apply HP; tauto]. }
  congruence.
Qed.

(** Beyond the claims: the table of [df_phases] has at most one row for
    every phase number that occurs in the events of the task. *)
Theorem df_phases_one_row_per_phase (self : Trace) (task : TaskArg)
  (loops_df : list LoopRow) (table : list (Z * Z)) :
  df_rtapp_loop self task = Ok loops_df ->
  df_phases self task = Ok table ->
  (length table <= length (nodup Z.eq_dec (map phase loops_df)))%nat.
Proof.
  intros Hloops Htable. rewrite (df_phases_eq _ _ _ Hloops) in Htable.
  destruct (Nat.even (length (kept_rows loops_df))); [| discriminate].
  injection Htable as <-. rewrite length_pair_up, length_map.
  assert (Hbound : forall P,
            (forall a b, P a = true -> P b = true ->
                         keep_first_start a = keep_first_start b) ->
            (length (filter P (kept_rows loops_df))
             <= length (nodup Z.eq_dec (map phase loops_df)))%nat).
  { intros P HP. rewrite <- (length_map phase).
    apply NoDup_incl_length; [apply kept_rows_phases_NoDup, HP |].
    intros p Hp. apply nodup_In. apply in_map_iff in Hp.
    destruct Hp as (r & <- & Hr). apply in_map.
    apply filter_In in Hr. destruct Hr as [Hr _].
    eapply drop_duplicates_last_In. exact Hr. }
  pose proof (Hbound kept_as_start) as H0.
  pose proof (Hbound (fun r => negb (kept_as_start r))) as H1.
  pose proof (filter_length kept_as_start (kept_rows loops_df)) as Hsum.
  assert (H0' : (length (filter kept_as_start (kept_rows loops_df))
                 <= length (nodup Z.eq_dec (map phase loops_df)))%nat).
  { apply H0. unfold kept_as_start. intros a b Ha Hb.
    apply Z.eqb_eq in Ha, Hb. congruence. }
  assert (H1' : (length (filter (fun r => negb (kept_as_start r))
                           (kept_rows loops_df))
                 <= length (nodup Z.eq_dec (map phase loops_df)))%nat).
  { apply H1. unfold kept_as_start. intros a b Ha Hb.
    apply negb_true_iff, Z.eqb_neq in Ha, Hb.
    destruct (keep_first_start_values a), (keep_first_start_values b);
      congruence. }
  rewrite Nat.div2_div. apply Nat.Div0.div_le_upper_bound. lia.
Qed.

Lemma df_phases_one_row_per_phase_witness :
  (length [(0%Z, 10%Z); (10%Z, 10%Z)]
   <= length (nodup Z.eq_dec (map phase (example_events task_A))))%nat.
Proof.
  apply (df_phases_one_row_per_phase (loop_trace (example_events task_A))
           (TaskTID task_A)); reflexivity.
Defined.

Lemma f64_pair_up_durations (index : list float) :
  Forall (fun t => F64.is_timestamp t = true) index ->
  StronglySorted F64.le index ->
  Forall (fun sd => F64.le 0 (snd sd)) (F64.pair_up index).
Proof.
  induction index as [| x | x y rest IH] using list_pair_ind;
    intros Hts Hs.
  - constructor.
  - constructor.
  - inversion Hs as [| ? ? Hs1 Hx]; subst.
    inversion Hs1 as [| ? ? Hs2 _]; subst.
    inversion Hx as [| ? ? Hxy _]; subst.
    inversion Hts as [| ? ? Tx Hts1]; subst.
    inversion Hts1 as [| ? ? Ty Hts2]; subst.
    simpl. constructor; [| apply IH; assumption].
    simpl. apply sub_nonneg; assumption.
Qed.

(** Beyond the claims, on the float64 index: for the events of a task
    in the order of their timestamps, all finite, every duration in the
    table of [df_phases] is a number that is not negative. *)
Theorem df_phases_durations (loops_df : list F64.LoopRow)
  (table : list (float * float)) :
  loops_df <> [] ->
  Forall (fun r => F64.is_timestamp (F64.Time r) = true) loops_df ->
  StronglySorted F64.le (map F64.Time loops_df) ->
  F64.df_phases loops_df = Ok table ->
  Forall (fun sd => F64.le 0 (snd sd)) table.
Proof.
  intros _ Hts Hord Htable. rewrite f64_df_phases_eq in Htable.
  destruct (Nat.even (length (F64.kept_rows loops_df)));
    [| discriminate Htable].
  injection Htable as <-.
  apply f64_pair_up_durations.
  - apply f64_kept_rows_timestamps. exact Hts.
  - apply StronglySorted_drop_duplicates_last. exact Hord.
Qed.

Lemma df_phases_durations_witness :
  Forall (fun sd : float * float => F64.le 0 (snd sd))
    [ (0x1.0624dd2f1a9fcp-10, 0x1.26e978d4fdf3cp-7);
      (0x1.47ae147ae147bp-7, 0x1.47ae147ae147bp-7) ]%float.
Proof.
  apply (df_phases_durations rounded_events).
  - discriminate.
  - repeat constructor.
  - simpl. repeat constructor.
  - reflexivity.
Defined.

(** ** The phase [task_phase_at] answers with *)

Lemma task_phase_window_id (self : Trace) (task : TaskArg) (k : Z)
  (w : PhaseWindow) :
  task_phase_window self task k = Ok w -> pw_id w = k.
Proof.
  unfold task_phase_window. intros H.
  apply bind_Ok_inv in H. destruct H as (s & _ & H).
  apply bind_Ok_inv in H. destruct H as (e & _ & H).
  injection H as <-. reflexivity.
Qed.

Lemma filter_none {A} (p : A -> bool) (l : list A) :
  (forall x, In x l -> p x = false) -> filter p l = [].
Proof.
  induction l as [| x rest IH]; simpl; intros H; [reflexivity |].
  rewrite (H x) by (left; reflexivity).
  apply IH. intros y Hy. apply H. right. exact Hy.
Qed.

Lemma length_slice_from_filter {A} (label : A -> Z) (t : Z) (df : list A) :
  StronglySorted Z.le (map label df) ->
  (length (slice_from label t df)
   + length (filter (fun r => (label r <? t)%Z) df) = length df)%nat.
Proof.
  induction df as [| x rest IH]; simpl; intros Hs; [reflexivity |].
  inversion Hs as [| ? ? Hrest Hall]; subst.
  destruct (Z.ltb_spec (label x) t) as [Hlt | Hge].
  - simpl. specialize (IH Hrest). lia.
  - simpl. f_equal.
    rewrite filter_none; [simpl; lia |].
    intros r Hr. apply Z.ltb_ge.
    rewrite Forall_forall in Hall.
    specialize (Hall (label r) (in_map label _ _ Hr)). lia.
Qed.

(** Beyond the claims, for a phase table sorted by start: the id of the
    window [task_phase_at] returns for [t] is the number of the rows of
    the table that start strictly before [t], minus one; it is the rank
    of a row of the table, and the window is the one [task_phase_window]
    gives for that id. *)
Theorem task_phase_at_in_range (self : Trace) (task : TaskArg)
  (table : list (Z * Z)) (t : Z) (w : PhaseWindow) :
  df_phases self task = Ok table ->
  StronglySorted Z.le (map fst table) ->
  task_phase_at self task t = Ok (Some w) ->
  pw_id w = Z.of_nat (length (filter (fun r => fst r <? t) table)) - 1
  /\ 0 <= pw_id w < Z.of_nat (length table)
  /\ task_phase_window self task (pw_id w) = Ok w.
Proof.
  intros Htable Hsorted H. unfold task_phase_at in H.
  apply bind_Ok_inv in H. destruct H as (ref & _ & H).
  apply bind_Ok_inv in H. destruct H as (li & _ & H).
  apply bind_Ok_inv in H. destruct H as (ld & _ & H).
  destruct (li + ld <? t); [discriminate H |].
  rewrite Htable in H. cbn [bind] in H.
  destruct (Z.ltb_spec
              (Z.of_nat (length table)
               - Z.of_nat (length (slice_from fst t table)) - 1) 0)
    as [Hneg | Hpos]; [discriminate H |].
  apply bind_Ok_inv in H. destruct H as (w' & Hw & H).
  injection H as <-.
  pose proof (task_phase_window_id _ _ _ _ Hw) as Hid.
  pose proof (length_slice_from_filter fst t table Hsorted) as Hlen.
  pose proof (length_slice_from_le fst t table) as Hle.
  rewrite Hid. split; [lia |]. split; [lia | exact Hw].
Qed.

Lemma task_phase_at_in_range_witness :
  pw_id (mkPhaseWindow 1 10 20)
  = Z.of_nat (length (filter (fun r : Z * Z => fst r <? 15)
                        [(0, 10); (10, 10)])) - 1
  /\ 0 <= pw_id (mkPhaseWindow 1 10 20) < Z.of_nat (length [(0, 10); (10, 10)])
  /\ task_phase_window (loop_trace (example_events test_task_0))
       (TaskTID test_task_0) (pw_id (mkPhaseWindow 1 10 20))
     = Ok (mkPhaseWindow 1 10 20).
Proof.
  apply (task_phase_at_in_range (loop_trace (example_events test_task_0))
           (TaskTID test_task_0) [(0, 10); (10, 10)] 15);
    [reflexivity | simpl; repeat constructor; lia | reflexivity].
Defined.

(** ** The bands of [plot_phases] *)


Lemma series_getitem_unique (series : list (Z * Z)) (t d : Z) :
  NoDup (map fst series) -> In (t, d) series ->
  series_getitem series t = Ok (Scalar d).
Proof.
  intros Hnd Hin. unfold series_getitem.
  assert (H : filter (fun r : Z * Z => fst r =? t) series = [(t, d)]).
  { induction series as [| [s e] rest IH]; [destruct Hin |].
    simpl in Hnd. inversion Hnd as [| ? ? Hnotin Hnd']; subst.
    simpl. destruct Hin as [E | Hin].
    - injection E as -> ->. rewrite Z.eqb_refl. f_equal.
      apply filter_none. intros [s' e'] Hr. simpl.
      apply Z.eqb_neq. intros ->.
      apply Hnotin. apply in_map_iff. exists (t, e'). auto.
    - destruct (Z.eqb_spec s t) as [-> | _].
      + exfalso. apply Hnotin. apply in_map_iff. exists (t, d). auto.
      + apply IH; assumption. }
  rewrite H. reflexivity.
Qed.

Lemma for_each_labels {A B C} (f : A -> PyResult B) (label : C -> A)
  (g : C -> B) (l : list C) :
  (forall x, In x l -> f (label x) = Ok (g x)) ->
  for_each f (map label l) = Ok (map g l).
Proof.
  induction l as [| x rest IH]; simpl; intros H; [reflexivity |].
  rewrite (H x) by (left; reflexivity). cbn [bind].
  rewrite IH by (intros y Hy; apply H; right; exact Hy). reflexivity.
Qed.

Lemma series_getitem_label (series : list (Z * Z)) (t : Z) :
  In t (map fst series) -> exists c, series_getitem series t = Ok c.
Proof.
  intros Hin. apply in_map_iff in Hin. destruct Hin as (r & Hr & Hin).
  unfold series_getitem.
  assert (Hf : In r (filter (fun r : Z * Z => fst r =? t) series)).
  { apply filter_In. split; [exact Hin | apply Z.eqb_eq, Hr]. }
  destruct (filter (fun r : Z * Z => fst r =? t) series) as [| a [| b rest]];
    [destruct Hf | eauto | eauto].
Qed.

Lemma series_getitem_repeated (series l1 l2 l3 : list (Z * Z)) (t d1 d2 : Z) :
  series = l1 ++ (t, d1) :: l2 ++ (t, d2) :: l3 ->
  exists vs,
    series_getitem series t = Ok (Values vs) /\ (2 <= length vs)%nat.
Proof.
  intros ->. unfold series_getitem.
  rewrite filter_app. simpl. rewrite Z.eqb_refl.
  rewrite filter_app. simpl. rewrite Z.eqb_refl.
  set (a := filter (fun r : Z * Z => fst r =? t) l1).
  set (b := filter (fun r : Z * Z => fst r =? t) l2).
  set (c := filter (fun r : Z * Z => fst r =? t) l3).
  assert (Hlen : (2 <= length (a ++ (t, d1) :: b ++ (t, d2) :: c))%nat).
  { rewrite length_app. simpl. rewrite length_app. simpl. lia. }
  destruct (a ++ (t, d1) :: b ++ (t, d2) :: c) as [| x [| y rest]] eqn:E;
    simpl in Hlen; try lia.
  eexists. split; [reflexivity |]. simpl. lia.
Qed.

Lemma windows_as_bands (table : list (Z * Z)) (k : Z) :
  map (fun w => (pw_start w, Scalar (pw_end w)))
    (map window_of (enumerate_from k table))
  = map (fun sd => (fst sd, Scalar (fst sd + snd sd))) table.
Proof.
  revert k. induction table as [| sd rest IH]; intros k; simpl;
    [reflexivity |].
  rewrite IH. reflexivity.
Qed.

(** Beyond the claims: when the starts of the phase table are distinct,
    the bands [plot_phases] draws are the (start, end) pairs of the
    windows of [task_phase_windows], in the same order. When two rows of
    the table have the same start, the end of the band of that start is
    not a number but the array of the ends of these rows. *)
Theorem plot_phases_bands_windows (self : Trace) (task : TaskArg)
  (table : list (Z * Z)) :
  df_phases self task = Ok table ->
  (NoDup (map fst table) ->
   exists windows,
     task_phase_windows self task = Ok windows
     /\ plot_phases_bands self task
        = Ok (map (fun w => (pw_start w, Scalar (pw_end w))) windows))
  /\ (forall l1 l2 l3 t d1 d2,
        table = l1 ++ (t, d1) :: l2 ++ (t, d2) :: l3 ->
        exists bands vs,
          plot_phases_bands self task = Ok bands
          /\ In (t, Values vs) bands /\ (2 <= length vs)%nat).
Proof.
  intros Htable. unfold plot_phases_bands, task_phase_windows.
  rewrite Htable. cbn [bind]. split.
  - intros Hnd. eexists. split; [reflexivity |].
    rewrite windows_as_bands. apply for_each_labels.
    intros [s d] Hin. simpl.
    rewrite (series_getitem_unique table s d Hnd Hin). reflexivity.
  - intros l1 l2 l3 t d1 d2 Hsplit.
    destruct (series_getitem_repeated _ _ _ _ _ _ _ Hsplit) as (vs & Hvs & Hlen).
    set (g := fun sd : Z * Z =>
                (fst sd,
                 cell_add (fst sd)
                   (match series_getitem table (fst sd) with
                    | Ok c => c
                    | Raise _ => Values []
                    end))).
    exists (map g table), (map (Z.add t) vs). split; [| split].
    + apply for_each_labels. intros x Hx. unfold g.
      destruct (series_getitem_label table (fst x)) as (c & Hc).
      { apply in_map. exact Hx. }
      rewrite Hc. reflexivity.
    + apply in_map_iff. exists (t, d1). split.
      * unfold g. simpl. rewrite Hvs. reflexivity.
      * rewrite Hsplit. apply in_or_app. right. left. reflexivity.
    + rewrite length_map. exact Hlen.
Qed.

Lemma plot_phases_bands_windows_witness :
  (NoDup (map fst [(0, 10); (10, 10)]) ->
   exists windows,
     task_phase_windows (loop_trace (example_events task_A)) (TaskTID task_A)
     = Ok windows
     /\ plot_phases_bands (loop_trace (example_events task_A))
          (TaskTID task_A)
        = Ok (map (fun w => (pw_start w, Scalar (pw_end w))) windows))
  /\ (forall l1 l2 l3 t d1 d2,
        [(0, 10); (10, 10)] = l1 ++ (t, d1) :: l2 ++ (t, d2) :: l3 ->
        exists bands vs,
          plot_phases_bands (loop_trace (example_events task_A))
            (TaskTID task_A) = Ok bands
          /\ In (t, Values vs) bands /\ (2 <= length vs)%nat).
Proof.
  apply (plot_phases_bands_windows (loop_trace (example_events task_A))
           (TaskTID task_A) [(0, 10); (10, 10)]).
  reflexivity.
Defined.

Lemma length_slice_from_mono {A} (label : A -> Z) (t1 t2 : Z) (df : list A) :
  t1 <= t2 ->
  (length (slice_from label t2 df) <= length (slice_from label t1 df))%nat.
Proof.
  intros Hle. induction df as [| r rest IH]; simpl; [lia |].
  destruct (Z.ltb_spec (label r) t1) as [H1 | H1].
  - destruct (Z.ltb_spec (label r) t2) as [_ | H2]; [exact IH | lia].
  - destruct (Z.ltb_spec (label r) t2) as [_ | _]; simpl; [| lia].
    pose proof (length_slice_from_le label t2 rest). lia.
Qed.

Lemma task_phase_at_inv (self : Trace) (task : TaskArg) (t : Z)
  (w : PhaseWindow) :
  task_phase_at self task t = Ok (Some w) ->
  exists table,
    df_phases self task = Ok table
    /\ pw_id w = Z.of_nat (length table)
                 - Z.of_nat (length (slice_from fst t table)) - 1.
Proof.
  intros H. unfold task_phase_at in H.
  apply bind_Ok_inv in H. destruct H as (ref & _ & H).
  apply bind_Ok_inv in H. destruct H as (li & _ & H).
  apply bind_Ok_inv in H. destruct H as (ld & _ & H).
  destruct (li + ld <? t); [discriminate H |].
  apply bind_Ok_inv in H. destruct H as (table & Htable & H).
  exists table. split; [exact Htable |].
  destruct (Z.of_nat (length table)
            - Z.of_nat (length (slice_from fst t table)) - 1 <? 0);
    [discriminate H |].
  apply bind_Ok_inv in H. destruct H as (w' & Hw & H).
  injection H as <-. apply (task_phase_window_id _ _ _ _ Hw).
Qed.

(** Beyond the claims, for a phase table sorted by start:
    [task_phase_at] never answers a later timestamp with an earlier
    phase: of two windows it returns for a task, the one for the greater
    timestamp has the greater or the same id. *)
Theorem task_phase_at_monotone (self : Trace) (task : TaskArg)
  (table : list (Z * Z)) (t1 t2 : Z) (w1 w2 : PhaseWindow) :
  df_phases self task = Ok table ->
  StronglySorted Z.le (map fst table) ->
  task_phase_at self task t1 = Ok (Some w1) ->
  task_phase_at self task t2 = Ok (Some w2) ->
  t1 <= t2 ->
  pw_id w1 <= pw_id w2.
Proof.
  intros Htable _ H1 H2 Hle.
  destruct (task_phase_at_inv _ _ _ _ H1) as (table1 & Ht1 & ->).
  destruct (task_phase_at_inv _ _ _ _ H2) as (table2 & Ht2 & ->).
  assert (table1 = table) by congruence.
  assert (table2 = table) by congruence. subst table1 table2.
  pose proof (length_slice_from_mono fst t1 t2 table Hle). lia.
Qed.

Lemma task_phase_at_monotone_witness :
  pw_id (mkPhaseWindow 0 0 10) <= pw_id (mkPhaseWindow 1 10 20).
Proof.
  apply (task_phase_at_monotone (loop_trace (example_events test_task_0))
           (TaskTID test_task_0) [(0, 10); (10, 10)] 5 15);
    [reflexivity | simpl; repeat constructor; lia
    | reflexivity | reflexivity | lia].
Defined.
